(** * Residential community backend: gate entries, authentication, registration

    A shallow embedding of the Express/Prisma route handlers of the
    repository.  Handlers are written in a small state-and-exception monad
    over the document store; what the JavaScript runtime and the libraries
    compute (JSON.parse, string conversion, Date construction, JWT
    verification, the rate limiter, ...) is taken as Section variables. *)

From Stdlib Require Import List String Ascii ZArith Bool Lia DecimalString.
Import ListNotations.

Set Warnings "-register-all".

Local Open Scope string_scope.
Local Open Scope list_scope.
Local Open Scope Z_scope.

Notation "a +++ b" := (String.append a b) (at level 60, right associativity).

(** ** JavaScript values *)

(** Values as [JSON.parse] and [express.json()] produce them, plus
    [undefined] for an absent property.  Numbers are the integral ones; a
    string is held as the bytes of its UTF-8 form (a lone surrogate as its
    three-byte generalised form). *)
Inductive jsval : Type :=
| JUndefined
| JNull
| JBool (b : bool)
| JNum (n : Z)
| JStr (s : string)
| JArr (items : list jsval)
| JObj (fields : list (string * jsval)).

Fixpoint assoc {A : Type} (k : string) (l : list (string * A)) : option A :=
  match l with
  | [] => None
  | (k', v) :: r => if String.eqb k k' then Some v else assoc k r
  end.

(** [v.k] for a value that is neither [null] nor [undefined]; the property
    names the handlers read exist on objects only. *)
Definition prop (v : jsval) (k : string) : jsval :=
  match v with
  | JObj fields => match assoc k fields with Some x => x | None => JUndefined end
  | _ => JUndefined
  end.

Definition nullish (v : jsval) : bool :=
  match v with JUndefined | JNull => true | _ => false end.

(** ToBoolean. *)
Definition truthy (v : jsval) : bool :=
  match v with
  | JUndefined | JNull => false
  | JBool b => b
  | JNum n => negb (n =? 0)
  | JStr s => negb (String.eqb s "")
  | JArr _ | JObj _ => true
  end.

(** [a || b]. *)
Definition js_or (a b : jsval) : jsval := if truthy a then a else b.

(** [v === "lit"]. *)
Definition is_str (v : jsval) (lit : string) : bool :=
  match v with JStr s => String.eqb s lit | _ => false end.

(** ToPrimitive on a value of this kind throws a TypeError exactly when the
    conversion meets an object with an own [toString] property: a parsed
    property is never callable, and [Object.prototype.valueOf] gives the
    object back.  An array is converted by [join], element by element
    ([null] and [undefined] give the empty string). *)
Fixpoint conversion_throws (v : jsval) : bool :=
  match v with
  | JObj fields => match assoc "toString" fields with Some _ => true | None => false end
  | JArr items => existsb conversion_throws items
  | _ => false
  end.

(** [s.length]: the number of UTF-16 code units of the string whose UTF-8
    bytes are [s].  A lead byte opens a sequence of one code unit (two, for
    a four-byte sequence); the continuation bytes [pending] of an open
    sequence add nothing; a continuation byte outside a sequence stands for
    one replacement character. *)
Fixpoint utf16_units (pending : nat) (s : string) : nat :=
  match s with
  | EmptyString => 0
  | String c r =>
      let n := nat_of_ascii c in
      if ((128 <=? n) && (n <? 192))%nat then
        match pending with
        | S p => utf16_units p r
        | O => S (utf16_units 0 r)
        end
      else if (n <? 128)%nat then S (utf16_units 0 r)
      else if (n <? 224)%nat then S (utf16_units 1 r)
      else if (n <? 240)%nat then S (utf16_units 2 r)
      else S (S (utf16_units 3 r))
  end.

Definition utf16_length (s : string) : nat := utf16_units 0 s.

(** ** Thrown values *)

(** What the libraries throw inside a handler.  The text of the message is
    produced by the library and is not modelled: [describe] below stands
    for it. *)
Inductive failure : Type :=
| TypeError (what : string)
| ZodError (issues : list (string * string))
| PrismaValidationError (model field : string)
| PrismaKnownError (code : string) (target : string)
| JwtError (name : string)
| BSONError.

Inductive outcome (A : Type) : Type :=
| Ok (a : A)
| Throw (f : failure).
Arguments Ok {A} a.
Arguments Throw {A} f.

(** ** The document store *)

Inductive EntryType := ENTRY | EXIT.
Inductive ApprovalStatus := APPROVAL_PENDING | APPROVED | REJECTED.
Inductive ServiceProviderStatus := SP_PENDING | SP_ACTIVE | SP_REJECTED | SP_SUSPENDED.
Inductive EmployeeStatus := EMP_ACTIVE | EMP_INACTIVE.
Inductive BillStatus := PENDING | PAID | OVERDUE.

Definition EntryType_eqb (a b : EntryType) : bool :=
  match a, b with ENTRY, ENTRY | EXIT, EXIT => true | _, _ => false end.

Definition BillStatus_eqb (a b : BillStatus) : bool :=
  match a, b with
  | PENDING, PENDING | PAID, PAID | OVERDUE, OVERDUE => true
  | _, _ => false
  end.

Record Admin := {
  admin_id : string;
  admin_username : string;
  admin_email : string;
  admin_status : bool
}.

Record Resident := {
  res_id : string;
  res_name : string;
  res_apartment : string;
  res_phone : string;
  res_email : string;
  res_status : string;
  res_familyMembers : Z;
  res_username : option string;
  res_password : option string;
  res_approvalStatus : ApprovalStatus;
  res_kyc : list (string * jsval);
  res_createdAt : Z
}.

Record ServiceProvider := {
  sp_id : string;
  sp_email : string;
  sp_status : ServiceProviderStatus
}.

Record Employee := {
  emp_id : string;
  emp_email : string;
  emp_status : EmployeeStatus
}.

Record GateEntry := {
  id : string;
  type : EntryType;
  person : string;
  apartment : string;
  entryType : string;
  vehicle : string;
  gate : string;
  method : string;
  residentId : option string;
  createdAt : Z
}.

Record MaintenanceBill := {
  bill_id : string;
  bill_residentId : string;
  bill_month : string;
  bill_year : Z;
  bill_dueDate : Z;
  bill_status : BillStatus;
  bill_paidDate : option Z
}.

Record database := {
  admins : list Admin;
  residents : list Resident;
  serviceProviders : list ServiceProvider;
  employees : list Employee;
  gateEntries : list GateEntry;
  maintenanceBills : list MaintenanceBill
}.

Definition set_gateEntries (l : list GateEntry) (d : database) : database :=
  {| admins := admins d; residents := residents d;
     serviceProviders := serviceProviders d; employees := employees d;
     gateEntries := l; maintenanceBills := maintenanceBills d |}.

Definition set_residents (l : list Resident) (d : database) : database :=
  {| admins := admins d; residents := l;
     serviceProviders := serviceProviders d; employees := employees d;
     gateEntries := gateEntries d; maintenanceBills := maintenanceBills d |}.

Definition set_maintenanceBills (l : list MaintenanceBill) (d : database) : database :=
  {| admins := admins d; residents := residents d;
     serviceProviders := serviceProviders d; employees := employees d;
     gateEntries := gateEntries d; maintenanceBills := l |}.

Definition empty_database : database :=
  {| admins := []; residents := []; serviceProviders := []; employees := [];
     gateEntries := []; maintenanceBills := [] |}.

(** ** Awaited computations: state passing over the store, with exceptions *)

Definition task (A : Type) : Type := database -> outcome A * database.

Definition ret {A : Type} (a : A) : task A := fun d => (Ok a, d).

Definition throw {A : Type} (f : failure) : task A := fun d => (Throw f, d).

Definition bind {A B : Type} (m : task A) (k : A -> task B) : task B :=
  fun d => match m d with
           | (Ok a, d') => k a d'
           | (Throw f, d') => (Throw f, d')
           end.

(** [try { m } catch (error) { h error }]: what [m] wrote before it threw
    stays written. *)
Definition try_catch {A : Type} (m : task A) (h : failure -> task A) : task A :=
  fun d => match m d with
           | (Ok a, d') => (Ok a, d')
           | (Throw f, d') => h f d'
           end.

Definition lift {A : Type} (o : outcome A) : task A := fun d => (o, d).

Definition read {A : Type} (f : database -> A) : task A := fun d => (Ok (f d), d).

Notation "x <- m ;; k" := (bind m (fun x => k))
  (at level 61, m at next level, right associativity).

(** ** Requests and responses *)

Record Request := {
  req_method : string;
  req_originalUrl : string;
  req_authorization : option string;
  req_params_id : string;
  req_query : jsval;
  req_body : jsval;
  req_user : option jsval
}.

Record Response := {
  status : Z;
  body : list (string * jsval)
}.

(** [res.status(code).json({ error, message })]. *)
Definition error_json (code : Z) (error message : string) : Response :=
  {| status := code; body := [("error", JStr error); ("message", JStr message)] |}.

(** What one request reads from outside the store. *)
Record env := {
  now : Z;              (* new Date() in the handler, in ms *)
  db_now : Z;           (* now() used by the store for createdAt *)
  fresh_id : string;    (* the ObjectId the store gives to a created row *)
  bcrypt_salt : string; (* the salt bcrypt draws for a hash *)
  NODE_ENV : option string;
  JWT_SECRET : option string;
  JWT_EXPIRES_IN : option string
}.

(** A MongoDB ObjectId in its string form: 24 hexadecimal digits. *)
Definition is_hex (c : ascii) : bool :=
  let n := nat_of_ascii c in
  ((48 <=? n) && (n <=? 57) || (65 <=? n) && (n <=? 70) || (97 <=? n) && (n <=? 102))%nat.

Definition isObjectId (s : string) : bool :=
  (String.length s =? 24)%nat && forallb is_hex (list_ascii_of_string s).

(** ** Prisma: argument validation shared by the models *)

(** A filter on a [String] column: [undefined] means no filter. *)
Definition string_filter (model field : string) (v : jsval) : outcome (option string) :=
  match v with
  | JUndefined => Ok None
  | JStr s => Ok (Some s)
  | _ => Throw (PrismaValidationError model field)
  end.

(** A required [String] column in [create]. *)
Definition required_string (model field : string) (v : jsval) : outcome string :=
  match v with
  | JStr s => Ok s
  | _ => Throw (PrismaValidationError model field)
  end.

(** A [String] column with [@default]. *)
Definition default_string (model field dflt : string) (v : jsval) : outcome string :=
  match v with
  | JUndefined => Ok dflt
  | JStr s => Ok s
  | _ => Throw (PrismaValidationError model field)
  end.

(** An optional [String? @db.ObjectId] column. *)
Definition optional_objectId (model field : string) (v : jsval) : outcome (option string) :=
  match v with
  | JUndefined | JNull => Ok None
  | JStr s => if isObjectId s then Ok (Some s)
              else Throw (PrismaKnownError "P2023" field)
  | _ => Throw (PrismaValidationError model field)
  end.

(** An [@id @db.ObjectId] value in [where: { id }].  The store prints an id
    in lower case, and rows are looked up by the id as the request spells
    it. *)
Definition id_filter (model : string) (v : string) : outcome string :=
  if isObjectId v then Ok v else Throw (PrismaKnownError "P2023" "id").

Definition obind {A B : Type} (o : outcome A) (k : A -> outcome B) : outcome B :=
  match o with Ok a => k a | Throw f => Throw f end.

Definition field_matches (f : option string) (x : string) : bool :=
  match f with None => true | Some s => String.eqb s x end.

(** ** Prisma: the GateEntry model *)

Record GateEntryWhereInput := {
  where_person : jsval;
  where_apartment : jsval;
  where_vehicle : jsval;
  where_entryType : jsval
}.

Record GateEntryWhere := {
  on_person : option string;
  on_apartment : option string;
  on_vehicle : option string;
  on_entryType : option string
}.

Definition validate_where (w : GateEntryWhereInput) : outcome GateEntryWhere :=
  obind (string_filter "GateEntry" "person" (where_person w)) (fun p =>
  obind (string_filter "GateEntry" "apartment" (where_apartment w)) (fun a =>
  obind (string_filter "GateEntry" "vehicle" (where_vehicle w)) (fun v =>
  obind (string_filter "GateEntry" "entryType" (where_entryType w)) (fun t =>
  Ok {| on_person := p; on_apartment := a; on_vehicle := v; on_entryType := t |})))).

Definition entry_matches (w : GateEntryWhere) (e : GateEntry) : bool :=
  field_matches (on_person w) (person e) &&
  field_matches (on_apartment w) (apartment e) &&
  field_matches (on_vehicle w) (vehicle e) &&
  field_matches (on_entryType w) (entryType e).

(** [orderBy: { createdAt: "desc" }], first row: the greatest [createdAt];
    among rows with the same [createdAt] the one stored first. *)
Fixpoint latest (l : list GateEntry) : option GateEntry :=
  match l with
  | [] => None
  | e :: r =>
      match latest r with
      | None => Some e
      | Some m => if createdAt e <? createdAt m then Some m else Some e
      end
  end.

Definition prisma_gateEntry_findFirst (w : GateEntryWhereInput) : task (option GateEntry) :=
  w' <- lift (validate_where w) ;;
  read (fun d => latest (filter (entry_matches w') (gateEntries d))).

Record GateEntryCreateInput := {
  data_type : jsval;
  data_person : jsval;
  data_apartment : jsval;
  data_entryType : jsval;
  data_vehicle : jsval;
  data_gate : jsval;
  data_method : jsval;
  data_residentId : jsval
}.

Definition entry_type_value (v : jsval) : outcome EntryType :=
  match v with
  | JUndefined => Ok ENTRY
  | JStr s => if String.eqb s "ENTRY" then Ok ENTRY
              else if String.eqb s "EXIT" then Ok EXIT
              else Throw (PrismaValidationError "GateEntry" "type")
  | _ => Throw (PrismaValidationError "GateEntry" "type")
  end.

Definition validate_create (e : env) (data : GateEntryCreateInput) : outcome GateEntry :=
  obind (entry_type_value (data_type data)) (fun t =>
  obind (required_string "GateEntry" "person" (data_person data)) (fun p =>
  obind (required_string "GateEntry" "apartment" (data_apartment data)) (fun a =>
  obind (required_string "GateEntry" "entryType" (data_entryType data)) (fun et =>
  obind (default_string "GateEntry" "vehicle" "None" (data_vehicle data)) (fun v =>
  obind (default_string "GateEntry" "gate" "Main Gate" (data_gate data)) (fun g =>
  obind (default_string "GateEntry" "method" "Manual" (data_method data)) (fun m =>
  obind (optional_objectId "GateEntry" "residentId" (data_residentId data)) (fun r =>
  Ok {| id := fresh_id e; type := t; person := p; apartment := a;
        entryType := et; vehicle := v; gate := g; method := m;
        residentId := r; createdAt := db_now e |})))))))).

(** [include: { resident: { select: { name, apartment } } }]. *)
Definition included_resident (d : database) (e : GateEntry) : option Resident :=
  match residentId e with
  | None => None
  | Some rid => find (fun r => String.eqb (res_id r) rid) (residents d)
  end.

Definition prisma_gateEntry_create (e : env) (data : GateEntryCreateInput)
  : task (GateEntry * option Resident) :=
  row <- lift (validate_create e data) ;;
  fun d => let d' := set_gateEntries (gateEntries d ++ [row]) d in
           (Ok (row, included_resident d' row), d').

Definition prisma_gateEntry_findUnique (entryId : string) : task (option GateEntry) :=
  i <- lift (id_filter "GateEntry" entryId) ;;
  read (fun d => find (fun e => String.eqb (id e) i) (gateEntries d)).

Fixpoint remove_first (i : string) (l : list GateEntry) : list GateEntry :=
  match l with
  | [] => []
  | e :: r => if String.eqb (id e) i then r else e :: remove_first i r
  end.

Definition prisma_gateEntry_delete (entryId : string) : task unit :=
  i <- lift (id_filter "GateEntry" entryId) ;;
  fun d => match find (fun e => String.eqb (id e) i) (gateEntries d) with
           | None => (Throw (PrismaKnownError "P2025" "GateEntry"), d)
           | Some _ => (Ok tt, set_gateEntries (remove_first i (gateEntries d)) d)
           end.

(** [count({ where: { type, createdAt: { gte, lt } } })]. *)
Definition in_range (lo hi : Z) (e : GateEntry) : bool :=
  (lo <=? createdAt e) && (createdAt e <? hi).

Definition prisma_gateEntry_count (p : GateEntry -> bool) : task Z :=
  read (fun d => Z.of_nat (List.length (filter p (gateEntries d)))).

(** [prisma.resident.findFirst({ where: { apartment } })]. *)
Definition prisma_resident_findFirst_apartment (v : jsval) : task (option Resident) :=
  a <- lift (string_filter "Resident" "apartment" v) ;;
  read (fun d => find (fun r => field_matches a (res_apartment r)) (residents d)).

Definition EntryType_string (t : EntryType) : string :=
  match t with ENTRY => "ENTRY" | EXIT => "EXIT" end.

Definition opt_json (o : option string) : jsval :=
  match o with Some s => JStr s | None => JNull end.

Definition gateEntry_json (row : GateEntry * option Resident) : jsval :=
  let (e, r) := row in
  JObj [("id", JStr (id e)); ("type", JStr (EntryType_string (type e)));
        ("person", JStr (person e)); ("apartment", JStr (apartment e));
        ("entryType", JStr (entryType e)); ("vehicle", JStr (vehicle e));
        ("gate", JStr (gate e)); ("method", JStr (method e));
        ("residentId", opt_json (residentId e));
        ("createdAt", JNum (createdAt e));
        ("resident", match r with
                     | Some x => JObj [("name", JStr (res_name x));
                                       ("apartment", JStr (res_apartment x))]
                     | None => JNull
                     end)].

(** ** A small concrete runtime

    Finite stand-ins for the runtime functions, used to run the handlers
    on concrete requests in the examples at the end of the file. *)

Definition example_guest_payload : jsval :=
  JObj [("type", JStr "guest_entry"); ("guestName", JStr "Bob");
        ("hostApartment", JStr "A-101"); ("validFrom", JNum 1000);
        ("validUntil", JNum 2000)].

Definition example_nameless_payload : jsval :=
  JObj [("type", JStr "guest_entry"); ("hostApartment", JStr "A-101");
        ("validFrom", JNum 1000); ("validUntil", JNum 2000)].

Definition example_resident_payload : jsval :=
  JObj [("type", JStr "resident_entry"); ("residentName", JStr "Alice");
        ("apartment", JStr "A-101")].

(** A value whose conversion to a string or a number throws. *)
Definition example_unconvertible : jsval := JObj [("toString", JNum 0)].

(** Bob's payload with a licence plate that does not convert, inside its
    window; and with a validUntil that does not convert, before its
    window. *)
Definition example_plate_payload : jsval :=
  JObj [("type", JStr "guest_entry"); ("guestName", JStr "Bob");
        ("hostApartment", JStr "A-101"); ("validFrom", JNum 1000);
        ("validUntil", JNum 2000); ("vehicleType", JStr "Car");
        ("licensePlate", example_unconvertible)].

Definition example_date_payload : jsval :=
  JObj [("type", JStr "guest_entry"); ("guestName", JStr "Bob");
        ("hostApartment", JStr "A-101"); ("validFrom", JNum 9000);
        ("validUntil", example_unconvertible)].

(** [JSON.parse] on the texts of the payloads above. *)
Definition example_JSON_parse (s : string) : option jsval :=
  if String.eqb s "guest Bob" then Some example_guest_payload
  else if String.eqb s "guest without name" then Some example_nameless_payload
  else if String.eqb s "resident Alice" then Some example_resident_payload
  else if String.eqb s "guest with a plate object" then Some example_plate_payload
  else if String.eqb s "guest with a date object" then Some example_date_payload
  else None.

Definition example_ToString (v : jsval) : string :=
  match v with
  | JUndefined => "undefined"
  | JNull => "null"
  | JBool true => "true"
  | JBool false => "false"
  | JNum n => DecimalString.NilZero.string_of_int (Z.to_int n)
  | JStr s => s
  | JArr _ => ""
  | JObj _ => "[object Object]"
  end.

Definition example_Date_of (v : jsval) : option Z :=
  match v with
  | JNum n => Some n
  | _ => None
  end.

Definition example_describe (f : failure) : string :=
  match f with
  | TypeError what => "Cannot read properties of " +++ what
  | ZodError _ => "Invalid request"
  | PrismaValidationError model field => "Invalid value for " +++ model +++ "." +++ field
  | PrismaKnownError code target => code +++ " on " +++ target
  | JwtError name => name
  | BSONError => "input must be a 24 character hex string"
  end.

Definition example_is_email (s : string) : bool :=
  existsb (Ascii.eqb "@") (list_ascii_of_string s).

Definition example_Number_of (s : string) : option Z :=
  match DecimalString.NilZero.int_of_string s with
  | Some i => Some (Z.of_int i)
  | None => None
  end.

(** Days in UTC. *)
Definition example_startOfDay (t : Z) : Z := (t / 86400000) * 86400000.
Definition example_nextDay (t : Z) : Z := t + 86400000.

Definition example_contains (hay needle : string) : bool := String.eqb hay needle.

Definition example_order_rows (sort order : string) (rows : list GateEntry)
  : option (list GateEntry) :=
  if String.eqb sort "createdAt" then
    Some (if String.eqb order "desc" then rev rows else rows)
  else None.

Definition example_admin_id : string := "aaaaaaaaaaaaaaaaaaaaaaaa".
Definition example_resident_id : string := "bbbbbbbbbbbbbbbbbbbbbbbb".

(** Tokens signed with the secret "k" that expire at time 5000. *)
Definition example_jwt_verify (token : string) (secret : option string) (t : Z)
  : option jsval :=
  match secret with
  | Some k =>
      if String.eqb k "k" && (t <? 5000) then
        if String.eqb token "admin-token" then
          Some (JObj [("id", JStr example_admin_id); ("type", JStr "admin");
                      ("email", JStr "admin@example.com")])
        else if String.eqb token "resident-token" then
          Some (JObj [("id", JStr example_resident_id); ("type", JStr "resident");
                      ("email", JStr "carol@example.com")])
        else None
      else None
  | None => None
  end.

Definition example_jwt_sign (payload : jsval) (secret : option string)
  (expiresIn : string) (t : Z) : option string :=
  match secret, prop payload "type" with
  | Some _, JStr ty => Some (ty +++ "-token")
  | _, _ => None
  end.

Definition example_bcrypt_hash (password salt : string) : string :=
  "$2a$12$" +++ salt +++ password.

Definition example_ObjectId_new (v : jsval) : option string :=
  match v with
  | JStr s => if isObjectId s then Some s else None
  | _ => None
  end.

Definition example_env : env :=
  {| now := 1500; db_now := 1501; fresh_id := "cccccccccccccccccccccccc";
     bcrypt_salt := "salt"; NODE_ENV := None; JWT_SECRET := Some "k";
     JWT_EXPIRES_IN := None |}.

Definition example_request (authorization : option string) (body : jsval) : Request :=
  {| req_method := "POST"; req_originalUrl := "/"; req_authorization := authorization;
     req_params_id := ""; req_query := JObj []; req_body := body; req_user := None |}.

Definition scan_of (text : string) : Request :=
  example_request None (JObj [("qrData", JStr text)]).

Section Backend.

(** ** What the runtime and the libraries compute *)

(** [JSON.parse]: [None] when it throws a SyntaxError. *)
Variable JSON_parse : string -> option jsval.
(** ToString of a value that is not a string, when the conversion gives
    one. *)
Variable ToString : jsval -> string.
(** [new Date(v).getTime()], when the conversion of [v] gives a primitive:
    [None] for an Invalid Date (NaN). *)
Variable Date_of : jsval -> option Z.
(** The [message] of a thrown library error. *)
Variable describe : failure -> string.

(** The string a conversion gives.  Where the value may be an object the
    handlers go through [to_string] below, which throws first. *)
Definition js_string (v : jsval) : string :=
  match v with JStr s => s | _ => ToString v end.

(** String conversion in a template literal: a TypeError for a value whose
    conversion throws. *)
Definition to_string (v : jsval) : task string :=
  if conversion_throws v then throw (TypeError "Cannot convert object to primitive value")
  else ret (js_string v).

(** [new Date(v)]: the constructor converts [v] to a primitive first. *)
Definition new_Date (v : jsval) : task (option Z) :=
  if conversion_throws v then throw (TypeError "Cannot convert object to primitive value")
  else ret (Date_of v).

(** [now < d] and [now > d] on Date objects: false when [d] is invalid. *)
Definition date_lt (t : Z) (d : option Z) : bool :=
  match d with Some x => t <? x | None => false end.

Definition date_gt (t : Z) (d : option Z) : bool :=
  match d with Some x => x <? t | None => false end.

Definition not_null (what : string) (v : jsval) : task jsval :=
  if nullish v then throw (TypeError what) else ret v.

(** ** routes/gateEntries.ts *)

Definition type_literal (isEntry : bool) : jsval :=
  JStr (if isEntry then "ENTRY" else "EXIT").

(** [!last || last.type === "EXIT"]. *)
Definition is_entry (last : option GateEntry) : bool :=
  match last with
  | None => true
  | Some l => EntryType_eqb (type l) EXIT
  end.

Definition toLowerCase_type (t : EntryType) : string :=
  match t with ENTRY => "entry" | EXIT => "exit" end.

(** The end of the handler, after the switch: create the gate entry and
    answer 201. *)
Definition record_entry (e : env) (entryData : GateEntryCreateInput) : task Response :=
  gateEntry <- prisma_gateEntry_create e entryData ;;
  ret {| status := 201;
         body := [("message", JStr (toLowerCase_type (type (fst gateEntry))
                                      +++ " recorded successfully"));
                  ("entry", gateEntry_json gateEntry);
                  ("entryType", data_type entryData);
                  ("person", data_person entryData);
                  ("apartment", data_apartment entryData)] |}.

(** POST /qr-scan, from the top of the handler to the end of the switch: the
    response of an early [return], or the [entryData] with which a case
    breaks out of the switch.  The inner try/catch around [JSON.parse]
    answers 400 for a text that does not parse and for a [qrData] whose
    conversion to a string throws. *)
Definition qr_scan_entryData (req : Request) (e : env)
  : task (Response + GateEntryCreateInput) :=
  reqBody <- not_null "req.body" (req_body req) ;;
  let qrData := prop reqBody "qrData" in
  if negb (truthy qrData) then
    ret (inl (error_json 400 "Missing QR data" "QR code data is required"))
  else if conversion_throws qrData then
    ret (inl (error_json 400 "Invalid QR code" "QR code data is not valid JSON"))
  else
    match JSON_parse (js_string qrData) with
    | None => ret (inl (error_json 400 "Invalid QR code" "QR code data is not valid JSON"))
    | Some parsed =>
      parsedData <- not_null "parsedData" parsed ;;
      let type := prop parsedData "type" in
      if is_str type "guest_entry" then
        validFrom <- new_Date (prop parsedData "validFrom") ;;
        validUntil <- new_Date (prop parsedData "validUntil") ;;
        if date_lt (now e) validFrom || date_gt (now e) validUntil then
          ret (inl (error_json 400 "QR Code expired"
                      "Guest QR code is not valid at this time"))
        else
          lastGuestEntry <- prisma_gateEntry_findFirst
            {| where_person := prop parsedData "guestName";
               where_apartment := prop parsedData "hostApartment";
               where_vehicle := JUndefined;
               where_entryType := JStr "Guest" |} ;;
          let isGuestEntry := is_entry lastGuestEntry in
          vehicle <-
            (if truthy (prop parsedData "licensePlate") then
               vehicleType <- to_string (prop parsedData "vehicleType") ;;
               licensePlate <- to_string (prop parsedData "licensePlate") ;;
               ret (JStr (vehicleType +++ " (" +++ licensePlate +++ ")"))
             else ret (js_or (prop parsedData "vehicleType") (JStr "None"))) ;;
          hostResident <- prisma_resident_findFirst_apartment (prop parsedData "hostApartment") ;;
          ret (inr {| data_gate := JStr "Main Gate";
                      data_method := JStr "QR Code";
                      data_type := type_literal isGuestEntry;
                      data_person := prop parsedData "guestName";
                      data_apartment := prop parsedData "hostApartment";
                      data_entryType := JStr "Guest";
                      data_vehicle := vehicle;
                      data_residentId :=
                        match hostResident with
                        | Some h => JStr (res_id h)
                        | None => JUndefined
                        end |})
      else if is_str type "resident_entry" then
        lastResidentEntry <- prisma_gateEntry_findFirst
          {| where_person := prop parsedData "residentName";
             where_apartment := prop parsedData "apartment";
             where_vehicle := JUndefined;
             where_entryType := JStr "Resident" |} ;;
        let isResidentEntry := is_entry lastResidentEntry in
        ret (inr {| data_gate := JStr "Main Gate";
                    data_method := JStr "QR Code";
                    data_type := type_literal isResidentEntry;
                    data_person := prop parsedData "residentName";
                    data_apartment := prop parsedData "apartment";
                    data_entryType := JStr "Resident";
                    data_vehicle := JStr "None";
                    data_residentId := prop parsedData "residentId" |})
      else if is_str type "vehicle_entry" then
        make <- to_string (prop parsedData "make") ;;
        model <- to_string (prop parsedData "model") ;;
        licensePlate <- to_string (prop parsedData "licensePlate") ;;
        let vehicleDescription :=
          JStr (make +++ " " +++ model +++ " (" +++ licensePlate +++ ")") in
        lastVehicleEntry <- prisma_gateEntry_findFirst
          {| where_person := prop parsedData "residentName";
             where_apartment := prop parsedData "apartment";
             where_vehicle := vehicleDescription;
             where_entryType := JStr "Resident Vehicle" |} ;;
        let isVehicleEntry := is_entry lastVehicleEntry in
        ret (inr {| data_gate := JStr "Main Gate";
                    data_method := JStr "QR Code";
                    data_type := type_literal isVehicleEntry;
                    data_person := prop parsedData "residentName";
                    data_apartment := prop parsedData "apartment";
                    data_entryType := JStr "Resident Vehicle";
                    data_vehicle := vehicleDescription;
                    data_residentId := prop parsedData "residentId" |})
      else if is_str type "delivery_entry" then
        lastDeliveryEntry <- prisma_gateEntry_findFirst
          {| where_person := prop parsedData "riderName";
             where_apartment := prop parsedData "apartment";
             where_vehicle := JUndefined;
             where_entryType := JStr "Delivery" |} ;;
        let isDeliveryEntry := is_entry lastDeliveryEntry in
        ret (inr {| data_gate := JStr "Main Gate";
                    data_method := JStr "QR Code";
                    data_type := type_literal isDeliveryEntry;
                    data_person := prop parsedData "riderName";
                    data_apartment := prop parsedData "apartment";
                    data_entryType := JStr "Delivery";
                    data_vehicle :=
                      js_or (prop parsedData "companyName") (JStr "Delivery Vehicle");
                    data_residentId := prop parsedData "residentId" |})
      else if is_str type "service_provider_entry" then
        lastProviderEntry <- prisma_gateEntry_findFirst
          {| where_person := prop parsedData "providerName";
             where_apartment := JUndefined;
             where_vehicle := JUndefined;
             where_entryType := JStr "Service Provider" |} ;;
        let isProviderEntry := is_entry lastProviderEntry in
        ret (inr {| data_gate := JStr "Main Gate";
                    data_method := JStr "QR Code";
                    data_type := type_literal isProviderEntry;
                    data_person := prop parsedData "providerName";
                    data_apartment := JStr "Service Provider";
                    data_entryType := JStr "Service Provider";
                    data_vehicle := JStr "None";
                    data_residentId := JUndefined |})
      else if is_str type "employee_entry" then
        lastEmployeeEntry <- prisma_gateEntry_findFirst
          {| where_person := prop parsedData "employeeName";
             where_apartment := JUndefined;
             where_vehicle := JUndefined;
             where_entryType := JStr "Employee" |} ;;
        let isEmployeeEntry := is_entry lastEmployeeEntry in
        ret (inr {| data_gate := JStr "Main Gate";
                    data_method := JStr "QR Code";
                    data_type := type_literal isEmployeeEntry;
                    data_person := prop parsedData "employeeName";
                    data_apartment := prop parsedData "department";
                    data_entryType := JStr "Employee";
                    data_vehicle := JStr "None";
                    data_residentId := JUndefined |})
      else
        unknown <- to_string type ;;
        ret (inl (error_json 400 "Invalid QR code type"
                    ("Unknown QR code type: " +++ unknown)))
    end.

(** POST /qr-scan: the switch, then the create, inside the handler's
    try/catch. *)
Definition qr_scan (req : Request) (e : env) : task Response :=
  try_catch
    (step <- qr_scan_entryData req e ;;
     match step with
     | inl response => ret response
     | inr entryData => record_entry e entryData
     end)
    (fun error => ret (error_json 500 "Failed to process QR code" "Internal server error")).

(** ** lib/validations.ts: the Zod schemas the handlers use *)

(** Zod's e-mail pattern and [Number(s)] ([None] for NaN). *)
Variable is_email : string -> bool.
Variable Number_of : string -> option Z.

Inductive zod : Type :=
| z_string (min : nat) (msg : string)
| z_email (msg : string)
| z_number (min : Z) (msg : string)
| z_plain_number
| z_enum (options : list string)
| z_numeric_string (refine : Z -> bool) (msg : string)
| z_optional (inner : zod).

(** The parsed value, or the message of the issue. *)
Fixpoint z_parse (z : zod) (v : jsval) : string + jsval :=
  match z with
  | z_string min msg =>
      match v with
      | JStr s => if (min <=? utf16_length s)%nat then inr v else inl msg
      | JUndefined => inl "Required"
      | _ => inl "Expected string"
      end
  | z_email msg =>
      match v with
      | JStr s => if is_email s then inr v else inl msg
      | JUndefined => inl "Required"
      | _ => inl "Expected string"
      end
  | z_number min msg =>
      match v with
      | JNum n => if min <=? n then inr v else inl msg
      | JUndefined => inl "Required"
      | _ => inl "Expected number"
      end
  | z_plain_number =>
      match v with
      | JNum n => inr v
      | JUndefined => inl "Required"
      | _ => inl "Expected number"
      end
  | z_enum options =>
      match v with
      | JStr s => if existsb (String.eqb s) options then inr v else inl "Invalid enum value"
      | JUndefined => inl "Required"
      | _ => inl "Invalid enum value"
      end
  | z_numeric_string refine msg =>
      match v with
      | JStr s =>
          match Number_of s with
          | Some n => if refine n then inr (JNum n) else inl msg
          | None => inl msg
          end
      | JUndefined => inl "Required"
      | _ => inl "Expected string"
      end
  | z_optional inner =>
      match v with
      | JUndefined => inr JUndefined
      | _ => z_parse inner v
      end
  end.

Fixpoint z_issues (shape : list (string * zod)) (input : jsval) : list (string * string) :=
  match shape with
  | [] => []
  | (k, z) :: r =>
      match z_parse z (prop input k) with
      | inl msg => (k, msg) :: z_issues r input
      | inr _ => z_issues r input
      end
  end.

Fixpoint z_output (shape : list (string * zod)) (input : jsval) : list (string * jsval) :=
  match shape with
  | [] => []
  | (k, z) :: r =>
      match z_parse z (prop input k) with
      | inr JUndefined | inl _ => z_output r input
      | inr x => (k, x) :: z_output r input
      end
  end.

(** [z.object(shape).parse(input)]: unknown keys are stripped. *)
Definition z_object (shape : list (string * zod)) (input : jsval) : outcome jsval :=
  match input with
  | JObj _ =>
      match z_issues shape input with
      | [] => Ok (JObj (z_output shape input))
      | issues => Throw (ZodError issues)
      end
  | JUndefined => Throw (ZodError [("", "Required")])
  | _ => Throw (ZodError [("", "Expected object")])
  end.

Definition IdDocumentSchema : zod := z_enum ["CNIC"; "PASSPORT"; "DRIVER_LICENSE"].
Definition OwnershipTypeSchema : zod := z_enum ["OWNER"; "TENANT"].

Definition ResidentRegistrationSchema : list (string * zod) :=
  [("name", z_string 2 "Name must be at least 2 characters");
   ("apartment", z_string 1 "Apartment is required");
   ("phone", z_string 10 "Phone number must be at least 10 digits");
   ("email", z_email "Invalid email address");
   ("familyMembers", z_number 1 "Family members must be at least 1");
   ("username", z_optional (z_string 3 "Username must be at least 3 characters"));
   ("password", z_optional (z_string 6 "Password must be at least 6 characters"));
   ("idDocumentType", IdDocumentSchema);
   ("cnicNumber", z_optional (z_string 0 ""));
   ("passportNumber", z_optional (z_string 0 ""));
   ("driverLicenseNumber", z_optional (z_string 0 ""));
   ("ownershipType", OwnershipTypeSchema);
   ("emergencyContact", z_optional (z_string 0 ""));
   ("emergencyContactPhone", z_optional (z_string 0 ""));
   ("occupation", z_optional (z_string 0 ""));
   ("workAddress", z_optional (z_string 0 ""));
   ("monthlyIncome", z_optional z_plain_number);
   ("previousAddress", z_optional (z_string 0 ""));
   ("reference1Name", z_optional (z_string 0 ""));
   ("reference1Phone", z_optional (z_string 0 ""));
   ("reference2Name", z_optional (z_string 0 ""));
   ("reference2Phone", z_optional (z_string 0 ""));
   ("additionalNotes", z_optional (z_string 0 ""));
   ("profilePhoto", z_optional (z_string 0 ""))].

Definition BillUpdateSchema : list (string * zod) :=
  [("status", z_optional (z_enum ["PENDING"; "PAID"; "OVERDUE"]));
   ("paidDate", z_optional (z_string 0 ""))].

Definition GateEntrySchema : list (string * zod) :=
  [("type", z_enum ["ENTRY"; "EXIT"]);
   ("person", z_string 1 "Person name is required");
   ("apartment", z_string 1 "Apartment is required");
   ("entryType", z_string 1 "Entry type is required");
   ("vehicle", z_optional (z_string 0 ""));
   ("gate", z_optional (z_string 0 ""));
   ("method", z_optional (z_string 0 ""));
   ("residentId", z_optional z_plain_number)].

Definition PaginationSchema : list (string * zod) :=
  [("page", z_optional (z_numeric_string (fun n => 0 <? n) "Page must be positive"));
   ("limit", z_optional (z_numeric_string (fun n => (0 <? n) && (n <=? 100))
                           "Limit must be between 1 and 100"));
   ("search", z_optional (z_string 0 ""));
   ("status", z_optional (z_string 0 ""));
   ("category", z_optional (z_string 0 ""));
   ("sort", z_optional (z_string 0 ""));
   ("order", z_optional (z_enum ["asc"; "desc"]))].

(** ** routes/gateEntries.ts, continued *)

(** [error instanceof Error ? error.message : "Invalid input"]: every
    thrown [failure] is an Error. *)
Definition error_message (error : failure) : string := describe error.

(** POST / (manual gate entry). *)
Definition create_gate_entry (req : Request) (e : env) : task Response :=
  try_catch
    (validatedData <- lift (z_object GateEntrySchema (req_body req)) ;;
     gateEntry <- prisma_gateEntry_create e
       {| data_type := prop validatedData "type";
          data_person := prop validatedData "person";
          data_apartment := prop validatedData "apartment";
          data_entryType := prop validatedData "entryType";
          data_vehicle := prop validatedData "vehicle";
          data_gate := prop validatedData "gate";
          data_method := prop validatedData "method";
          data_residentId := prop validatedData "residentId" |} ;;
     ret {| status := 201;
            body := [("message", JStr "Gate entry created successfully");
                     ("entry", gateEntry_json gateEntry)] |})
    (fun error => ret (error_json 400 "Failed to create gate entry" (error_message error))).

(** [today.setHours(0, 0, 0, 0)] and [setDate(getDate() + 1)] in the
    server's time zone. *)
Variable startOfDay : Z -> Z.
Variable nextDay : Z -> Z.

Definition is_type (t : EntryType) (x : GateEntry) : bool := EntryType_eqb (type x) t.

(** [groupBy({ by: ["entryType"], _count })]: one group per value, in the
    order of first appearance. *)
Fixpoint group_count (l : list GateEntry) (seen : list string) : list (string * Z) :=
  match l with
  | [] => []
  | x :: r =>
      if existsb (String.eqb (entryType x)) seen then group_count r seen
      else (entryType x,
            Z.of_nat (List.length (filter (fun y => String.eqb (entryType y) (entryType x)) l)))
           :: group_count r (entryType x :: seen)
  end.

(** GET /stats/today. *)
Definition stats_today (req : Request) (e : env) : task Response :=
  try_catch
    (let today := startOfDay (now e) in
     let tomorrow := nextDay today in
     totalEntries <- prisma_gateEntry_count
       (fun x => is_type ENTRY x && in_range today tomorrow x) ;;
     totalExits <- prisma_gateEntry_count
       (fun x => is_type EXIT x && in_range today tomorrow x) ;;
     guestEntries <- prisma_gateEntry_count
       (fun x => String.eqb (entryType x) "Guest" && in_range today tomorrow x) ;;
     vehicleEntries <- prisma_gateEntry_count
       (fun x => existsb (String.eqb (entryType x)) ["Resident Vehicle"; "Service Provider"]
                 && in_range today tomorrow x) ;;
     let currentOccupancy := Z.max 0 (totalEntries - totalExits) in
     entryTypeStats <- read (fun d =>
       group_count (filter (in_range today tomorrow) (gateEntries d)) []) ;;
     ret {| status := 200;
            body := [("statistics",
                      JObj [("totalEntries", JNum totalEntries);
                            ("totalExits", JNum totalExits);
                            ("currentOccupancy", JNum currentOccupancy);
                            ("guestEntries", JNum guestEntries);
                            ("vehicleEntries", JNum vehicleEntries)]);
                     ("entryTypeStats",
                      JArr (map (fun g => JObj [("entryType", JStr (fst g));
                                                ("_count", JObj [("entryType", JNum (snd g))])])
                                entryTypeStats))] |})
    (fun error => ret (error_json 500 "Failed to fetch statistics" "Internal server error")).

(** DELETE /:id. *)
Definition delete_gate_entry (req : Request) (e : env) : task Response :=
  try_catch
    (let entryId := req_params_id req in
     entry <- prisma_gateEntry_findUnique entryId ;;
     match entry with
     | None => ret (error_json 404 "Gate entry not found" "Gate entry does not exist")
     | Some _ =>
         _ <- prisma_gateEntry_delete entryId ;;
         ret {| status := 200;
                body := [("message", JStr "Gate entry deleted successfully")] |}
     end)
    (fun error => ret (error_json 500 "Failed to delete gate entry" "Internal server error")).

(** [contains] with [mode: "insensitive"], and the rows ordered by a column
    ([None] when the column does not exist on the model). *)
Variable contains_insensitive : string -> string -> bool.
Variable order_rows : string -> string -> list GateEntry -> option (list GateEntry).

Definition search_where (search : jsval) (x : GateEntry) : bool :=
  match search with
  | JStr s =>
      if truthy search then
        contains_insensitive (person x) s || contains_insensitive (apartment x) s
        || contains_insensitive (entryType x) s || contains_insensitive (vehicle x) s
      else true
  | _ => true
  end.

Definition prisma_gateEntry_findMany (search : jsval) (sort order : string) (skip take : Z)
  : task (list (GateEntry * option Resident)) :=
  fun d =>
    match order_rows sort order (filter (search_where search) (gateEntries d)) with
    | None => (Throw (PrismaValidationError "GateEntry" "orderBy"), d)
    | Some rows =>
        (Ok (map (fun x => (x, included_resident d x))
                 (firstn (Z.to_nat take) (skipn (Z.to_nat skip) rows))), d)
    end.

Definition num_or (v : jsval) (dflt : Z) : Z :=
  match js_or v (JNum dflt) with JNum n => n | _ => dflt end.

(** [Math.ceil(total / limit)] for a positive [limit]. *)
Definition ceil_div (total limit : Z) : Z := (total + limit - 1) / limit.

(** GET / (all gate entries). *)
Definition list_gate_entries (req : Request) (e : env) : task Response :=
  try_catch
    (query <- lift (z_object PaginationSchema (req_query req)) ;;
     let page := num_or (prop query "page") 1 in
     let limit := num_or (prop query "limit") 20 in
     let skip := (page - 1) * limit in
     let sort := if truthy (prop query "sort") then js_string (prop query "sort")
                 else "createdAt" in
     let order := if truthy (prop query "sort")
                  then js_string (js_or (prop query "order") (JStr "desc"))
                  else "desc" in
     entries <- prisma_gateEntry_findMany (prop query "search") sort order skip limit ;;
     total <- prisma_gateEntry_count (search_where (prop query "search")) ;;
     ret {| status := 200;
            body := [("entries", JArr (map gateEntry_json entries));
                     ("pagination",
                      JObj [("page", JNum page); ("limit", JNum limit);
                            ("total", JNum total);
                            ("pages", JNum (ceil_div total limit))])] |})
    (fun error => ret (error_json 500 "Failed to fetch gate entries" "Internal server error")).

(** ** lib/auth.ts *)

(** [jwt.verify(token, secret)] at a time: the decoded payload, or [None]
    when it throws; [jwt.sign(payload, secret, { expiresIn })];
    [bcrypt.hash(password, 12)] with the salt drawn. *)
Variable jwt_verify : string -> option string -> Z -> option jsval.
Variable jwt_sign : jsval -> option string -> string -> Z -> option string.
Variable bcrypt_hash : string -> string -> string.
(** [new ObjectId(v)] as a hex string: [None] when the constructor throws. *)
Variable ObjectId_new : jsval -> option string.

Definition verifyToken (token : string) (e : env) : outcome jsval :=
  match jwt_verify token (JWT_SECRET e) (now e) with
  | Some decoded => Ok decoded
  | None => Throw (JwtError "JsonWebTokenError")
  end.

Definition generateToken (payload : jsval) (e : env) : outcome string :=
  match jwt_sign payload (JWT_SECRET e)
          (match JWT_EXPIRES_IN e with
           | Some x => if String.eqb x "" then "7d" else x
           | None => "7d"
           end) (now e) with
  | Some t => Ok t
  | None => Throw (JwtError "secretOrPrivateKey must have a value")
  end.

Definition hashPassword (password : string) (e : env) : string :=
  bcrypt_hash password (bcrypt_salt e).

(** ** lib/auth.middleware.ts *)

Definition handler : Type := Request -> env -> task Response.

(** A middleware answers, or calls [next()] with the request it may have
    extended. *)
Definition middleware : Type := Request -> env -> task (Response + Request).

Definition respond (r : Response) : task (Response + Request) := ret (inl r).
Definition next (req : Request) : task (Response + Request) := ret (inr req).

Fixpoint chain (mws : list middleware) (h : handler) (req : Request) (e : env)
  : task Response :=
  match mws with
  | [] => h req e
  | m :: rest =>
      x <- m req e ;;
      match x with
      | inl r => ret r
      | inr req' => chain rest h req' e
      end
  end.

(** [s.split(" ")]. *)
Fixpoint split_space (s : string) : list string :=
  match s with
  | EmptyString => [EmptyString]
  | String c r =>
      if Ascii.eqb c " " then EmptyString :: split_space r
      else match split_space r with
           | w :: ws => String c w :: ws
           | [] => [String c EmptyString]
           end
  end.

(** [authHeader?.split(" ")[1]]. *)
Definition bearer_token (authHeader : option string) : option string :=
  match authHeader with
  | Some h => nth_error (split_space h) 1
  | None => None
  end.

Definition set_user (req : Request) (u : jsval) : Request :=
  {| req_method := req_method req; req_originalUrl := req_originalUrl req;
     req_authorization := req_authorization req; req_params_id := req_params_id req;
     req_query := req_query req; req_body := req_body req; req_user := Some u |}.

Definition authenticateToken : middleware := fun req e =>
  try_catch
    (match bearer_token (req_authorization req) with
     | None => respond (error_json 401 "Access denied" "No token provided")
     | Some token =>
         if String.eqb token "" then
           respond (error_json 401 "Access denied" "No token provided")
         else
           decoded <- lift (verifyToken token e) ;;
           next (set_user req decoded)
     end)
    (fun error => respond (error_json 403 "Invalid token" "Token is not valid or has expired")).

(** [findUnique({ where: { id } })] on an [@id @db.ObjectId] column. *)
Definition unique_id (model : string) (v : jsval) : outcome string :=
  match v with
  | JStr s => id_filter model s
  | _ => Throw (PrismaValidationError model "id")
  end.

Definition prisma_admin_findUnique (v : jsval) : task (option Admin) :=
  i <- lift (unique_id "Admin" v) ;;
  read (fun d => find (fun a => String.eqb (admin_id a) i) (admins d)).

Definition prisma_resident_findUnique (v : jsval) : task (option Resident) :=
  i <- lift (unique_id "Resident" v) ;;
  read (fun d => find (fun r => String.eqb (res_id r) i) (residents d)).

Definition prisma_serviceProvider_findUnique (v : jsval) : task (option ServiceProvider) :=
  i <- lift (unique_id "ServiceProvider" v) ;;
  read (fun d => find (fun p => String.eqb (sp_id p) i) (serviceProviders d)).

Definition prisma_employee_findUnique (v : jsval) : task (option Employee) :=
  i <- lift (unique_id "Employee" v) ;;
  read (fun d => find (fun p => String.eqb (emp_id p) i) (employees d)).

Definition ApprovalStatus_eqb (a b : ApprovalStatus) : bool :=
  match a, b with
  | APPROVAL_PENDING, APPROVAL_PENDING | APPROVED, APPROVED | REJECTED, REJECTED => true
  | _, _ => false
  end.

Definition sp_is_active (p : ServiceProvider) : bool :=
  match sp_status p with SP_ACTIVE => true | _ => false end.

Definition emp_is_active (p : Employee) : bool :=
  match emp_status p with EMP_ACTIVE => true | _ => false end.

(** The end of [verifyUserExists]: [if (!user) 404; next()]. *)
Definition found_or_404 (found : bool) (req : Request) : task (Response + Request) :=
  if found then next req
  else respond (error_json 404 "User not found" "User account does not exist").

Definition is_some {A : Type} (o : option A) : bool :=
  match o with Some _ => true | None => false end.

Definition verifyUserExists : middleware := fun req e =>
  try_catch
    (match req_user req with
     | None => respond (error_json 401 "Unauthorized" "User not authenticated")
     | Some u =>
       if negb (truthy u) then
         respond (error_json 401 "Unauthorized" "User not authenticated")
       else
         let id := prop u "id" in
         let type := prop u "type" in
         if is_str type "admin" then
           oid <- lift (match ObjectId_new id with
                        | Some h => Ok h
                        | None => Throw BSONError
                        end) ;;
           user <- prisma_admin_findUnique (JStr oid) ;;
           found_or_404 (is_some user) req
         else if is_str type "resident" then
           user <- prisma_resident_findUnique id ;;
           match user with
           | Some x =>
               if negb (String.eqb (res_status x) "Active")
                  || negb (ApprovalStatus_eqb (res_approvalStatus x) APPROVED)
               then respond (error_json 403 "Account inactive"
                               "Your resident account is not active or approved")
               else found_or_404 true req
           | None => found_or_404 false req
           end
         else if is_str type "serviceProvider" then
           user <- prisma_serviceProvider_findUnique id ;;
           match user with
           | Some x =>
               if negb (sp_is_active x)
               then respond (error_json 403 "Account inactive"
                               "Your service provider account is not active")
               else found_or_404 true req
           | None => found_or_404 false req
           end
         else if is_str type "employee" then
           user <- prisma_employee_findUnique id ;;
           match user with
           | Some x =>
               if negb (emp_is_active x)
               then respond (error_json 403 "Account inactive"
                               "Your employee account is not active")
               else found_or_404 true req
           | None => found_or_404 false req
           end
         else
           respond (error_json 403 "Invalid user type" "Unrecognized user type")
     end)
    (fun error => respond (error_json 500 "Internal server error"
                             "Failed to verify user account")).

Definition authorizeRoles (allowedRoles : list string) : middleware := fun req e =>
  match req_user req with
  | None => respond (error_json 401 "Unauthorized" "User not authenticated")
  | Some u =>
      if negb (truthy u) then
        respond (error_json 401 "Unauthorized" "User not authenticated")
      else if negb (existsb (is_str (prop u "type")) allowedRoles) then
        respond (error_json 403 "Forbidden"
                   "You don't have permission to access this resource")
      else next req
  end.

Definition requireAdmin : middleware := authorizeRoles ["admin"].
Definition requireResident : middleware := authorizeRoles ["resident"].
Definition requireServiceProvider : middleware := authorizeRoles ["serviceProvider"].
Definition requireEmployee : middleware := authorizeRoles ["employee"].
Definition requireAdminOrResident : middleware := authorizeRoles ["admin"; "resident"].
Definition requireAdminOrServiceProvider : middleware :=
  authorizeRoles ["admin"; "serviceProvider"].
Definition requireAdminOrEmployee : middleware := authorizeRoles ["admin"; "employee"].

Definition authenticateAndVerify : list middleware := [authenticateToken; verifyUserExists].

Definition authWithRole (roles : list string) : list middleware :=
  authenticateAndVerify ++ [authorizeRoles roles].

(** ** routes/auth.ts *)

(** [findFirst({ where: { OR: [{ email }, { apartment }] } })]. *)
Definition prisma_resident_findFirst_or (email apartment : jsval) : task (option Resident) :=
  m <- lift (string_filter "Resident" "email" email) ;;
  a <- lift (string_filter "Resident" "apartment" apartment) ;;
  read (fun d => find (fun r => field_matches m (res_email r)
                                || field_matches a (res_apartment r)) (residents d)).

(** [{ ...base, k1: v1, ... }]: the later keys win. *)
Definition spread (base : jsval) (overrides : list (string * jsval)) : jsval :=
  match base with
  | JObj fields => JObj (overrides ++ fields)
  | _ => JObj overrides
  end.

Definition optional_string (model field : string) (v : jsval) : outcome (option string) :=
  match v with
  | JUndefined | JNull => Ok None
  | JStr s => Ok (Some s)
  | _ => Throw (PrismaValidationError model field)
  end.

Definition default_int (model field : string) (dflt : Z) (v : jsval) : outcome Z :=
  match v with
  | JUndefined => Ok dflt
  | JNum n => Ok n
  | _ => Throw (PrismaValidationError model field)
  end.

Definition approval_value (v : jsval) : outcome ApprovalStatus :=
  match v with
  | JUndefined => Ok APPROVAL_PENDING
  | JStr s => if String.eqb s "PENDING" then Ok APPROVAL_PENDING
              else if String.eqb s "APPROVED" then Ok APPROVED
              else if String.eqb s "REJECTED" then Ok REJECTED
              else Throw (PrismaValidationError "Resident" "approvalStatus")
  | _ => Throw (PrismaValidationError "Resident" "approvalStatus")
  end.

Definition resident_columns : list string :=
  ["name"; "apartment"; "phone"; "email"; "status"; "familyMembers"; "username";
   "password"; "approvalStatus"].

Definition other_columns (data : jsval) : list (string * jsval) :=
  match data with
  | JObj fields =>
      filter (fun kv => negb (existsb (String.eqb (fst kv)) resident_columns)) fields
  | _ => []
  end.

(** The typed columns are checked here; the remaining (KYC) columns are
    stored as the request schema let them through. *)
Definition validate_resident (e : env) (data : jsval) : outcome Resident :=
  obind (required_string "Resident" "name" (prop data "name")) (fun n =>
  obind (required_string "Resident" "apartment" (prop data "apartment")) (fun a =>
  obind (required_string "Resident" "phone" (prop data "phone")) (fun ph =>
  obind (required_string "Resident" "email" (prop data "email")) (fun m =>
  obind (default_string "Resident" "status" "Active" (prop data "status")) (fun st =>
  obind (default_int "Resident" "familyMembers" 1 (prop data "familyMembers")) (fun fm =>
  obind (optional_string "Resident" "username" (prop data "username")) (fun un =>
  obind (optional_string "Resident" "password" (prop data "password")) (fun pw =>
  obind (approval_value (prop data "approvalStatus")) (fun ap =>
  Ok {| res_id := fresh_id e; res_name := n; res_apartment := a; res_phone := ph;
        res_email := m; res_status := st; res_familyMembers := fm;
        res_username := un; res_password := pw; res_approvalStatus := ap;
        res_kyc := other_columns data; res_createdAt := db_now e |}))))))))).

(** The [@unique] columns of Resident: apartment, email and username (a
    username that is given). *)
Definition unique_violation (rows : list Resident) (x : Resident) : option string :=
  if existsb (fun r => String.eqb (res_apartment r) (res_apartment x)) rows
  then Some "apartment"
  else if existsb (fun r => String.eqb (res_email r) (res_email x)) rows
  then Some "email"
  else match res_username x with
       | Some u =>
           if existsb (fun r => match res_username r with
                                | Some u' => String.eqb u' u
                                | None => false
                                end) rows
           then Some "username" else None
       | None => None
       end.

Definition prisma_resident_create (e : env) (data : jsval) : task Resident :=
  row <- lift (validate_resident e data) ;;
  fun d => match unique_violation (residents d) row with
           | Some target => (Throw (PrismaKnownError "P2002" target), d)
           | None => (Ok row, set_residents (residents d ++ [row]) d)
           end.

Definition ApprovalStatus_string (a : ApprovalStatus) : string :=
  match a with
  | APPROVAL_PENDING => "PENDING"
  | APPROVED => "APPROVED"
  | REJECTED => "REJECTED"
  end.

(** POST /resident/register. *)
Definition register_resident : handler := fun req e =>
  try_catch
    (validatedData <- lift (z_object ResidentRegistrationSchema (req_body req)) ;;
     existingResident <- prisma_resident_findFirst_or
       (prop validatedData "email") (prop validatedData "apartment") ;;
     match existingResident with
     | Some x =>
         ret (error_json 400 "Resident already exists"
                (if is_str (prop validatedData "email") (res_email x)
                 then "Email is already registered"
                 else "Apartment is already registered"))
     | None =>
         let hashedPassword :=
           if truthy (prop validatedData "password")
           then JStr (hashPassword (js_string (prop validatedData "password")) e)
           else JNull in
         resident <- prisma_resident_create e
           (spread validatedData
              [("password", hashedPassword);
               ("approvalStatus", JStr "PENDING");
               ("status", JStr "Pending")]) ;;
         ret {| status := 201;
                body := [("message", JStr "Registration successful");
                         ("resident",
                          JObj [("id", JStr (res_id resident));
                                ("name", JStr (res_name resident));
                                ("email", JStr (res_email resident));
                                ("apartment", JStr (res_apartment resident));
                                ("status", JStr (res_status resident));
                                ("approvalStatus",
                                 JStr (ApprovalStatus_string (res_approvalStatus resident)))])] |}
     end)
    (fun error => ret (error_json 400 "Registration failed" (error_message error))).

(** POST /refresh, behind [authenticateToken]. *)
Definition refresh_token : handler := fun req e =>
  try_catch
    (match req_user req with
     | None => throw (TypeError "req.user")
     | Some u =>
         user <- not_null "req.user" u ;;
         newToken <- lift (generateToken
                             (JObj [("id", prop user "id"); ("type", prop user "type");
                                    ("email", prop user "email")]) e) ;;
         ret {| status := 200;
                body := [("message", JStr "Token refreshed successfully");
                         ("token", JStr newToken)] |}
     end)
    (fun error => ret (error_json 500 "Failed to refresh token" "Internal server error")).

(** POST /logout, behind [authenticateToken]. *)
Definition logout : handler := fun req e =>
  ret {| status := 200; body := [("message", JStr "Logout successful")] |}.

(** ** routes/dashboard.ts *)

Definition count {A : Type} (p : A -> bool) (l : list A) : Z :=
  Z.of_nat (List.length (filter p l)).

Definition bill_has (s : BillStatus) (b : MaintenanceBill) : bool :=
  BillStatus_eqb (bill_status b) s.

(** GET /admin/stats: the statistics over the collections of this model
    (complaints, vehicles, bookings and the recent activity lists are
    further read-only queries of the same handler). *)
Definition admin_stats : handler := fun req e =>
  try_catch
    (let today := startOfDay (now e) in
     let tomorrow := nextDay today in
     totalResidents <- read (fun d => count (fun _ => true) (residents d)) ;;
     activeResidents <- read (fun d =>
       count (fun r => String.eqb (res_status r) "Active"
                       && ApprovalStatus_eqb (res_approvalStatus r) APPROVED) (residents d)) ;;
     pendingApprovals <- read (fun d =>
       count (fun r => ApprovalStatus_eqb (res_approvalStatus r) APPROVAL_PENDING)
             (residents d)) ;;
     totalServiceProviders <- read (fun d => count (fun _ => true) (serviceProviders d)) ;;
     activeServiceProviders <- read (fun d => count sp_is_active (serviceProviders d)) ;;
     pendingProviders <- read (fun d =>
       count (fun p => match sp_status p with SP_PENDING => true | _ => false end)
             (serviceProviders d)) ;;
     totalEmployees <- read (fun d => count (fun _ => true) (employees d)) ;;
     activeEmployees <- read (fun d => count emp_is_active (employees d)) ;;
     todayGateEntries <- prisma_gateEntry_count (in_range today tomorrow) ;;
     totalMaintenanceBills <- read (fun d => count (fun _ => true) (maintenanceBills d)) ;;
     pendingBills <- read (fun d => count (bill_has PENDING) (maintenanceBills d)) ;;
     paidBills <- read (fun d => count (bill_has PAID) (maintenanceBills d)) ;;
     overdueBills <- read (fun d =>
       count (fun b => bill_has PENDING b && (bill_dueDate b <? now e))
             (maintenanceBills d)) ;;
     ret {| status := 200;
            body := [("statistics",
                      JObj [("residents",
                             JObj [("total", JNum totalResidents);
                                   ("active", JNum activeResidents);
                                   ("pendingApprovals", JNum pendingApprovals)]);
                            ("serviceProviders",
                             JObj [("total", JNum totalServiceProviders);
                                   ("active", JNum activeServiceProviders);
                                   ("pending", JNum pendingProviders)]);
                            ("employees",
                             JObj [("total", JNum totalEmployees);
                                   ("active", JNum activeEmployees)]);
                            ("gateEntries", JObj [("today", JNum todayGateEntries)]);
                            ("maintenanceBills",
                             JObj [("total", JNum totalMaintenanceBills);
                                   ("pending", JNum pendingBills);
                                   ("paid", JNum paidBills);
                                   ("overdue", JNum overdueBills)])])] |})
    (fun error => ret (error_json 500 "Failed to fetch dashboard statistics"
                         "Internal server error")).

(** ** routes/maintenanceBills.ts *)

Definition BillStatus_string (s : BillStatus) : string :=
  match s with PENDING => "PENDING" | PAID => "PAID" | OVERDUE => "OVERDUE" end.

Definition bill_status_value (v : jsval) : outcome (option BillStatus) :=
  match v with
  | JUndefined => Ok None
  | JStr s => if String.eqb s "PENDING" then Ok (Some PENDING)
              else if String.eqb s "PAID" then Ok (Some PAID)
              else if String.eqb s "OVERDUE" then Ok (Some OVERDUE)
              else Throw (PrismaValidationError "MaintenanceBill" "status")
  | _ => Throw (PrismaValidationError "MaintenanceBill" "status")
  end.

Definition prisma_maintenanceBill_findUnique (billId : string) : task (option MaintenanceBill) :=
  i <- lift (id_filter "MaintenanceBill" billId) ;;
  read (fun d => find (fun b => String.eqb (bill_id b) i) (maintenanceBills d)).

Definition apply_update (st : option BillStatus) (paid : option Z) (b : MaintenanceBill)
  : MaintenanceBill :=
  {| bill_id := bill_id b; bill_residentId := bill_residentId b;
     bill_month := bill_month b; bill_year := bill_year b;
     bill_dueDate := bill_dueDate b;
     bill_status := match st with Some s => s | None => bill_status b end;
     bill_paidDate := match paid with Some t => Some t | None => bill_paidDate b end |}.

Fixpoint update_first (i : string) (f : MaintenanceBill -> MaintenanceBill)
  (l : list MaintenanceBill) : list MaintenanceBill :=
  match l with
  | [] => []
  | b :: r => if String.eqb (bill_id b) i then f b :: r else b :: update_first i f r
  end.

(** [update({ where: { id }, data: { status, paidDate } })]; [paidDate] is
    [inl tt] when absent and [inr None] for an Invalid Date. *)
Definition prisma_maintenanceBill_update (billId : string) (st : jsval)
  (paid : unit + option Z) : task MaintenanceBill :=
  i <- lift (id_filter "MaintenanceBill" billId) ;;
  s <- lift (bill_status_value st) ;;
  p <- lift (match paid with
             | inl _ => Ok None
             | inr (Some t) => Ok (Some t)
             | inr None => Throw (PrismaValidationError "MaintenanceBill" "paidDate")
             end) ;;
  fun d => match find (fun b => String.eqb (bill_id b) i) (maintenanceBills d) with
           | None => (Throw (PrismaKnownError "P2025" "MaintenanceBill"), d)
           | Some b =>
               (Ok (apply_update s p b),
                set_maintenanceBills (update_first i (apply_update s p) (maintenanceBills d)) d)
           end.

Definition bill_json (b : MaintenanceBill) : jsval :=
  JObj [("id", JStr (bill_id b)); ("residentId", JStr (bill_residentId b));
        ("month", JStr (bill_month b)); ("year", JNum (bill_year b));
        ("dueDate", JNum (bill_dueDate b));
        ("status", JStr (BillStatus_string (bill_status b)));
        ("paidDate", match bill_paidDate b with Some t => JNum t | None => JNull end)].

(** PATCH /:id/status. *)
Definition update_bill_status : handler := fun req e =>
  try_catch
    (let billId := req_params_id req in
     validatedData <- lift (z_object BillUpdateSchema (req_body req)) ;;
     bill <- prisma_maintenanceBill_findUnique billId ;;
     match bill with
     | None => ret (error_json 404 "Bill not found" "Maintenance bill does not exist")
     | Some _ =>
         let status := prop validatedData "status" in
         let paid1 : unit + option Z :=
           if truthy status && is_str status "PAID" then inr (Some (now e)) else inl tt in
         let paid2 : unit + option Z :=
           if truthy (prop validatedData "paidDate")
           then inr (Date_of (prop validatedData "paidDate")) else paid1 in
         updatedBill <- prisma_maintenanceBill_update billId
           (if truthy status then status else JUndefined) paid2 ;;
         ret {| status := 200;
                body := [("message", JStr "Bill status updated successfully");
                         ("bill", bill_json updatedBill)] |}
     end)
    (fun error => ret (error_json 400 "Failed to update bill status" (error_message error))).

(** ** server.ts *)

(** The 404 handler. *)
Definition not_found : handler := fun req e =>
  ret (error_json 404 "Route not found"
         ("Cannot " +++ req_method req +++ " " +++ req_originalUrl req)).

(** An error object as it reaches the global error handler. *)
Record JsError := {
  err_code : option string;
  err_name : option string;
  err_statusCode : option Z;
  err_status : option Z;
  err_message : option string;
  err_stack : option string;
  err_errors : jsval
}.

Definition name_is (err : JsError) (n : string) : bool :=
  match err_name err with Some x => String.eqb x n | None => false end.

Definition code_is (err : JsError) (c : string) : bool :=
  match err_code err with Some x => String.eqb x c | None => false end.

(** [a || b || 500] on status codes: 0 is falsy. *)
Definition status_or (a b : option Z) (dflt : Z) : Z :=
  match a with
  | Some x => if x =? 0 then
                match b with Some y => if y =? 0 then dflt else y | None => dflt end
              else x
  | None => match b with Some y => if y =? 0 then dflt else y | None => dflt end
  end.

Definition string_or (a : option string) (dflt : string) : string :=
  match a with
  | Some x => if String.eqb x "" then dflt else x
  | None => dflt
  end.

Definition env_is (e : env) (v : string) : bool :=
  match NODE_ENV e with Some x => String.eqb x v | None => false end.

(** The global error handler. *)
Definition error_handler (err : JsError) (e : env) : Response :=
  if code_is err "P2002" then
    error_json 400 "Duplicate entry" "A record with this data already exists."
  else if code_is err "P2025" then
    error_json 404 "Record not found" "The requested record does not exist."
  else if name_is err "ZodError" then
    {| status := 400;
       body := [("error", JStr "Validation error"); ("message", JStr "Invalid input data");
                ("details", err_errors err)] |}
  else if name_is err "JsonWebTokenError" then
    error_json 401 "Invalid token" "Authentication token is invalid."
  else if name_is err "TokenExpiredError" then
    error_json 401 "Token expired" "Authentication token has expired."
  else
    let statusCode := status_or (err_statusCode err) (err_status err) 500 in
    let message := string_or (err_message err) "Internal server error" in
    {| status := statusCode;
       body := [("error", JStr (if env_is e "production" then "Internal server error"
                                else string_or (err_name err) "Error"));
                ("message", JStr (if env_is e "production" then "Something went wrong"
                                  else message))]
               ++ (if env_is e "development"
                   then match err_stack err with
                        | Some st => [("stack", JStr st)]
                        | None => []
                        end
                   else []) |}.

(** ** The routes as the routers register them

    Each is a chain of the router's middlewares and the handler.  What
    [server.ts] puts ahead of every router is [app] below. *)

Definition route_list_gate_entries : handler :=
  chain (authenticateAndVerify ++ [requireAdmin]) list_gate_entries.
Definition route_qr_scan : handler :=
  chain (authenticateAndVerify ++ [requireAdmin]) qr_scan.
Definition route_create_gate_entry : handler :=
  chain (authenticateAndVerify ++ [requireAdmin]) create_gate_entry.
Definition route_stats_today : handler :=
  chain (authenticateAndVerify ++ [requireAdmin]) stats_today.
Definition route_delete_gate_entry : handler :=
  chain (authenticateAndVerify ++ [requireAdmin]) delete_gate_entry.
Definition route_admin_stats : handler :=
  chain (authenticateAndVerify ++ [requireAdmin]) admin_stats.
Definition route_update_bill_status : handler :=
  chain (authenticateAndVerify ++ [requireAdmin]) update_bill_status.
Definition route_register_resident : handler := chain [] register_resident.
Definition route_refresh : handler := chain [authenticateToken] refresh_token.
Definition route_logout : handler := chain [authenticateToken] logout.

(** The routes that create no row, and those that do. *)
Definition reading_routes : list handler :=
  [route_list_gate_entries; route_stats_today; route_delete_gate_entry;
   route_admin_stats; route_update_bill_status; route_refresh; route_logout;
   not_found].

Definition creating_routes : list handler :=
  [route_qr_scan; route_create_gate_entry; route_register_resident].

(** ** server.ts: the rate limiter ahead of the routers

    [app.use(limiter)] comes before the body parsers and every router.
    The limiter is built once, at start-up, from the window and the maximum
    read from the process environment, and keeps its counters in the memory
    of the process.  [limiter] stands for it: for the counters, the client
    ([req.ip]) and the time of a request, whether the client is over the
    limit, and the counters after the request is counted. *)
Variable limiter_store : Type.
Variable limiter : limiter_store -> string -> Z -> bool * limiter_store.

(** The answer of the limiter: status 429 and its [message] option as the
    body. *)
Definition too_many_requests : Response :=
  {| status := 429;
     body := [("error", JStr "Too many requests from this IP, please try again later.")] |}.

(** What the process holds between two requests: the limiter's counters
    and the connection to the document store. *)
Definition process : Type := (limiter_store * database)%type.

(** One request of the client [ip] to a route of the application: the
    limiter counts it, and answers 429 itself when the client is over the
    limit; otherwise the route runs. *)
Definition app (route : handler) (ip : string) (req : Request) (e : env)
  : process -> outcome Response * process :=
  fun s =>
    let (over, counters) := limiter (fst s) ip (now e) in
    if over then (Ok too_many_requests, (counters, snd s))
    else let (out, d) := route req e (snd s) in (out, (counters, d)).

(** The requests the server handles one after the other: each arrives for
    a route, from a client, at a time.  [serve] is the application on them;
    [serve_routes] the routers alone on the database; [count_arrivals] the
    limiter alone on its counters. *)
Record arrival := {
  to_route : handler;
  from_ip : string;
  with_request : Request;
  at_env : env
}.

Fixpoint serve (arrivals : list arrival) (s : process)
  : list (outcome Response) * process :=
  match arrivals with
  | [] => ([], s)
  | a :: rest =>
      let (out, s1) := app (to_route a) (from_ip a) (with_request a) (at_env a) s in
      let (outs, s2) := serve rest s1 in
      (out :: outs, s2)
  end.

Fixpoint serve_routes (arrivals : list arrival) (d : database)
  : list (outcome Response) * database :=
  match arrivals with
  | [] => ([], d)
  | a :: rest =>
      let (out, d1) := to_route a (with_request a) (at_env a) d in
      let (outs, d2) := serve_routes rest d1 in
      (out :: outs, d2)
  end.

Fixpoint count_arrivals (arrivals : list arrival) (counters : limiter_store)
  : list bool * limiter_store :=
  match arrivals with
  | [] => ([], counters)
  | a :: rest =>
      let (over, counters1) := limiter counters (from_ip a) (now (at_env a)) in
      let (overs, counters2) := count_arrivals rest counters1 in
      (over :: overs, counters2)
  end.

(** ** Notions used in the statements *)

(** The middlewares alone: the request as the handler would receive it, or
    the response that ends the chain. *)
Fixpoint through (mws : list middleware) (req : Request) (e : env)
  : task (Response + Request) :=
  match mws with
  | [] => next req
  | m :: rest =>
      x <- m req e ;;
      match x with
      | inl r => respond r
      | inr req' => through rest req' e
      end
  end.

(** The lookup key under which a gate entry is scanned: the person and the
    entry type, the apartment except for service providers and employees,
    and the vehicle description for resident vehicles. *)
Definition key_of_entry (x : GateEntry) : GateEntryWhere :=
  {| on_person := Some (person x);
     on_apartment :=
       if String.eqb (entryType x) "Service Provider" || String.eqb (entryType x) "Employee"
       then None else Some (apartment x);
     on_vehicle :=
       if String.eqb (entryType x) "Resident Vehicle" then Some (vehicle x) else None;
     on_entryType := Some (entryType x) |}.

(** The six filters of the QR-scan handler. *)
Inductive qr_key : GateEntryWhere -> Prop :=
| key_guest p a :
    qr_key {| on_person := Some p; on_apartment := Some a; on_vehicle := None;
              on_entryType := Some "Guest" |}
| key_resident p a :
    qr_key {| on_person := Some p; on_apartment := Some a; on_vehicle := None;
              on_entryType := Some "Resident" |}
| key_vehicle p a v :
    qr_key {| on_person := Some p; on_apartment := Some a; on_vehicle := Some v;
              on_entryType := Some "Resident Vehicle" |}
| key_delivery p a :
    qr_key {| on_person := Some p; on_apartment := Some a; on_vehicle := None;
              on_entryType := Some "Delivery" |}
| key_provider p :
    qr_key {| on_person := Some p; on_apartment := None; on_vehicle := None;
              on_entryType := Some "Service Provider" |}
| key_employee p :
    qr_key {| on_person := Some p; on_apartment := None; on_vehicle := None;
              on_entryType := Some "Employee" |}.

(** A most recent row of a list. *)
Definition most_recent (rows : list GateEntry) (l : GateEntry) : Prop :=
  In l rows /\ forall x, In x rows -> createdAt x <= createdAt l.

Fixpoint no_equal_neighbours (l : list GateEntry) : Prop :=
  match l with
  | x :: (y :: _) as r => type x <> type y /\ no_equal_neighbours r
  | _ => True
  end.

(** The first record is an ENTRY and no two consecutive records have the
    same type. *)
Definition strictly_alternates (l : list GateEntry) : Prop :=
  match l with [] => True | x :: _ => type x = ENTRY end /\ no_equal_neighbours l.

Definition alternation (log : list GateEntry) : Prop :=
  forall k, qr_key k -> strictly_alternates (filter (entry_matches k) log).

(** The rows of a store carry ObjectIds. *)
Definition resident_ids_ok (d : database) : Prop :=
  forall r, In r (residents d) -> isObjectId (res_id r) = true.

(** Two environments with the same clock and the same process
    configuration; the identifier and the salt drawn may differ. *)
Definition same_clock_and_config (e1 e2 : env) : Prop :=
  now e1 = now e2 /\ db_now e1 = db_now e2 /\ NODE_ENV e1 = NODE_ENV e2 /\
  JWT_SECRET e1 = JWT_SECRET e2 /\ JWT_EXPIRES_IN e1 = JWT_EXPIRES_IN e2.

Definition has_error_and_message (r : Response) : Prop :=
  exists err msg, assoc "error" (body r) = Some (JStr err) /\
                  assoc "message" (body r) = Some (JStr msg).

(** The status by kind of error, for an error reaching the global
    handler. *)
Definition table_status (err : JsError) : Z :=
  if code_is err "P2002" then 400
  else if code_is err "P2025" then 404
  else if name_is err "ZodError" then 400
  else if name_is err "JsonWebTokenError" || name_is err "TokenExpiredError" then 401
  else status_or (err_statusCode err) (err_status err) 500.

(** The type the handler gives to the row it creates under a filter. *)
Definition toggled (w : GateEntryWhere) (log : list GateEntry) : EntryType :=
  if is_entry (latest (filter (entry_matches w) log)) then ENTRY else EXIT.

(** The outcomes of a scan: an answer that leaves the store alone, or 201
    with one row appended. *)
Definition scanned (e : env) (d : database) (r : Response) (d' : database) : Prop :=
  (status r <> 201 /\ d' = d) \/
  (status r = 201 /\
   exists x, d' = set_gateEntries (gateEntries d ++ [x]) d /\
             qr_key (key_of_entry x) /\
             type x = toggled (key_of_entry x) (gateEntries d) /\
             createdAt x = db_now e /\ id x = fresh_id e).

(** Rows in strictly increasing order of [createdAt]. *)
Fixpoint increasing (l : list GateEntry) : Prop :=
  match l with
  | [] => True
  | x :: r => (forall y, In y r -> createdAt x < createdAt y) /\ increasing r
  end.

(** ** POST /qr-scan between its awaits

    The handler awaits the lookup of the last row, and later the create,
    with no transaction around the two: the requests the server handles
    meanwhile run in between.  [scan_lookup] is the handler up to the end
    of the switch, [scan_create] the rest; each has the handler's catch. *)
Definition scan_lookup (req : Request) (e : env) : task (Response + GateEntryCreateInput) :=
  try_catch (qr_scan_entryData req e)
    (fun error =>
       ret (inl (error_json 500 "Failed to process QR code" "Internal server error"))).

Definition scan_create (e : env) (entryData : GateEntryCreateInput) : task Response :=
  try_catch (record_entry e entryData)
    (fun error => ret (error_json 500 "Failed to process QR code" "Internal server error")).

(** The same behind the middlewares of the route. *)
Definition route_scan_lookup (req : Request) (e : env)
  : task (Response + GateEntryCreateInput) :=
  x <- through (authenticateAndVerify ++ [requireAdmin]) req e ;;
  match x with
  | inl r => ret (inl r)
  | inr req' => scan_lookup req' e
  end.

(** A scan that has looked its last row up and has not created its row
    yet. *)
Record in_flight := {
  scan_env : env;
  scan_entryData : GateEntryCreateInput
}.

Definition started (e : env) (out : outcome (Response + GateEntryCreateInput))
  : list in_flight :=
  match out with
  | Ok (inr entryData) => [{| scan_env := e; scan_entryData := entryData |}]
  | _ => []
  end.

(** The stores, and the scans in flight, that requests to POST /qr-scan
    reach from an empty log.  A request starts when [may_start] allows it,
    given the scans in flight; a scan in flight creates its row when
    [stamp_ok] accepts the time at which the store stamps it. *)
Inductive qr_reachable (may_start : list in_flight -> Prop)
  (stamp_ok : env -> database -> Prop) : list in_flight -> database -> Prop :=
| reach_empty d : gateEntries d = [] -> qr_reachable may_start stamp_ok [] d
| reach_lookup waiting d req e out d' :
    qr_reachable may_start stamp_ok waiting d ->
    may_start waiting ->
    route_scan_lookup req e d = (out, d') ->
    qr_reachable may_start stamp_ok (waiting ++ started e out) d'
| reach_create before scan after d out d' :
    qr_reachable may_start stamp_ok (before ++ scan :: after) d ->
    stamp_ok (scan_env scan) d ->
    scan_create (scan_env scan) (scan_entryData scan) d = (out, d') ->
    qr_reachable may_start stamp_ok (before ++ after) d'.

(** Scans handled one at a time: a request starts only when no scan is in
    flight.  Overlapping scans: a request starts at any time. *)
Definition one_at_a_time (waiting : list in_flight) : Prop := waiting = [].
Definition overlapping (waiting : list in_flight) : Prop := True.

(** A row stamped strictly later than the rows already in the log; a row
    stamped at any time. *)
Definition stamped_later (e : env) (d : database) : Prop :=
  forall x, In x (gateEntries d) -> createdAt x < db_now e.
Definition stamped_any (e : env) (d : database) : Prop := True.

(** The row a scan in flight is about to create has one of the six keys,
    and the type the rows of [d] under that key decide. *)
Definition planned (e : env) (entryData : GateEntryCreateInput) (d : database) : Prop :=
  forall x, validate_create e entryData = Ok x ->
            qr_key (key_of_entry x) /\
            type x = toggled (key_of_entry x) (gateEntries d).

(** What the switch leaves behind: the store as it was, an early answer
    that is not a 201, or an entryData planned on the rows of the store. *)
Definition switch_result (e : env) (d : database)
  (out : outcome (Response + GateEntryCreateInput)) (d' : database) : Prop :=
  d' = d /\
  match out with
  | Ok (inl r) => status r <> 201
  | Ok (inr entryData) => planned e entryData d
  | Throw _ => True
  end.

(** A scan whose QR text parses to a payload of type guest_entry. *)
Definition guest_scan (req : Request) (parsed : jsval) : Prop :=
  truthy (prop (req_body req) "qrData") = true /\
  conversion_throws (prop (req_body req) "qrData") = false /\
  JSON_parse (js_string (prop (req_body req) "qrData")) = Some parsed /\
  is_str (prop parsed "type") "guest_entry" = true.

(** Both ends of the window convert to a primitive, so that [new Date]
    gives a date (which may be invalid). *)
Definition dates_convert (parsed : jsval) : Prop :=
  conversion_throws (prop parsed "validFrom") = false /\
  conversion_throws (prop parsed "validUntil") = false.

(** The current time is strictly before validFrom, strictly after
    validUntil. *)
Definition before_window (e : env) (parsed : jsval) : Prop :=
  exists t, Date_of (prop parsed "validFrom") = Some t /\ now e < t.

Definition after_window (e : env) (parsed : jsval) : Prop :=
  exists t, Date_of (prop parsed "validUntil") = Some t /\ t < now e.

(** The vehicle fields of a guest payload give a string: with a licence
    plate, the plate and the vehicle type convert to strings; without one,
    the vehicle type is a string or falsy. *)
Definition guest_vehicle_ok (parsed : jsval) : Prop :=
  (truthy (prop parsed "licensePlate") = true ->
   conversion_throws (prop parsed "vehicleType") = false /\
   conversion_throws (prop parsed "licensePlate") = false) /\
  (truthy (prop parsed "licensePlate") = false ->
   truthy (prop parsed "vehicleType") = false \/
   exists s, prop parsed "vehicleType" = JStr s).

(** What [verifyUserExists] asks of the account a token names: for an
    admin that it exists; for the other types that it exists and is active
    (and, for a resident, approved). *)
Definition account_accepted (user : jsval) (d : database) : Prop :=
  (is_str (prop user "type") "admin" = true /\
   exists oid a, ObjectId_new (prop user "id") = Some oid /\
                 find (fun x => String.eqb (admin_id x) oid) (admins d) = Some a) \/
  (is_str (prop user "type") "resident" = true /\
   exists i x, prop user "id" = JStr i /\
               find (fun r => String.eqb (res_id r) i) (residents d) = Some x /\
               res_status x = "Active" /\ res_approvalStatus x = APPROVED) \/
  (is_str (prop user "type") "serviceProvider" = true /\
   exists i x, prop user "id" = JStr i /\
               find (fun p => String.eqb (sp_id p) i) (serviceProviders d) = Some x /\
               sp_status x = SP_ACTIVE) \/
  (is_str (prop user "type") "employee" = true /\
   exists i x, prop user "id" = JStr i /\
               find (fun p => String.eqb (emp_id p) i) (employees d) = Some x /\
               emp_status x = EMP_ACTIVE).

(** The value a schema leaves under a key of a parsed object. *)
Definition parsed_field (shape : list (string * zod)) (input : jsval) (k : string) : jsval :=
  match assoc k shape with
  | Some z => match z_parse z (prop input k) with inr x => x | inl _ => JUndefined end
  | None => JUndefined
  end.

(** An answer that, when it is an error (status 400 or more), carries the
    error and message fields. *)
Definition well_formed_answer (r : Response) : Prop :=
  400 <= status r -> has_error_and_message r.

(** A handler that answers every request and never lets an exception
    escape. *)
Definition answers (h : handler) : Prop :=
  forall req e d, exists r d', h req e d = (Ok r, d') /\ well_formed_answer r.

Definition sum_ok (x : Response + Request) : Prop :=
  match x with inl r => well_formed_answer r | inr _ => True end.

(** The early answers of the switch of POST /qr-scan are well formed. *)
Definition early_answer_ok (step : Response + GateEntryCreateInput) : Prop :=
  match step with inl r => well_formed_answer r | inr _ => True end.

Definition passes_or_answers (m : middleware) : Prop :=
  forall req e d, exists x d', m req e d = (Ok x, d') /\ sum_ok x.

(** A computation that leaves the store as it found it, and whose value,
    when it returns one, satisfies [Q]. *)
Definition reads {A : Type} (m : task A) (Q : A -> Prop) : Prop :=
  forall d o d', m d = (o, d') ->
                 d' = d /\ match o with Ok a => Q a | Throw _ => True end.

(** A middleware's verdict that is not a 201. *)
Definition refusal (x : Response + Request) : Prop :=
  match x with inl r => status r <> 201 | inr _ => True end.

(** Every value a computation returns satisfies [Q]. *)
Definition post {A : Type} (m : task A) (Q : A -> Prop) : Prop :=
  forall d a d', m d = (Ok a, d') -> Q a.

(** ** Concrete requests and stores for the examples *)

Definition example_env_later : env :=
  {| now := 1600; db_now := 1601; fresh_id := "dddddddddddddddddddddddd";
     bcrypt_salt := "salt"; NODE_ENV := None; JWT_SECRET := Some "k";
     JWT_EXPIRES_IN := None |}.

(** The clock and the configuration of [example_env], another identifier
    and another salt. *)
Definition example_env_other_draw : env :=
  {| now := 1500; db_now := 1501; fresh_id := "eeeeeeeeeeeeeeeeeeeeeeee";
     bcrypt_salt := "pepper"; NODE_ENV := None; JWT_SECRET := Some "k";
     JWT_EXPIRES_IN := None |}.

(** As [example_env], with another salt only. *)
Definition example_env_other_salt : env :=
  {| now := 1500; db_now := 1501; fresh_id := "cccccccccccccccccccccccc";
     bcrypt_salt := "pepper"; NODE_ENV := None; JWT_SECRET := Some "k";
     JWT_EXPIRES_IN := None |}.

Definition example_admin (active : bool) : Admin :=
  {| admin_id := example_admin_id; admin_username := "admin";
     admin_email := "admin@example.com"; admin_status := active |}.

Definition example_database (admin_active : bool) : database :=
  {| admins := [example_admin admin_active]; residents := []; serviceProviders := [];
     employees := []; gateEntries := []; maintenanceBills := [] |}.

Definition as_admin (body : jsval) : Request :=
  example_request (Some "Bearer admin-token") body.

Definition example_manual_exit : jsval :=
  JObj [("type", JStr "EXIT"); ("person", JStr "Bob"); ("apartment", JStr "A-101");
        ("entryType", JStr "Guest")].

Definition example_registration (name : string) : jsval :=
  JObj [("name", JStr name); ("apartment", JStr "C-3"); ("phone", JStr "0300123456");
        ("email", JStr "carol@example.com"); ("familyMembers", JNum 2);
        ("password", JStr "secret1"); ("idDocumentType", JStr "CNIC");
        ("ownershipType", JStr "OWNER")].

(** The error body-parser raises for a body over the size limit. *)
Definition example_payload_too_large : JsError :=
  {| err_code := None; err_name := Some "PayloadTooLargeError";
     err_statusCode := Some 413; err_status := Some 413;
     err_message := Some "request entity too large"; err_stack := None;
     err_errors := JUndefined |}.

Definition example_page_zero : Request :=
  {| req_method := "GET"; req_originalUrl := "/api/gate-entries?page=0";
     req_authorization := Some "Bearer admin-token"; req_params_id := "";
     req_query := JObj [("page", JStr "0")]; req_body := JObj []; req_user := None |}.

Definition example_entry (i : string) (t : EntryType) (at_time : Z) : GateEntry :=
  {| id := i; type := t; person := "Bob"; apartment := "A-101"; entryType := "Guest";
     vehicle := "None"; gate := "Main Gate"; method := "QR Code"; residentId := None;
     createdAt := at_time |}.

Definition example_bill (i : string) (due : Z) (s : BillStatus) : MaintenanceBill :=
  {| bill_id := i; bill_residentId := example_resident_id; bill_month := "January";
     bill_year := 2025; bill_dueDate := due; bill_status := s; bill_paidDate := None |}.

(** One entry and two exits on the day of [example_env]; three bills due in
    the past, one PENDING, one OVERDUE, one PAID, and a PENDING one due
    later. *)
Definition example_busy_database : database :=
  {| admins := [example_admin true]; residents := []; serviceProviders := [];
     employees := [];
     gateEntries := [example_entry "1" ENTRY 100; example_entry "2" EXIT 200;
                     example_entry "3" EXIT 300];
     maintenanceBills := [example_bill "111111111111111111111111" 1000 PENDING;
                          example_bill "222222222222222222222222" 1000 OVERDUE;
                          example_bill "333333333333333333333333" 1000 PAID;
                          example_bill "444444444444444444444444" 9000 PENDING] |}.

(** The entryData with which the guest case breaks for Bob's payload. *)
Definition example_guest_entryData (t : string) : GateEntryCreateInput :=
  {| data_type := JStr t; data_person := JStr "Bob"; data_apartment := JStr "A-101";
     data_entryType := JStr "Guest"; data_vehicle := JStr "None";
     data_gate := JStr "Main Gate"; data_method := JStr "QR Code";
     data_residentId := JUndefined |}.

(** A request handled after [example_env] whose row the store stamps
    earlier: the clock of the store was set back in between. *)
Definition example_env_clock_back : env :=
  {| now := 1550; db_now := 1400; fresh_id := "ffffffffffffffffffffffff";
     bcrypt_salt := "salt"; NODE_ENV := None; JWT_SECRET := Some "k";
     JWT_EXPIRES_IN := None |}.

(** A request handled after the window of Bob's guest code has closed. *)
Definition example_env_after_window : env :=
  {| now := 2500; db_now := 2501; fresh_id := "abababababababababababab";
     bcrypt_salt := "salt"; NODE_ENV := None; JWT_SECRET := Some "k";
     JWT_EXPIRES_IN := None |}.

(** As [example_env], with another signing secret. *)
Definition example_env_other_secret : env :=
  {| now := 1500; db_now := 1501; fresh_id := "cccccccccccccccccccccccc";
     bcrypt_salt := "salt"; NODE_ENV := None; JWT_SECRET := Some "other";
     JWT_EXPIRES_IN := None |}.

(** A resident of A-101 whose id is not an ObjectId, and a store that
    holds it. *)
Definition example_host : Resident :=
  {| res_id := "host-1"; res_name := "Alice"; res_apartment := "A-101";
     res_phone := "0300000000"; res_email := "alice@example.com"; res_status := "Active";
     res_familyMembers := 1; res_username := None; res_password := None;
     res_approvalStatus := APPROVED; res_kyc := []; res_createdAt := 1000 |}.

Definition example_database_with_host : database :=
  {| admins := [example_admin true]; residents := [example_host]; serviceProviders := [];
     employees := []; gateEntries := []; maintenanceBills := [] |}.

(** Dave, whose username is carol1, and Carol's registration under the
    same username. *)
Definition example_dave : Resident :=
  {| res_id := "dddddddddddddddddddddddd"; res_name := "Dave"; res_apartment := "D-4";
     res_phone := "0300999999"; res_email := "dave@example.com"; res_status := "Active";
     res_familyMembers := 1; res_username := Some "carol1"; res_password := None;
     res_approvalStatus := APPROVED; res_kyc := []; res_createdAt := 1000 |}.

Definition example_database_with_dave : database :=
  {| admins := [example_admin true]; residents := [example_dave]; serviceProviders := [];
     employees := []; gateEntries := []; maintenanceBills := [] |}.

Definition example_registration_as (name username : string) : jsval :=
  JObj [("name", JStr name); ("apartment", JStr "C-3"); ("phone", JStr "0300123456");
        ("email", JStr "carol@example.com"); ("familyMembers", JNum 2);
        ("username", JStr username);
        ("password", JStr "secret1"); ("idDocumentType", JStr "CNIC");
        ("ownershipType", JStr "OWNER")].

(** The three bytes of one CJK character (U+4E2D), a string of length 1. *)
Definition example_one_character : string :=
  String (ascii_of_nat 228) (String (ascii_of_nat 184) (String (ascii_of_nat 173) "")).

(** A limiter that counts the requests of each client, without windows,
    and lets one request of each client through. *)
Definition example_limiter (counters : list (string * Z)) (ip : string) (t : Z)
  : bool * list (string * Z) :=
  let totalHits := 1 + match assoc ip counters with Some n => n | None => 0 end in
  (1 <? totalHits, (ip, totalHits) :: counters).


(** ** routes/auth.ts: resident login *)

(** [bcrypt.compare(password, hashedPassword)]. *)
Variable bcrypt_compare : string -> string -> bool.

(** lib/auth.ts. *)
Definition comparePassword (password hashedPassword : string) : bool :=
  bcrypt_compare password hashedPassword.

(** lib/validations.ts. *)
Definition LoginSchema : list (string * zod) :=
  [("email", z_email "Invalid email address");
   ("password", z_string 6 "Password must be at least 6 characters")].

(** [prisma.resident.findUnique({ where: { email } })]. *)
Definition prisma_resident_findUnique_email (v : jsval) : task (option Resident) :=
  m <- lift (required_string "Resident" "email" v) ;;
  read (fun d => find (fun r => String.eqb (res_email r) m) (residents d)).

(** [!resident.password]: the column is null or the empty string. *)
Definition no_password (x : Resident) : bool :=
  match res_password x with
  | Some h => String.eqb h ""
  | None => true
  end.

Definition stored_password (x : Resident) : string :=
  match res_password x with Some h => h | None => "" end.

(** POST /resident/login. *)
Definition resident_login : handler := fun req e =>
  try_catch
    (validatedData <- lift (z_object LoginSchema (req_body req)) ;;
     let email := prop validatedData "email" in
     let password := prop validatedData "password" in
     resident <- prisma_resident_findUnique_email email ;;
     match resident with
     | None =>
         ret (error_json 401 "Invalid credentials" "Email or password is incorrect")
     | Some x =>
         if no_password x
            || negb (comparePassword (js_string password) (stored_password x))
         then ret (error_json 401 "Invalid credentials" "Email or password is incorrect")
         else if negb (String.eqb (res_status x) "Active")
         then ret (error_json 403 "Account inactive" "Your account is not active")
         else if negb (ApprovalStatus_eqb (res_approvalStatus x) APPROVED)
         then ret (error_json 403 "Account not approved" "Your account is pending approval")
         else
           token <- lift (generateToken
                            (JObj [("id", JStr (res_id x)); ("type", JStr "resident");
                                   ("email", JStr (res_email x))]) e) ;;
           ret {| status := 200;
                  body := [("message", JStr "Login successful");
                           ("token", JStr token);
                           ("user",
                            JObj [("id", JStr (res_id x));
                                  ("name", JStr (res_name x));
                                  ("email", JStr (res_email x));
                                  ("apartment", JStr (res_apartment x));
                                  ("type", JStr "resident");
                                  ("status", JStr (res_status x));
                                  ("approvalStatus",
                                   JStr (ApprovalStatus_string (res_approvalStatus x)))])] |}
     end)
    (fun error => ret (error_json 400 "Login failed" (error_message error))).

(** ** routes/residents.ts: approval *)

(** An enum column in [update]: [undefined] leaves the column as it is. *)
Definition approval_update_value (v : jsval) : outcome (option ApprovalStatus) :=
  match v with
  | JUndefined => Ok None
  | JStr s => if String.eqb s "PENDING" then Ok (Some APPROVAL_PENDING)
              else if String.eqb s "APPROVED" then Ok (Some APPROVED)
              else if String.eqb s "REJECTED" then Ok (Some REJECTED)
              else Throw (PrismaValidationError "Resident" "approvalStatus")
  | _ => Throw (PrismaValidationError "Resident" "approvalStatus")
  end.

Definition set_approval (a : option ApprovalStatus) (st : string) (x : Resident) : Resident :=
  {| res_id := res_id x; res_name := res_name x; res_apartment := res_apartment x;
     res_phone := res_phone x; res_email := res_email x; res_status := st;
     res_familyMembers := res_familyMembers x; res_username := res_username x;
     res_password := res_password x;
     res_approvalStatus := match a with Some s => s | None => res_approvalStatus x end;
     res_kyc := res_kyc x; res_createdAt := res_createdAt x |}.

Fixpoint update_first_resident (i : string) (f : Resident -> Resident) (l : list Resident)
  : list Resident :=
  match l with
  | [] => []
  | x :: r => if String.eqb (res_id x) i then f x :: r else x :: update_first_resident i f r
  end.

(** [prisma.resident.update({ where: { id }, data: { approvalStatus, status } })]. *)
Definition prisma_resident_update_approval (residentId : string) (approvalStatus : jsval)
  (st : string) : task Resident :=
  i <- lift (id_filter "Resident" residentId) ;;
  a <- lift (approval_update_value approvalStatus) ;;
  fun d => match find (fun r => String.eqb (res_id r) i) (residents d) with
           | None => (Throw (PrismaKnownError "P2025" "Resident"), d)
           | Some x =>
               (Ok (set_approval a st x),
                set_residents (update_first_resident i (set_approval a st) (residents d)) d)
           end.

(** PATCH /:id/approval. *)
Definition resident_approval : handler := fun req e =>
  try_catch
    (let residentId := req_params_id req in
     reqBody <- not_null "req.body" (req_body req) ;;
     let approvalStatus := prop reqBody "approvalStatus" in
     if negb (existsb (is_str approvalStatus) ["APPROVED"; "REJECTED"]) then
       ret (error_json 400 "Invalid approval status"
              "Approval status must be APPROVED or REJECTED")
     else
       updatedResident <- prisma_resident_update_approval residentId approvalStatus
         (if is_str approvalStatus "APPROVED" then "Active" else "Rejected") ;;
       ret {| status := 200;
              body := [("message",
                        JStr ("Resident "
                              +++ (if is_str approvalStatus "APPROVED"
                                   then "approved" else "rejected")
                              +++ " successfully"));
                       ("resident",
                        JObj [("id", JStr (res_id updatedResident));
                              ("name", JStr (res_name updatedResident));
                              ("apartment", JStr (res_apartment updatedResident));
                              ("email", JStr (res_email updatedResident));
                              ("status", JStr (res_status updatedResident));
                              ("approvalStatus",
                               JStr (ApprovalStatus_string
                                       (res_approvalStatus updatedResident)))])] |})
    (fun error => ret (error_json 500 "Failed to update approval status"
                         "Internal server error")).

(** The two routes as the routers register them: neither has a middleware
    in front of its handler. *)
Definition route_resident_login : handler := chain [] resident_login.
Definition route_resident_approval : handler := chain [] resident_approval.

(** ** Further notions used in the statements *)

(** An optional string property of a request body. *)
Definition opt_field (o : option string) : jsval :=
  match o with Some s => JStr s | None => JUndefined end.

Definition or_default (o : option string) (dflt : string) : string :=
  match o with Some s => s | None => dflt end.

(** The six payload types POST /qr-scan knows. *)
Definition qr_types : list string :=
  ["guest_entry"; "resident_entry"; "vehicle_entry"; "delivery_entry";
   "service_provider_entry"; "employee_entry"].

(** The entryData of every case of the switch names the main gate and the
    QR method. *)
Definition at_the_main_gate (step : Response + GateEntryCreateInput) : Prop :=
  match step with
  | inl _ => True
  | inr entryData =>
      data_gate entryData = JStr "Main Gate" /\ data_method entryData = JStr "QR Code"
  end.

(** Every row a computation adds to the gate log satisfies [Q]; the log only
    grows, by one row at most, and the other collections stay as they are. *)
Definition appends (m : task Response) (Q : GateEntry -> Prop) : Prop :=
  forall d o d', m d = (o, d') ->
                 d' = d \/ exists x, d' = set_gateEntries (gateEntries d ++ [x]) d /\ Q x.

(** Every account of the store carries an ObjectId. *)
Definition store_ids_ok (d : database) : Prop :=
  (forall a, In a (admins d) -> isObjectId (admin_id a) = true) /\
  (forall r, In r (residents d) -> isObjectId (res_id r) = true) /\
  (forall p, In p (serviceProviders d) -> isObjectId (sp_id p) = true) /\
  (forall p, In p (employees d) -> isObjectId (emp_id p) = true).

Definition no_space (s : string) : bool :=
  negb (existsb (Ascii.eqb " ") (list_ascii_of_string s)).

(** The messages the global error handler writes itself. *)
Definition fixed_messages : list string :=
  ["A record with this data already exists."; "The requested record does not exist.";
   "Invalid input data"; "Authentication token is invalid.";
   "Authentication token has expired."; "Something went wrong"].

(** The token payload the login signs for a resident. *)
Definition resident_payload (x : Resident) : jsval :=
  JObj [("id", JStr (res_id x)); ("type", JStr "resident"); ("email", JStr (res_email x))].

(** What an update of the bill [i] may do to a stored bill: another bill
    stays as it is; the bill keeps its id, its resident, its period and its
    due date, and a paid date, once set, stays set. *)
Definition bill_kept (i : string) (b b' : MaintenanceBill) : Prop :=
  bill_id b' = bill_id b /\ bill_residentId b' = bill_residentId b /\
  bill_month b' = bill_month b /\ bill_year b' = bill_year b /\
  bill_dueDate b' = bill_dueDate b /\
  (bill_id b <> i -> b' = b) /\
  (bill_paidDate b <> None -> bill_paidDate b' <> None).

Definition sum (l : list Z) : Z := fold_right Z.add 0 l.

(** ** Further concrete values for the examples *)

Definition example_bcrypt_compare (password hashed : string) : bool :=
  String.eqb hashed (example_bcrypt_hash password "salt")
  || String.eqb hashed (example_bcrypt_hash password "pepper").

Definition example_resident (st : string) (a : ApprovalStatus) : Resident :=
  {| res_id := example_resident_id; res_name := "Carol"; res_apartment := "C-3";
     res_phone := "0300123456"; res_email := "carol@example.com"; res_status := st;
     res_familyMembers := 2; res_username := None;
     res_password := Some (example_bcrypt_hash "secret1" "salt");
     res_approvalStatus := a; res_kyc := []; res_createdAt := 1000 |}.

Definition example_community (st : string) (a : ApprovalStatus) : database :=
  {| admins := [example_admin true]; residents := [example_resident st a];
     serviceProviders := []; employees := []; gateEntries := [];
     maintenanceBills := [] |}.

Definition example_login (password : string) : jsval :=
  JObj [("email", JStr "carol@example.com"); ("password", JStr password)].

Definition with_id (i : string) (body : jsval) : Request :=
  {| req_method := "PATCH"; req_originalUrl := "/"; req_authorization := None;
     req_params_id := i; req_query := JObj []; req_body := body; req_user := None |}.

Definition example_entry_id (n : string) : string := "00000000000000000000000" +++ n.

(** Three gate entries and four bills, all with ObjectIds. *)
Definition example_gate_log : database :=
  {| admins := [example_admin true]; residents := []; serviceProviders := [];
     employees := [];
     gateEntries := [example_entry (example_entry_id "1") ENTRY 100;
                     example_entry (example_entry_id "2") EXIT 200;
                     example_entry (example_entry_id "3") ENTRY 300];
     maintenanceBills := maintenanceBills example_busy_database |}.

Definition example_manual_entry (extra : list (string * jsval)) : jsval :=
  JObj ([("type", JStr "EXIT"); ("person", JStr "Bob"); ("apartment", JStr "A-101");
         ("entryType", JStr "Guest"); ("gate", JStr "Back Gate")] ++ extra).

(** A middleware's verdict that, when it ends the chain, is one of the
    refusals 401, 403, 404 and 500. *)
Definition denial (x : Response + Request) : Prop :=
  match x with
  | inl r => In (status r) [401; 403; 404; 500]
  | inr _ => True
  end.

Definition example_page_two : Request :=
  {| req_method := "GET"; req_originalUrl := "/api/gate-entries?page=2&limit=2";
     req_authorization := Some "Bearer admin-token"; req_params_id := "";
     req_query := JObj [("page", JStr "2"); ("limit", JStr "2")]; req_body := JObj [];
     req_user := None |}.

Definition example_env_in (mode : string) : env :=
  {| now := 1500; db_now := 1501; fresh_id := "cccccccccccccccccccccccc";
     bcrypt_salt := "salt"; NODE_ENV := Some mode; JWT_SECRET := Some "k";
     JWT_EXPIRES_IN := None |}.

(** An error thrown with a message and a stack. *)
Definition example_failure : JsError :=
  {| err_code := None; err_name := Some "TypeError"; err_statusCode := None;
     err_status := None; err_message := Some "x is not a function";
     err_stack := Some "TypeError: x is not a function at handler (server.ts:1)";
     err_errors := JUndefined |}.

Definition example_admin_payload : jsval :=
  JObj [("id", JStr example_admin_id); ("type", JStr "admin");
        ("email", JStr "admin@example.com")].

Definition example_resident_payload_of_token : jsval :=
  JObj [("id", JStr example_resident_id); ("type", JStr "resident");
        ("email", JStr "carol@example.com")].

(** ** The catch blocks of the route handlers

    Every route handler of the routers is an async function whose whole
    body is one [try] block, except POST /logout, which only answers.  The
    table lists the [catch] of each, by file and line and with the route as
    the router names it: the status and the error text it answers with, and
    its message, which is either the fixed text "Internal server error" or
    [error instanceof Error ? error.message : text].  [routes/auth.ts] is
    the file of the router mounted at /api/auth. *)
Record catch_block := {
  catch_file : string;
  catch_line : Z;
  catch_route : string;
  catch_status : Z;
  catch_error : string;
  catch_reports : bool;
  catch_message : string
}.

(** The message of a catch: what is thrown in a handler is an Error. *)
Definition catch_text (c : catch_block) (error : failure) : string :=
  if catch_reports c then error_message error else catch_message c.

Definition catch_answer (c : catch_block) (error : failure) : task Response :=
  ret (error_json (catch_status c) (catch_error c) (catch_text c error)).

Definition fixed (file : string) (line : Z) (route : string) (code : Z) (error : string)
  : catch_block :=
  {| catch_file := file; catch_line := line; catch_route := route; catch_status := code;
     catch_error := error; catch_reports := false;
     catch_message := "Internal server error" |}.

Definition reporting (file : string) (line : Z) (route : string) (code : Z)
  (error dflt : string) : catch_block :=
  {| catch_file := file; catch_line := line; catch_route := route; catch_status := code;
     catch_error := error; catch_reports := true; catch_message := dflt |}.

Definition handler_catches : list catch_block :=
  [fixed "routes/announcements.ts" 16 "GET /" 500 "Failed to fetch announcements";
   fixed "routes/dashboard.ts" 165 "GET /admin/stats" 500 "Failed to fetch dashboard statistics";
   fixed "routes/dashboard.ts" 275 "GET /resident/stats" 500 "Failed to fetch dashboard statistics";
   fixed "routes/dashboard.ts" 371 "GET /service-provider/stats" 500 "Failed to fetch dashboard statistics";
   fixed "routes/deliveries.ts" 26 "GET /" 500 "Failed to fetch deliveries";
   fixed "routes/employees.ts" 83 "GET /" 500 "Failed to fetch employees";
   fixed "routes/employees.ts" 114 "GET /:id" 500 "Failed to fetch employee";
   reporting "routes/employees.ts" 183 "POST /" 400 "Failed to register employee" "Invalid input";
   reporting "routes/employees.ts" 262 "PATCH /:id" 400 "Failed to update employee" "Invalid input";
   fixed "routes/employees.ts" 305 "PATCH /:id/status" 500 "Failed to update status";
   fixed "routes/employees.ts" 364 "GET /:id/qr-code" 500 "Failed to generate QR code";
   fixed "routes/employees.ts" 389 "GET /departments/list" 500 "Failed to fetch departments";
   fixed "routes/employees.ts" 414 "GET /designations/list" 500 "Failed to fetch designations";
   fixed "routes/employees.ts" 453 "DELETE /:id" 500 "Failed to delete employee";
   fixed "routes/employees.ts" 510 "GET /stats/overview" 500 "Failed to fetch statistics";
   fixed "routes/gateEntries.ts" 64 "GET /" 500 "Failed to fetch gate entries";
   fixed "routes/gateEntries.ts" 309 "POST /qr-scan" 500 "Failed to process QR code";
   reporting "routes/gateEntries.ts" 341 "POST /" 400 "Failed to create gate entry" "Invalid input";
   fixed "routes/gateEntries.ts" 411 "GET /stats/today" 500 "Failed to fetch statistics";
   fixed "routes/gateEntries.ts" 448 "DELETE /:id" 500 "Failed to delete gate entry";
   fixed "routes/gateEntries.ts" 484 "GET /" 500 "Failed to fetch vehicles";
   fixed "routes/guests.ts" 92 "GET /" 500 "Failed to fetch guests";
   fixed "routes/guests.ts" 137 "GET /:id" 500 "Failed to fetch guest";
   reporting "routes/guests.ts" 237 "POST /" 400 "Failed to register guest" "Invalid input";
   fixed "routes/guests.ts" 297 "PATCH /:id/status" 500 "Failed to update guest status";
   fixed "routes/guests.ts" 352 "GET /:id/qr-code" 500 "Failed to get QR code";
   fixed "routes/guests.ts" 422 "GET /resident/:residentId" 500 "Failed to fetch guests";
   fixed "routes/guests.ts" 467 "DELETE /:id" 500 "Failed to delete guest";
   fixed "routes/guests.ts" 519 "GET /stats/overview" 500 "Failed to fetch statistics";
   fixed "routes/maintenanceBills.ts" 94 "GET /" 500 "Failed to fetch bills";
   fixed "routes/maintenanceBills.ts" 140 "GET /:id" 500 "Failed to fetch bill";
   reporting "routes/maintenanceBills.ts" 241 "POST /generate" 400 "Failed to generate bills" "Invalid input";
   reporting "routes/maintenanceBills.ts" 299 "PATCH /:id/status" 400 "Failed to update bill status" "Invalid input";
   fixed "routes/maintenanceBills.ts" 383 "PATCH /:id/mark-paid" 500 "Failed to process payment";
   fixed "routes/maintenanceBills.ts" 449 "GET /resident/:residentId" 500 "Failed to fetch bills";
   fixed "routes/maintenanceBills.ts" 487 "DELETE /:id" 500 "Failed to delete bill";
   fixed "routes/maintenanceBills.ts" 550 "GET /stats/overview" 500 "Failed to fetch statistics";
   fixed "routes/residents.ts" 84 "GET /" 500 "Failed to fetch residents";
   fixed "routes/residents.ts" 177 "GET /:id" 500 "Failed to fetch resident";
   reporting "routes/residents.ts" 279 "PATCH /:id" 400 "Failed to update resident" "Invalid input";
   fixed "routes/residents.ts" 324 "PATCH /:id/approval" 500 "Failed to update approval status";
   fixed "routes/residents.ts" 363 "DELETE /:id" 500 "Failed to delete resident";
   fixed "routes/residents.ts" 418 "GET /stats/overview" 500 "Failed to fetch statistics";
   fixed "routes/residents.ts" 512 "GET /" 500 "Failed to fetch residents";
   reporting "routes/residents.ts" 568 "POST /complaints" 500 "Failed to submit complaint" "Internal server error";
   reporting "routes/residents.ts" 622 "POST /complaints" 500 "Failed to submit complaint" "Internal server error";
   reporting "routes/residents.ts" 711 "GET /complaints/all" 500 "Failed to fetch complaints" "Internal server error";
   fixed "routes/residents.ts" 804 "GET /:id" 500 "Failed to fetch resident";
   reporting "routes/residents.ts" 906 "PATCH /:id" 400 "Failed to update resident" "Invalid input";
   fixed "routes/residents.ts" 951 "PATCH /:id/approval" 500 "Failed to update approval status";
   fixed "routes/residents.ts" 990 "DELETE /:id" 500 "Failed to delete resident";
   fixed "routes/residents.ts" 1045 "GET /stats/overview" 500 "Failed to fetch statistics";
   fixed "routes/residents.ts" 1081 "GET /" 500 "Failed to fetch complaints";
   fixed "routes/serviceBookings.ts" 31 "GET /" 500 "Failed to fetch bookings";
   fixed "routes/serviceProviders.ts" 87 "GET /" 500 "Failed to fetch service providers";
   fixed "routes/serviceProviders.ts" 169 "GET /:id" 500 "Failed to fetch service provider";
   reporting "routes/serviceProviders.ts" 271 "PATCH /:id" 400 "Failed to update service provider" "Invalid input";
   fixed "routes/serviceProviders.ts" 314 "PATCH /:id/approval" 500 "Failed to update status";
   fixed "routes/serviceProviders.ts" 379 "GET /:id/bookings" 500 "Failed to fetch bookings";
   fixed "routes/serviceProviders.ts" 401 "GET /categories/list" 500 "Failed to fetch categories";
   fixed "routes/serviceProviders.ts" 439 "DELETE /:id" 500 "Failed to delete service provider";
   reporting "routes/auth.ts" 52 "POST /admin/login" 400 "Login failed" "Invalid input";
   reporting "routes/auth.ts" 114 "POST /resident/login" 400 "Login failed" "Invalid input";
   reporting "routes/auth.ts" 175 "POST /resident/register" 400 "Registration failed" "Invalid input";
   reporting "routes/auth.ts" 229 "POST /service-provider/login" 400 "Login failed" "Invalid input";
   reporting "routes/auth.ts" 286 "POST /service-provider/register" 400 "Registration failed" "Invalid input";
   fixed "routes/auth.ts" 372 "GET /me" 500 "Failed to get user";
   fixed "routes/auth.ts" 396 "POST /refresh" 500 "Failed to refresh token"].

(** The handlers of this development, each with the file and the line of
    its catch. *)
Definition modelled_handlers : list (string * Z * handler) :=
  [("routes/gateEntries.ts", 64, list_gate_entries);
   ("routes/gateEntries.ts", 309, qr_scan);
   ("routes/gateEntries.ts", 341, create_gate_entry);
   ("routes/gateEntries.ts", 411, stats_today);
   ("routes/gateEntries.ts", 448, delete_gate_entry);
   ("routes/dashboard.ts", 165, admin_stats);
   ("routes/maintenanceBills.ts", 299, update_bill_status);
   ("routes/residents.ts", 324, resident_approval);
   ("routes/auth.ts", 114, resident_login);
   ("routes/auth.ts", 175, register_resident);
   ("routes/auth.ts", 396, refresh_token)].

(** A handler that is a try/catch whose catch is the one of the table at
    a file and a line. *)
Definition catch_at (file : string) (line : Z) : option catch_block :=
  find (fun c => String.eqb (catch_file c) file && (catch_line c =? line)) handler_catches.

Definition caught_by (file : string) (line : Z) (h : handler) : Prop :=
  exists c (body : Request -> env -> task Response),
    catch_at file line = Some c /\
    forall req e, h req e = try_catch (body req e) (catch_answer c).

(** The routes of this development, as the routers register them: those
    that create no row, and all of them. *)
Definition routes_without_create : list handler :=
  reading_routes ++ [route_resident_login; route_resident_approval].

Definition modelled_routes : list handler := routes_without_create ++ creating_routes.

(** ** The module-level bindings of the service

    What could survive from one request to the next in the process is what
    a module binds at its top level.  No source file has a [let], a [var]
    or a [class] there: each top-level binding is a [const] or a function
    declaration, and the table lists them all by file and line, with what
    the name is bound to.  [lib/validations.ts], [lib/auth.middleware.ts]
    and [routes/auth.ts] are the modules the routers import under these
    names; [seed.ts] is the seeding script, which the server does not
    load. *)
Inductive bound_to :=
| PrismaClient_new      (* new PrismaClient() *)
| express_app           (* express() *)
| express_Router        (* express.Router() *)
| rateLimit_middleware  (* rateLimit({ windowMs, max, message, ... }) *)
| zod_schema            (* z.enum(...), z.object(...), Schema.partial() *)
| auth_middleware       (* authorizeRoles(...), [authenticateToken, verifyUserExists] *)
| a_function            (* an arrow function or a function declaration *)
| a_constant.           (* process.env.PORT || 3001, the object of CORS options *)

Record module_binding := {
  bound_file : string;
  bound_line : Z;
  bound_name : string;
  bound_value : bound_to
}.

Definition bound (file : string) (line : Z) (name : string) (value : bound_to)
  : module_binding :=
  {| bound_file := file; bound_line := line; bound_name := name; bound_value := value |}.

Definition module_bindings : list module_binding :=
  [bound "server.ts" 27 "prisma" PrismaClient_new;
   bound "server.ts" 30 "app" express_app;
   bound "server.ts" 31 "PORT" a_constant;
   bound "server.ts" 36 "corsOptions" a_constant;
   bound "server.ts" 47 "limiter" rateLimit_middleware;
   bound "lib/auth.ts" 5 "generateToken" a_function;
   bound "lib/auth.ts" 11 "verifyToken" a_function;
   bound "lib/auth.ts" 16 "hashPassword" a_function;
   bound "lib/auth.ts" 20 "comparePassword" a_function;
   bound "routes/announcements.ts" 5 "router" express_Router;
   bound "routes/dashboard.ts" 6 "router" express_Router;
   bound "routes/deliveries.ts" 5 "router" express_Router;
   bound "routes/employees.ts" 11 "router" express_Router;
   bound "routes/gateEntries.ts" 7 "router" express_Router;
   bound "routes/gateEntries.ts" 464 "router" express_Router;
   bound "routes/guests.ts" 10 "router" express_Router;
   bound "routes/maintenanceBills.ts" 11 "router" express_Router;
   bound "routes/residents.ts" 6 "router" express_Router;
   bound "routes/residents.ts" 434 "router" express_Router;
   bound "routes/residents.ts" 1060 "router" express_Router;
   bound "routes/serviceBookings.ts" 5 "router" express_Router;
   bound "routes/serviceProviders.ts" 10 "router" express_Router;
   bound "lib/validations.ts" 4 "IdDocumentSchema" zod_schema;
   bound "lib/validations.ts" 5 "OwnershipTypeSchema" zod_schema;
   bound "lib/validations.ts" 6 "VehicleTypeSchema" zod_schema;
   bound "lib/validations.ts" 13 "PrioritySchema" zod_schema;
   bound "lib/validations.ts" 16 "LoginSchema" zod_schema;
   bound "lib/validations.ts" 21 "AdminLoginSchema" zod_schema;
   bound "lib/validations.ts" 27 "ResidentRegistrationSchema" zod_schema;
   bound "lib/validations.ts" 62 "ResidentUpdateSchema" zod_schema;
   bound "lib/validations.ts" 65 "ServiceProviderRegistrationSchema" zod_schema;
   bound "lib/validations.ts" 91 "ServiceProviderUpdateSchema" zod_schema;
   bound "lib/validations.ts" 95 "EmployeeRegistrationSchema" zod_schema;
   bound "lib/validations.ts" 118 "EmployeeUpdateSchema" zod_schema;
   bound "lib/validations.ts" 121 "VehicleRegistrationSchema" zod_schema;
   bound "lib/validations.ts" 133 "VehicleUpdateSchema" zod_schema;
   bound "lib/validations.ts" 136 "ComplaintSchema" zod_schema;
   bound "lib/validations.ts" 144 "ComplaintUpdateSchema" zod_schema;
   bound "lib/validations.ts" 150 "ServiceBookingSchema" zod_schema;
   bound "lib/validations.ts" 163 "BookingUpdateSchema" zod_schema;
   bound "lib/validations.ts" 173 "MaintenanceBillSchema" zod_schema;
   bound "lib/validations.ts" 189 "BillUpdateSchema" zod_schema;
   bound "lib/validations.ts" 195 "GuestRegistrationSchema" zod_schema;
   bound "lib/validations.ts" 211 "DeliveryRegistrationSchema" zod_schema;
   bound "lib/validations.ts" 220 "GateEntrySchema" zod_schema;
   bound "lib/validations.ts" 232 "AnnouncementSchema" zod_schema;
   bound "lib/validations.ts" 240 "ServiceReviewSchema" zod_schema;
   bound "lib/validations.ts" 251 "PaginationSchema" zod_schema;
   bound "seed.ts" 271 "prisma" PrismaClient_new;
   bound "seed.ts" 273 "main" a_function;
   bound "lib/auth.middleware.ts" 14 "authenticateToken" a_function;
   bound "lib/auth.middleware.ts" 41 "verifyUserExists" a_function;
   bound "lib/auth.middleware.ts" 141 "authorizeRoles" a_function;
   bound "lib/auth.middleware.ts" 162 "requireAdmin" auth_middleware;
   bound "lib/auth.middleware.ts" 163 "requireResident" auth_middleware;
   bound "lib/auth.middleware.ts" 164 "requireServiceProvider" auth_middleware;
   bound "lib/auth.middleware.ts" 165 "requireEmployee" auth_middleware;
   bound "lib/auth.middleware.ts" 166 "requireAdminOrResident" auth_middleware;
   bound "lib/auth.middleware.ts" 167 "requireAdminOrServiceProvider" auth_middleware;
   bound "lib/auth.middleware.ts" 168 "requireAdminOrEmployee" auth_middleware;
   bound "lib/auth.middleware.ts" 171 "authenticateAndVerify" auth_middleware;
   bound "lib/auth.middleware.ts" 174 "authWithRole" a_function;
   bound "routes/auth.ts" 17 "router" express_Router].

(** The two parts of [process], and the binding through which the code
    reaches each: the hit counters live in the store of the middleware that
    [rateLimit] returns, the database behind the Prisma client.  A router
    and the app are filled when the modules load, a schema, a function and
    a constant are never assigned to. *)
Inductive process_part := the_counters | the_database.

Definition reaches (value : bound_to) : option process_part :=
  match value with
  | rateLimit_middleware => Some the_counters
  | PrismaClient_new => Some the_database
  | _ => None
  end.

Definition bindings_reaching (part : process_part) : list module_binding :=
  filter (fun b => match reaches (bound_value b), part with
                   | Some the_counters, the_counters => true
                   | Some the_database, the_database => true
                   | _, _ => false
                   end) module_bindings.
(** * Properties *)

(** ** The monad and the store operations, as equations *)

Lemma bind_eq {A B : Type} (m : task A) (k : A -> task B) d :
  bind m k d = match m d with
               | (Ok a, d') => k a d'
               | (Throw f, d') => (Throw f, d')
               end.
Proof. reflexivity. Qed.

Lemma bind_not_null {A : Type} what v (k : jsval -> task A) d :
  bind (not_null what v) k d =
  if nullish v then (Throw (TypeError what), d) else k v d.
Proof. unfold bind, not_null. destruct (nullish v); reflexivity. Qed.

Lemma bind_lift {A B : Type} (o : outcome A) (k : A -> task B) d :
  bind (lift o) k d = match o with Ok a => k a d | Throw f => (Throw f, d) end.
Proof. unfold bind, lift. destruct o; reflexivity. Qed.

Lemma findFirst_eq w d :
  prisma_gateEntry_findFirst w d =
  (match validate_where w with
   | Ok w' => Ok (latest (filter (entry_matches w') (gateEntries d)))
   | Throw f => Throw f
   end, d).
Proof.
  unfold prisma_gateEntry_findFirst. rewrite bind_lift.
  destruct (validate_where w); reflexivity.
Qed.

Lemma resident_findFirst_eq v d :
  prisma_resident_findFirst_apartment v d =
  (match string_filter "Resident" "apartment" v with
   | Ok a => Ok (find (fun r => field_matches a (res_apartment r)) (residents d))
   | Throw f => Throw f
   end, d).
Proof.
  unfold prisma_resident_findFirst_apartment. rewrite bind_lift.
  destruct (string_filter _ _ v); reflexivity.
Qed.

Lemma create_eq e data d :
  prisma_gateEntry_create e data d =
  match validate_create e data with
  | Ok row => let d' := set_gateEntries (gateEntries d ++ [row]) d in
              (Ok (row, included_resident d' row), d')
  | Throw f => (Throw f, d)
  end.
Proof.
  unfold prisma_gateEntry_create. rewrite bind_lift.
  destruct (validate_create e data); reflexivity.
Qed.

Lemma record_entry_eq e data d :
  record_entry e data d =
  match validate_create e data with
  | Ok row =>
      let d' := set_gateEntries (gateEntries d ++ [row]) d in
      (Ok {| status := 201;
             body := [("message", JStr (toLowerCase_type (type row)
                                          +++ " recorded successfully"));
                      ("entry", gateEntry_json (row, included_resident d' row));
                      ("entryType", data_type data);
                      ("person", data_person data);
                      ("apartment", data_apartment data)] |}, d')
  | Throw f => (Throw f, d)
  end.
Proof.
  unfold record_entry. rewrite bind_eq, create_eq.
  destruct (validate_create e data); reflexivity.
Qed.

(** ** What a validated row says about the arguments *)

Lemma obind_ok {A B : Type} (o : outcome A) (k : A -> outcome B) b :
  obind o k = Ok b -> exists a, o = Ok a /\ k a = Ok b.
Proof. destruct o; simpl; intros H; [eauto | discriminate]. Qed.

Lemma required_string_ok model field v s :
  required_string model field v = Ok s -> v = JStr s.
Proof. destruct v; simpl; intros H; try discriminate. congruence. Qed.

Lemma entry_type_literal b t :
  entry_type_value (type_literal b) = Ok t -> t = if b then ENTRY else EXIT.
Proof. destruct b; simpl; congruence. Qed.

Lemma validate_create_ok e data x :
  validate_create e data = Ok x ->
  entry_type_value (data_type data) = Ok (type x) /\
  data_person data = JStr (person x) /\
  data_apartment data = JStr (apartment x) /\
  data_entryType data = JStr (entryType x) /\
  default_string "GateEntry" "vehicle" "None" (data_vehicle data) = Ok (vehicle x) /\
  createdAt x = db_now e /\ id x = fresh_id e.
Proof.
  unfold validate_create. intros H.
  repeat (apply obind_ok in H; destruct H as [? [? H]]).
  injection H as <-. simpl.
  repeat match goal with
         | H : required_string _ _ _ = Ok _ |- _ => apply required_string_ok in H
         end.
  repeat split; assumption.
Qed.

Lemma validate_where_ok w k :
  validate_where w = Ok k ->
  string_filter "GateEntry" "person" (where_person w) = Ok (on_person k) /\
  string_filter "GateEntry" "apartment" (where_apartment w) = Ok (on_apartment k) /\
  string_filter "GateEntry" "vehicle" (where_vehicle w) = Ok (on_vehicle k) /\
  string_filter "GateEntry" "entryType" (where_entryType w) = Ok (on_entryType k).
Proof.
  unfold validate_where. intros H.
  repeat (apply obind_ok in H; destruct H as [? [? H]]).
  injection H as <-. simpl. repeat split; assumption.
Qed.

(** ** The most recent row *)

Lemma latest_none l : latest l = None <-> l = [].
Proof.
  split.
  - destruct l as [|x r]; [reflexivity|]. simpl.
    destruct (latest r); [destruct (createdAt x <? createdAt g)|]; discriminate.
  - intros ->. reflexivity.
Qed.

Lemma latest_most_recent l m : latest l = Some m -> most_recent l m.
Proof.
  revert m. induction l as [|x r IH]; simpl; intros m H; [discriminate|].
  destruct (latest r) as [m'|] eqn:Hr.
  - destruct (IH m' eq_refl) as [Hin Hmax].
    destruct (createdAt x <? createdAt m') eqn:Hlt; injection H as <-.
    + split; [right; assumption|].
      intros y [<-|Hy]; [apply Z.ltb_lt in Hlt; lia | apply Hmax; assumption].
    + split; [left; reflexivity|].
      apply Z.ltb_ge in Hlt.
      intros y [<-|Hy]; [lia | specialize (Hmax y Hy); lia].
  - injection H as <-. apply latest_none in Hr. subst r.
    split; [left; reflexivity|]. intros y [<-|[]]. lia.
Qed.

(** ** POST /qr-scan: what a scan does to the store *)

Lemma bind_to_string {A : Type} v (k : string -> task A) d :
  bind (to_string v) k d =
  if conversion_throws v
  then (Throw (TypeError "Cannot convert object to primitive value"), d)
  else k (js_string v) d.
Proof. unfold bind, to_string. destruct (conversion_throws v); reflexivity. Qed.

Lemma bind_new_Date {A : Type} v (k : option Z -> task A) d :
  bind (new_Date v) k d =
  if conversion_throws v
  then (Throw (TypeError "Cannot convert object to primitive value"), d)
  else k (Date_of v) d.
Proof. unfold bind, new_Date. destruct (conversion_throws v); reflexivity. Qed.

Lemma switch_answer e d c err msg :
  c <> 201 -> switch_result e d (Ok (inl (error_json c err msg))) d.
Proof. intros H. split; [reflexivity | exact H]. Qed.

Lemma switch_throw e d f : switch_result e d (Throw f) d.
Proof. split; [reflexivity | exact I]. Qed.

(** One case of the switch: look the last row up, set the type from it. *)
Lemma scan_branch e w (mk : bool -> GateEntryCreateInput) d out d' :
  (forall b, data_type (mk b) = type_literal b) ->
  (forall b k x, validate_where w = Ok k -> validate_create e (mk b) = Ok x ->
                 k = key_of_entry x /\ qr_key k) ->
  (last <- prisma_gateEntry_findFirst w ;;
   ret (inr (mk (is_entry last)))) d = (out, d') ->
  switch_result e d out d'.
Proof.
  intros Htype Hkey H.
  rewrite bind_eq, findFirst_eq in H.
  destruct (validate_where w) as [k|f] eqn:Hw.
  - injection H as <- <-. split; [reflexivity|].
    intros x Hc. destruct (Hkey _ _ _ eq_refl Hc) as [-> Hq].
    apply validate_create_ok in Hc.
    destruct Hc as (Ht & _). rewrite Htype in Ht. apply entry_type_literal in Ht.
    split; assumption.
  - injection H as <- <-. apply switch_throw.
Qed.

(** The guest case also builds the vehicle text and looks the host up
    before it breaks. *)
Lemma guest_branch e w v (vehicle : task jsval)
  (mk : bool -> jsval -> option Resident -> GateEntryCreateInput) d out d' :
  (forall d0, exists o, vehicle d0 = (o, d0)) ->
  (forall b t h, data_type (mk b t h) = type_literal b) ->
  (forall b t h k x, validate_where w = Ok k -> validate_create e (mk b t h) = Ok x ->
                     k = key_of_entry x /\ qr_key k) ->
  (last <- prisma_gateEntry_findFirst w ;;
   text <- vehicle ;;
   host <- prisma_resident_findFirst_apartment v ;;
   ret (inr (mk (is_entry last) text host))) d = (out, d') ->
  switch_result e d out d'.
Proof.
  intros Hv Htype Hkey H.
  rewrite bind_eq, findFirst_eq in H.
  destruct (validate_where w) as [k|f] eqn:Hw.
  - rewrite bind_eq in H. destruct (Hv d) as ([t|f] & Ev); rewrite Ev in H.
    + rewrite bind_eq, resident_findFirst_eq in H.
      destruct (string_filter "Resident" "apartment" v) as [a|f].
      * injection H as <- <-. split; [reflexivity|].
        intros x Hc. destruct (Hkey _ _ _ _ _ eq_refl Hc) as [-> Hq].
        apply validate_create_ok in Hc.
        destruct Hc as (Ht & _). rewrite Htype in Ht. apply entry_type_literal in Ht.
        split; assumption.
      * injection H as <- <-. apply switch_throw.
    + injection H as <- <-. apply switch_throw.
  - injection H as <- <-. apply switch_throw.
Qed.

(** The filter of a branch is the lookup key of the row it creates. *)
Ltac branch_key :=
  intros;
  match goal with
  | Hw : validate_where _ = Ok ?k, Hc : validate_create _ _ = Ok ?x |- _ =>
      apply validate_create_ok in Hc; simpl in Hc;
      destruct Hc as (_ & Hp & Ha & Het & Hv & _);
      apply validate_where_ok in Hw; simpl in Hw;
      destruct Hw as (Wp & Wa & Wv & Wt);
      try rewrite Hp in Wp; try rewrite Ha in Wa;
      simpl in Wp, Wa, Wv, Wt;
      destruct k; simpl in *;
      injection Het as Het;
      injection Wp as <-; injection Wa as <-; injection Wv as <-; injection Wt as <-;
      try (injection Hv as Hv);
      unfold key_of_entry; rewrite <- Het; simpl; rewrite <- ?Hv;
      split; [reflexivity | constructor]
  end.

(** The text of a guest's vehicle leaves the store alone. *)
Lemma guest_vehicle_reads parsed d0 :
  exists o,
    (if truthy (prop parsed "licensePlate") then
       vehicleType <- to_string (prop parsed "vehicleType") ;;
       licensePlate <- to_string (prop parsed "licensePlate") ;;
       ret (JStr (vehicleType +++ " (" +++ licensePlate +++ ")"))
     else ret (js_or (prop parsed "vehicleType") (JStr "None"))) d0 = (o, d0).
Proof.
  destruct (truthy (prop parsed "licensePlate")); [|eexists; reflexivity].
  rewrite bind_to_string.
  destruct (conversion_throws (prop parsed "vehicleType")); [eexists; reflexivity|].
  rewrite bind_to_string.
  destruct (conversion_throws (prop parsed "licensePlate")); eexists; reflexivity.
Qed.

Lemma qr_scan_entryData_result req e d out d' :
  qr_scan_entryData req e d = (out, d') -> switch_result e d out d'.
Proof.
  intros H. unfold qr_scan_entryData in H.
  rewrite bind_not_null in H.
  destruct (nullish (req_body req)).
  { injection H as <- <-. apply switch_throw. }
  destruct (negb (truthy (prop (req_body req) "qrData"))).
  { injection H as <- <-. apply switch_answer. discriminate. }
  destruct (conversion_throws (prop (req_body req) "qrData")).
  { injection H as <- <-. apply switch_answer. discriminate. }
  destruct (JSON_parse _) as [parsed|].
  2:{ injection H as <- <-. apply switch_answer. discriminate. }
  rewrite bind_not_null in H.
  destruct (nullish parsed).
  { injection H as <- <-. apply switch_throw. }
  destruct (is_str (prop parsed "type") "guest_entry").
  { rewrite bind_new_Date in H.
    destruct (conversion_throws (prop parsed "validFrom")).
    { injection H as <- <-. apply switch_throw. }
    rewrite bind_new_Date in H.
    destruct (conversion_throws (prop parsed "validUntil")).
    { injection H as <- <-. apply switch_throw. }
    destruct (date_lt _ _ || date_gt _ _).
    { injection H as <- <-. apply switch_answer. discriminate. }
    revert H.
    apply (guest_branch e _ _ _ (fun b t h => {|
      data_type := type_literal b; data_person := prop parsed "guestName";
      data_apartment := prop parsed "hostApartment"; data_entryType := JStr "Guest";
      data_vehicle := t; data_gate := JStr "Main Gate"; data_method := JStr "QR Code";
      data_residentId := match h with Some h0 => JStr (res_id h0) | None => JUndefined end |}));
      [apply guest_vehicle_reads | reflexivity | branch_key]. }
  destruct (is_str (prop parsed "type") "resident_entry").
  { revert H.
    apply (scan_branch e _ (fun b => {|
      data_type := type_literal b; data_person := _; data_apartment := _;
      data_entryType := _; data_vehicle := _; data_gate := _; data_method := _;
      data_residentId := _ |})); [reflexivity | branch_key]. }
  destruct (is_str (prop parsed "type") "vehicle_entry").
  { rewrite bind_to_string in H.
    destruct (conversion_throws (prop parsed "make")).
    { injection H as <- <-. apply switch_throw. }
    rewrite bind_to_string in H.
    destruct (conversion_throws (prop parsed "model")).
    { injection H as <- <-. apply switch_throw. }
    rewrite bind_to_string in H.
    destruct (conversion_throws (prop parsed "licensePlate")).
    { injection H as <- <-. apply switch_throw. }
    revert H. cbv zeta.
    apply (scan_branch e _ (fun b => {|
      data_type := type_literal b; data_person := _; data_apartment := _;
      data_entryType := _; data_vehicle := _; data_gate := _; data_method := _;
      data_residentId := _ |})); [reflexivity | branch_key]. }
  destruct (is_str (prop parsed "type") "delivery_entry").
  { revert H.
    apply (scan_branch e _ (fun b => {|
      data_type := type_literal b; data_person := _; data_apartment := _;
      data_entryType := _; data_vehicle := _; data_gate := _; data_method := _;
      data_residentId := _ |})); [reflexivity | branch_key]. }
  destruct (is_str (prop parsed "type") "service_provider_entry").
  { revert H.
    apply (scan_branch e _ (fun b => {|
      data_type := type_literal b; data_person := _; data_apartment := _;
      data_entryType := _; data_vehicle := _; data_gate := _; data_method := _;
      data_residentId := _ |})); [reflexivity | branch_key]. }
  destruct (is_str (prop parsed "type") "employee_entry").
  { revert H.
    apply (scan_branch e _ (fun b => {|
      data_type := type_literal b; data_person := _; data_apartment := _;
      data_entryType := _; data_vehicle := _; data_gate := _; data_method := _;
      data_residentId := _ |})); [reflexivity | branch_key]. }
  rewrite bind_to_string in H.
  destruct (conversion_throws (prop parsed "type")).
  { injection H as <- <-. apply switch_throw. }
  injection H as <- <-. apply switch_answer. discriminate.
Qed.

(** The two halves of the handler, and the handler as their sequence. *)
Lemma scan_lookup_result req e d out d' :
  scan_lookup req e d = (out, d') ->
  d' = d /\
  exists step, out = Ok step /\
               match step with
               | inl r => status r <> 201
               | inr entryData => planned e entryData d
               end.
Proof.
  unfold scan_lookup, try_catch. intros H.
  destruct (qr_scan_entryData req e d) as [[step|f] d1] eqn:E;
    apply qr_scan_entryData_result in E; destruct E as [-> E].
  - injection H as <- <-. split; [reflexivity|]. exists step. split; [reflexivity|].
    destruct step; exact E.
  - injection H as <- <-. split; [reflexivity|]. eexists. split; [reflexivity|].
    simpl. discriminate.
Qed.

Lemma scan_create_result e entryData d out d' :
  planned e entryData d ->
  scan_create e entryData d = (out, d') ->
  exists r, out = Ok r /\ scanned e d r d'.
Proof.
  intros Hplan H. unfold scan_create, try_catch in H. rewrite record_entry_eq in H.
  destruct (validate_create e entryData) as [x|f] eqn:Hc.
  - cbv zeta in H. injection H as <- <-.
    eexists; split; [reflexivity|]. right. split; [reflexivity|].
    exists x. destruct (Hplan x Hc) as [Hq Ht].
    apply validate_create_ok in Hc. destruct Hc as (_ & _ & _ & _ & _ & Hts & Hid).
    repeat split; assumption.
  - injection H as <- <-. eexists; split; [reflexivity|].
    left. split; [discriminate | reflexivity].
Qed.

Lemma qr_scan_phases req e d :
  qr_scan req e d =
  match scan_lookup req e d with
  | (Ok (inl r), d1) => (Ok r, d1)
  | (Ok (inr entryData), d1) => scan_create e entryData d1
  | (Throw f, d1) => (Throw f, d1)
  end.
Proof.
  unfold qr_scan, scan_lookup, scan_create, try_catch. rewrite bind_eq.
  destruct (qr_scan_entryData req e d) as [[[r|entryData]|f] d1]; reflexivity.
Qed.

Lemma qr_scan_result req e d out d' :
  qr_scan req e d = (out, d') -> exists r, out = Ok r /\ scanned e d r d'.
Proof.
  rewrite qr_scan_phases.
  destruct (scan_lookup req e d) as [o d1] eqn:E.
  apply scan_lookup_result in E. destruct E as (-> & step & -> & Hstep).
  destruct step as [r|entryData].
  - intros H. injection H as <- <-. exists r. split; [reflexivity|].
    left. split; [exact Hstep | reflexivity].
  - apply scan_create_result. exact Hstep.
Qed.

(** ** The middlewares *)

Lemma authenticateToken_eq req e d :
  authenticateToken req e d =
  (Ok match bearer_token (req_authorization req) with
      | None => inl (error_json 401 "Access denied" "No token provided")
      | Some token =>
          if String.eqb token "" then
            inl (error_json 401 "Access denied" "No token provided")
          else match jwt_verify token (JWT_SECRET e) (now e) with
               | Some user => inr (set_user req user)
               | None => inl (error_json 403 "Invalid token"
                                "Token is not valid or has expired")
               end
      end, d).
Proof.
  unfold authenticateToken, try_catch, respond, next, ret.
  destruct (bearer_token _) as [token|]; [|reflexivity].
  destruct (String.eqb token ""); [reflexivity|].
  rewrite bind_lift. unfold verifyToken.
  destruct (jwt_verify _ _ _); reflexivity.
Qed.

Lemma chain_through mws h req e d :
  chain mws h req e d =
  match through mws req e d with
  | (Ok (inr req'), d') => h req' e d'
  | (Ok (inl r), d') => (Ok r, d')
  | (Throw f, d') => (Throw f, d')
  end.
Proof.
  revert req d. induction mws as [|m rest IH]; intros req d; simpl; [reflexivity|].
  rewrite !bind_eq. destruct (m req e d) as [[[r|req']|f] d1]; try reflexivity.
  apply IH.
Qed.

(** The middlewares only read the store, and what they answer is never a
    201. *)
Lemma reads_ret {A : Type} (a : A) (Q : A -> Prop) : Q a -> reads (ret a) Q.
Proof. intros H d o d' E. injection E as <- <-. split; [reflexivity | exact H]. Qed.

Lemma reads_throw {A : Type} f (Q : A -> Prop) : reads (throw f) Q.
Proof. intros d o d' E. injection E as <- <-. split; [reflexivity | exact I]. Qed.

Lemma reads_lift {A : Type} (o : outcome A) : reads (lift o) (fun _ => True).
Proof.
  intros d o' d' E. injection E as <- <-. split; [reflexivity|]. destruct o; exact I.
Qed.

Lemma reads_read {A : Type} (f : database -> A) : reads (read f) (fun _ => True).
Proof. intros d o d' E. injection E as <- <-. split; [reflexivity | exact I]. Qed.

Lemma reads_bind {A B : Type} (m : task A) (k : A -> task B) (P : A -> Prop)
  (Q : B -> Prop) :
  reads m P -> (forall a, reads (k a) Q) -> reads (bind m k) Q.
Proof.
  intros Hm Hk d o d' E. rewrite bind_eq in E.
  destruct (m d) as [[a|f] d1] eqn:Em.
  - destruct (Hm d _ _ Em) as [-> _]. apply (Hk a d o d' E).
  - destruct (Hm d _ _ Em) as [-> _]. injection E as <- <-.
    split; [reflexivity | exact I].
Qed.

Lemma reads_try_catch {A : Type} (m : task A) (h : failure -> task A) (Q : A -> Prop) :
  reads m Q -> (forall f, reads (h f) Q) -> reads (try_catch m h) Q.
Proof.
  intros Hm Hh d o d' E. unfold try_catch in E.
  destruct (m d) as [[a|f] d1] eqn:Em.
  - injection E as <- <-. apply (Hm d _ _ Em).
  - destruct (Hm d _ _ Em) as [-> _]. apply (Hh f d o d' E).
Qed.

Lemma reads_findUnique_admin v : reads (prisma_admin_findUnique v) (fun _ => True).
Proof. apply (reads_bind _ _ _ _ (reads_lift _)). intros i. apply reads_read. Qed.

Lemma reads_findUnique_resident v : reads (prisma_resident_findUnique v) (fun _ => True).
Proof. apply (reads_bind _ _ _ _ (reads_lift _)). intros i. apply reads_read. Qed.

Lemma reads_findUnique_serviceProvider v :
  reads (prisma_serviceProvider_findUnique v) (fun _ => True).
Proof. apply (reads_bind _ _ _ _ (reads_lift _)). intros i. apply reads_read. Qed.

Lemma reads_findUnique_employee v : reads (prisma_employee_findUnique v) (fun _ => True).
Proof. apply (reads_bind _ _ _ _ (reads_lift _)). intros i. apply reads_read. Qed.

Ltac reads_walk :=
  repeat first
    [ apply reads_throw
    | apply reads_ret
    | eapply reads_bind;
      [ first [ apply reads_lift | apply reads_findUnique_admin
              | apply reads_findUnique_resident | apply reads_findUnique_serviceProvider
              | apply reads_findUnique_employee ]
      | intros ]
    | match goal with
      | |- reads (if ?c then _ else _) _ => destruct c
      | |- reads (match ?x with _ => _ end) _ => destruct x
      | |- reads (let _ := _ in _) _ => cbv zeta
      end
    | progress unfold respond, next, found_or_404 ];
  try solve [ exact I | simpl; discriminate ].

Lemma try_catch_reads {A : Type} (m : task A) (h : failure -> task A) (Q : A -> Prop) :
  reads m Q -> (forall f, exists a, h f = ret a /\ Q a) ->
  forall d, exists a, try_catch m h d = (Ok a, d) /\ Q a.
Proof.
  intros Hm Hh d. unfold try_catch.
  destruct (m d) as [[a|f] d1] eqn:Em; destruct (Hm d _ _ Em) as [-> Ha].
  - exists a. split; [reflexivity | exact Ha].
  - destruct (Hh f) as (a & -> & Hq). exists a. split; [reflexivity | exact Hq].
Qed.

Ltac refused := intros; eexists; split; [reflexivity | simpl; discriminate].

Lemma authenticateToken_verdict req e d :
  exists x, authenticateToken req e d = (Ok x, d) /\ refusal x.
Proof. apply try_catch_reads; [reads_walk | refused]. Qed.

Lemma verifyUserExists_verdict req e d :
  exists x, verifyUserExists req e d = (Ok x, d) /\ refusal x.
Proof. apply try_catch_reads; [reads_walk | refused]. Qed.

Lemma authorizeRoles_verdict roles req e d :
  exists x, authorizeRoles roles req e d = (Ok x, d) /\ refusal x.
Proof.
  unfold authorizeRoles, respond, next, ret.
  destruct (req_user req) as [u|]; [|refused].
  destruct (negb (truthy u)); [refused|].
  destruct (negb (existsb _ roles)); [refused|].
  eexists. split; [reflexivity | exact I].
Qed.

(** Behind the admin chain a handler either is not reached, and then the
    answer is not a 201 and nothing is written, or runs on the request the
    chain hands over, on the same store. *)
Lemma admin_chain_cases h req e d out d' :
  chain (authenticateAndVerify ++ [requireAdmin]) h req e d = (out, d') ->
  (exists r, out = Ok r /\ status r <> 201 /\ d' = d) \/
  (exists req', h req' e d = (out, d')).
Proof.
  simpl chain. rewrite bind_eq.
  destruct (authenticateToken_verdict req e d) as ([r|req1] & -> & H1).
  { intros E. injection E as <- <-. left. exists r. repeat split. exact H1. }
  rewrite bind_eq.
  destruct (verifyUserExists_verdict req1 e d) as ([r|req2] & -> & H2).
  { intros E. injection E as <- <-. left. exists r. repeat split. exact H2. }
  rewrite bind_eq. unfold requireAdmin.
  destruct (authorizeRoles_verdict ["admin"] req2 e d) as ([r|req3] & -> & H3).
  { intros E. injection E as <- <-. left. exists r. repeat split. exact H3. }
  intros E. right. exists req3. exact E.
Qed.

(** What a request to POST /qr-scan does to the store. *)
Lemma route_qr_scan_result req e d out d' :
  route_qr_scan req e d = (out, d') -> exists r, out = Ok r /\ scanned e d r d'.
Proof.
  intros H. apply admin_chain_cases in H.
  destruct H as [(r & -> & Hs & ->) | (req' & H)].
  - exists r. split; [reflexivity|]. left. split; [exact Hs | reflexivity].
  - apply qr_scan_result in H. exact H.
Qed.

(** ** C1 *)

(** C1: a QR scan that POST /qr-scan accepts (answers 201) appends one gate entry
    whose type is ENTRY exactly when no earlier entry matches the person's
    lookup key or the most recent such entry has type EXIT, and is EXIT
    otherwise. *)
Theorem qr_scan_toggles_entry_exit req e d r d' :
  route_qr_scan req e d = (Ok r, d') ->
  status r = 201 ->
  exists x,
    gateEntries d' = gateEntries d ++ [x] /\
    qr_key (key_of_entry x) /\
    let previous := filter (entry_matches (key_of_entry x)) (gateEntries d) in
    let entry_case :=
      previous = [] \/
      exists l, latest previous = Some l /\ most_recent previous l /\ type l = EXIT in
    (type x = ENTRY <-> entry_case) /\ (type x = EXIT <-> ~ entry_case).
Proof.
  intros H Hs.
  apply route_qr_scan_result in H.
  destruct H as (r0 & Hr & [[Hne _] | [_ (x & -> & Hk & Ht & _)]]).
  { injection Hr as <-. contradiction. }
  exists x. split; [reflexivity|]. split; [assumption|].
  cbv zeta. unfold toggled in Ht. simpl gateEntries in *.
  destruct (latest (filter (entry_matches (key_of_entry x)) (gateEntries d)))
    as [l|] eqn:Hl; simpl in Ht.
  - pose proof (latest_most_recent _ _ Hl) as Hm.
    assert (Hnonempty : filter (entry_matches (key_of_entry x)) (gateEntries d) <> []).
    { intros E. rewrite E in Hl. discriminate. }
    destruct (type l) eqn:Tl; simpl in Ht.
    + (* the last one is an ENTRY: this one is an EXIT *)
      assert (Hno : ~ (filter (entry_matches (key_of_entry x)) (gateEntries d) = [] \/
                       exists l0, Some l = Some l0 /\
                                  most_recent (filter (entry_matches (key_of_entry x))
                                                 (gateEntries d)) l0 /\ type l0 = EXIT)).
      { intros [E | (l0 & E & _ & T0)]; [contradiction|].
        injection E as <-. congruence. }
      rewrite Ht. intuition congruence.
    + assert (Hyes : filter (entry_matches (key_of_entry x)) (gateEntries d) = [] \/
                     exists l0, Some l = Some l0 /\
                                most_recent (filter (entry_matches (key_of_entry x))
                                               (gateEntries d)) l0 /\ type l0 = EXIT).
      { right. exists l. repeat split; try assumption; apply Hm. }
      rewrite Ht. intuition congruence.
  - apply latest_none in Hl. rewrite Ht, Hl. intuition congruence.
Qed.

(** ** C3 *)

Lemma increasing_snoc l x :
  increasing l -> (forall y, In y l -> createdAt y < createdAt x) ->
  increasing (l ++ [x]).
Proof.
  induction l as [|a r IH]; simpl; intros Hl Hx.
  - split; [intros y []| exact I].
  - destruct Hl as [Ha Hr]. split.
    + intros y Hy. apply in_app_or in Hy. destruct Hy as [Hy | [<- | []]].
      * apply Ha; assumption.
      * apply Hx. left; reflexivity.
    + apply IH; [assumption|]. intros y Hy. apply Hx. right; assumption.
Qed.

Lemma increasing_filter p l : increasing l -> increasing (filter p l).
Proof.
  induction l as [|a r IH]; simpl; intros Hl; [exact I|].
  destruct Hl as [Ha Hr]. destruct (p a); simpl; [split|]; try (apply IH; assumption).
  intros y Hy. apply filter_In in Hy. apply Ha. apply Hy.
Qed.

Lemma latest_of_increasing g y : increasing (g ++ [y]) -> latest (g ++ [y]) = Some y.
Proof.
  induction g as [|a g IH]; simpl; intros H; [reflexivity|].
  destruct H as [Ha Hg]. rewrite (IH Hg).
  assert (createdAt a < createdAt y) as Hlt.
  { apply Ha. apply in_or_app. right. left. reflexivity. }
  apply Z.ltb_lt in Hlt. rewrite Hlt. reflexivity.
Qed.

Lemma filter_snoc p (l : list GateEntry) x :
  filter p (l ++ [x]) = filter p l ++ (if p x then [x] else []).
Proof. rewrite filter_app. simpl. destruct (p x); reflexivity. Qed.

Lemma no_equal_neighbours_snoc g y x :
  no_equal_neighbours (g ++ [y]) -> type y <> type x ->
  no_equal_neighbours ((g ++ [y]) ++ [x]).
Proof.
  induction g as [|a g IH]; simpl; intros H Hne.
  - split; [assumption | exact I].
  - destruct (g ++ [y]) as [|b t] eqn:E.
    + destruct g; discriminate.
    + simpl. destruct H as [Hab Ht]. split; [assumption|].
      apply IH; assumption.
Qed.

Lemma strictly_alternates_snoc f x :
  strictly_alternates f ->
  (f = [] -> type x = ENTRY) ->
  (forall g y, f = g ++ [y] -> type y <> type x) ->
  strictly_alternates (f ++ [x]).
Proof.
  intros [Hfirst Hnb] Hempty Hlast.
  destruct f as [|a t].
  - simpl. split; [auto | exact I].
  - destruct (exists_last (l := a :: t)) as (g & y & E); [discriminate|].
    split; [exact Hfirst|].
    rewrite E in *. apply no_equal_neighbours_snoc; [assumption|].
    apply (Hlast g y eq_refl).
Qed.

Lemma field_matches_some s x : field_matches (Some s) x = true -> s = x.
Proof. simpl. apply String.eqb_eq. Qed.

(** A row that a handler filter matches was scanned under that filter. *)
Lemma qr_key_of_match k x : qr_key k -> entry_matches k x = true -> k = key_of_entry x.
Proof.
  intros Hk Hm. unfold entry_matches in Hm.
  repeat (apply andb_prop in Hm; destruct Hm as [Hm ?]).
  destruct Hk; cbn [on_person on_apartment on_vehicle on_entryType] in *;
    repeat match goal with
           | H : field_matches (Some _) _ = true |- _ => apply field_matches_some in H
           end; subst;
    unfold key_of_entry;
    match goal with H : _ = entryType x |- _ => rewrite <- H end; reflexivity.
Qed.

Lemma toggled_differs w log g y :
  filter (entry_matches w) log = g ++ [y] ->
  increasing log ->
  type y <> toggled w log.
Proof.
  intros E Hinc. unfold toggled.
  pose proof (increasing_filter (entry_matches w) log Hinc) as Hf.
  rewrite E in *. rewrite (latest_of_increasing _ _ Hf). simpl.
  destruct (type y); simpl; discriminate.
Qed.

Lemma toggled_first w log :
  filter (entry_matches w) log = [] -> toggled w log = ENTRY.
Proof. intros E. unfold toggled. rewrite E. reflexivity. Qed.

(** A row appended by a scan, stamped later than every row, keeps the log
    increasing and alternating. *)
Lemma scanned_preserves e d r d' :
  increasing (gateEntries d) -> alternation (gateEntries d) ->
  stamped_later e d ->
  scanned e d r d' ->
  increasing (gateEntries d') /\ alternation (gateEntries d').
Proof.
  intros Hinc Halt Hlater [[_ ->] | [_ (x & -> & Hk & Ht & Hts & _)]];
    [split; assumption|].
  simpl. split.
  - apply increasing_snoc; [assumption|]. rewrite Hts. assumption.
  - intros k Hq. rewrite filter_snoc.
    destruct (entry_matches k x) eqn:Hm; [| rewrite app_nil_r; apply Halt; assumption].
    apply (qr_key_of_match k x Hq) in Hm. subst k.
    apply strictly_alternates_snoc.
    + apply Halt; assumption.
    + intros E. rewrite Ht. apply toggled_first; assumption.
    + intros g y E. rewrite Ht. apply (toggled_differs _ _ g y); assumption.
Qed.

(** The middlewares of the route answer without a 201, or hand the request
    over, and leave the store alone. *)
Lemma admin_through_verdict req e d :
  exists x, through (authenticateAndVerify ++ [requireAdmin]) req e d = (Ok x, d) /\
            refusal x.
Proof.
  simpl through. rewrite bind_eq.
  destruct (authenticateToken_verdict req e d) as ([r|req1] & -> & H1).
  { exists (inl r). split; [reflexivity | exact H1]. }
  rewrite bind_eq.
  destruct (verifyUserExists_verdict req1 e d) as ([r|req2] & -> & H2).
  { exists (inl r). split; [reflexivity | exact H2]. }
  rewrite bind_eq. unfold requireAdmin.
  destruct (authorizeRoles_verdict ["admin"] req2 e d) as ([r|req3] & -> & H3).
  { exists (inl r). split; [reflexivity | exact H3]. }
  exists (inr req3). split; [reflexivity | exact I].
Qed.

Lemma route_scan_lookup_result req e d out d' :
  route_scan_lookup req e d = (out, d') ->
  d' = d /\
  exists step, out = Ok step /\
               match step with
               | inl r => status r <> 201
               | inr entryData => planned e entryData d
               end.
Proof.
  unfold route_scan_lookup. rewrite bind_eq.
  destruct (admin_through_verdict req e d) as ([r|req'] & -> & Hx).
  - intros H. injection H as <- <-. split; [reflexivity|].
    exists (inl r). split; [reflexivity | exact Hx].
  - apply scan_lookup_result.
Qed.

(** A request to the route is its lookup followed at once by its create. *)
Lemma route_qr_scan_phases req e d :
  route_qr_scan req e d =
  match route_scan_lookup req e d with
  | (Ok (inl r), d1) => (Ok r, d1)
  | (Ok (inr entryData), d1) => scan_create e entryData d1
  | (Throw f, d1) => (Throw f, d1)
  end.
Proof.
  unfold route_qr_scan, route_scan_lookup. rewrite chain_through, bind_eq.
  destruct (through _ req e d) as [[[r|req']|f] d1]; try reflexivity.
  apply qr_scan_phases.
Qed.

(** A request handled in one piece, from a state with no scan in flight. *)
Lemma reach_scan may_start stamp_ok d req e out d' :
  qr_reachable may_start stamp_ok [] d ->
  may_start [] -> stamp_ok e d ->
  route_qr_scan req e d = (out, d') ->
  qr_reachable may_start stamp_ok [] d'.
Proof.
  intros Hreach Hstart Hstamp H. rewrite route_qr_scan_phases in H.
  destruct (route_scan_lookup req e d) as [o d1] eqn:E.
  pose proof (reach_lookup _ _ _ _ _ _ _ _ Hreach Hstart E) as Hl.
  destruct (route_scan_lookup_result _ _ _ _ _ E) as (-> & step & -> & _).
  destruct step as [r|entryData].
  - injection H as <- <-. exact Hl.
  - simpl in Hl.
    apply (reach_create may_start stamp_ok [] {| scan_env := e; scan_entryData := entryData |}
             [] d out d' Hl Hstamp H).
Qed.

(** C3, as amended: in every log that requests to the QR-scan endpoint
    alone build from the empty log, the scans handled one at a time (none
    starts while another is between its lookup and its create) and each row
    stamped strictly later than the rows already there, the records of every
    lookup key alternate strictly, starting with an ENTRY (and the log is in
    increasing order of createdAt); at most one scan is in flight, and the
    row it is about to create was planned on the rows of the log as it
    is. *)
Theorem qr_scans_alternate waiting d :
  qr_reachable one_at_a_time stamped_later waiting d ->
  (increasing (gateEntries d) /\ alternation (gateEntries d)) /\
  (waiting = [] \/
   exists scan, waiting = [scan] /\ planned (scan_env scan) (scan_entryData scan) d).
Proof.
  induction 1 as [d E
                 | waiting d req e out d' _ [Hlog _] Hstart Hlookup
                 | before scan after d out d' _ [[Hinc Halt] Hwait] Hstamp Hcreate].
  - rewrite E. split; [|left; reflexivity].
    split; [exact I|]. intros k _. simpl. split; exact I.
  - unfold one_at_a_time in Hstart. subst waiting.
    apply route_scan_lookup_result in Hlookup.
    destruct Hlookup as (-> & step & -> & Hstep).
    split; [exact Hlog|]. destruct step as [r|entryData]; [left; reflexivity|].
    right. eexists. split; [reflexivity | exact Hstep].
  - destruct Hwait as [E | (scan0 & E & Hplan)].
    { destruct before; discriminate. }
    assert (before = [] /\ scan = scan0 /\ after = []) as (-> & -> & ->).
    { destruct before as [|b0 before]; simpl in E.
      - injection E as -> ->. repeat split.
      - injection E as _ E. destruct before; discriminate. }
    split; [|left; reflexivity].
    destruct (scan_create_result _ _ _ _ _ Hplan Hcreate) as (r & _ & Hscanned).
    apply (scanned_preserves (scan_env scan0) d r d'); assumption.
Qed.

(** ** C4 *)

Lemma truthy_prop_not_null v k : truthy (prop v k) = true -> nullish v = false.
Proof. destruct v; simpl; intros H; try discriminate; reflexivity. Qed.

Lemma is_str_prop_not_null v k lit : is_str (prop v k) lit = true -> nullish v = false.
Proof. destruct v; simpl; intros H; try discriminate; reflexivity. Qed.

Lemma date_lt_iff t v : date_lt t (Date_of v) = true <-> exists x, Date_of v = Some x /\ t < x.
Proof.
  unfold date_lt. destruct (Date_of v) as [x|].
  - rewrite Z.ltb_lt. split; [intros H; exists x; auto | intros (y & E & H); congruence].
  - split; [discriminate | intros (y & E & _); discriminate].
Qed.

Lemma date_gt_iff t v : date_gt t (Date_of v) = true <-> exists x, Date_of v = Some x /\ x < t.
Proof.
  unfold date_gt. destruct (Date_of v) as [x|].
  - rewrite Z.ltb_lt. split; [intros H; exists x; auto | intros (y & E & H); congruence].
  - split; [discriminate | intros (y & E & _); discriminate].
Qed.

Lemma expired_iff e parsed :
  date_lt (now e) (Date_of (prop parsed "validFrom"))
  || date_gt (now e) (Date_of (prop parsed "validUntil")) = true <->
  before_window e parsed \/ after_window e parsed.
Proof.
  rewrite orb_true_iff, date_lt_iff, date_gt_iff. reflexivity.
Qed.

(** The switch on a guest payload whose dates convert, from the window
    check on. *)
Lemma guest_scan_eq req e d parsed :
  guest_scan req parsed ->
  dates_convert parsed ->
  qr_scan_entryData req e d =
  (if date_lt (now e) (Date_of (prop parsed "validFrom"))
      || date_gt (now e) (Date_of (prop parsed "validUntil"))
   then ret (inl (error_json 400 "QR Code expired"
                    "Guest QR code is not valid at this time"))
   else
     lastGuestEntry <- prisma_gateEntry_findFirst
       {| where_person := prop parsed "guestName";
          where_apartment := prop parsed "hostApartment";
          where_vehicle := JUndefined;
          where_entryType := JStr "Guest" |} ;;
     vehicle <-
       (if truthy (prop parsed "licensePlate") then
          vehicleType <- to_string (prop parsed "vehicleType") ;;
          licensePlate <- to_string (prop parsed "licensePlate") ;;
          ret (JStr (vehicleType +++ " (" +++ licensePlate +++ ")"))
        else ret (js_or (prop parsed "vehicleType") (JStr "None"))) ;;
     hostResident <- prisma_resident_findFirst_apartment (prop parsed "hostApartment") ;;
     ret (inr {| data_gate := JStr "Main Gate";
                 data_method := JStr "QR Code";
                 data_type := type_literal (is_entry lastGuestEntry);
                 data_person := prop parsed "guestName";
                 data_apartment := prop parsed "hostApartment";
                 data_entryType := JStr "Guest";
                 data_vehicle := vehicle;
                 data_residentId :=
                   match hostResident with
                   | Some h => JStr (res_id h)
                   | None => JUndefined
                   end |})) d.
Proof.
  intros (Hq & Hc & Hp & Ht) (Hfrom & Huntil).
  unfold qr_scan_entryData. rewrite bind_not_null.
  rewrite (truthy_prop_not_null _ _ Hq), Hq, Hc, Hp. cbn [negb]. cbv iota beta.
  rewrite bind_not_null, (is_str_prop_not_null _ _ _ Ht), Ht.
  rewrite bind_new_Date, Hfrom, bind_new_Date, Huntil.
  reflexivity.
Qed.

Lemma entry_type_literal_ok b :
  entry_type_value (type_literal b) = Ok (if b then ENTRY else EXIT).
Proof. destruct b; reflexivity. Qed.

Lemma find_some_in {A : Type} (p : A -> bool) l x : find p l = Some x -> In x l.
Proof. intros H. apply find_some in H. apply H. Qed.

(** The vehicle text of a guest payload whose vehicle fields are in order:
    a value the vehicle column takes. *)
Lemma guest_vehicle_string parsed d :
  guest_vehicle_ok parsed ->
  exists t v,
    (if truthy (prop parsed "licensePlate") then
       vehicleType <- to_string (prop parsed "vehicleType") ;;
       licensePlate <- to_string (prop parsed "licensePlate") ;;
       ret (JStr (vehicleType +++ " (" +++ licensePlate +++ ")"))
     else ret (js_or (prop parsed "vehicleType") (JStr "None"))) d = (Ok t, d) /\
    default_string "GateEntry" "vehicle" "None" t = Ok v.
Proof.
  intros [Hplate Hnone]. destruct (truthy (prop parsed "licensePlate")) eqn:Hlp.
  - destruct (Hplate eq_refl) as [Hvt Hlic].
    rewrite bind_to_string, Hvt, bind_to_string, Hlic.
    eexists. eexists. split; reflexivity.
  - destruct (Hnone eq_refl) as [H | (s & H)].
    + unfold js_or. rewrite H. eexists. eexists. split; reflexivity.
    + rewrite H. unfold js_or. destruct (truthy (JStr s)); eexists; eexists; split; reflexivity.
Qed.

(** C4, as amended: for a guest scan whose validFrom and validUntil convert
    to dates, a scan outside its window is answered 400 "QR Code expired" and
    leaves the store as it was; a scan that is neither before nor after its
    window, whose guestName and hostApartment are strings and whose vehicle
    fields give a string, creates exactly one gate entry, in a store whose
    resident ids are ObjectIds. *)
Theorem guest_scan_window req e d parsed :
  guest_scan req parsed ->
  dates_convert parsed ->
  (before_window e parsed \/ after_window e parsed ->
   qr_scan req e d =
   (Ok (error_json 400 "QR Code expired" "Guest QR code is not valid at this time"), d)) /\
  (~ before_window e parsed -> ~ after_window e parsed ->
   forall name apt,
     prop parsed "guestName" = JStr name ->
     prop parsed "hostApartment" = JStr apt ->
     guest_vehicle_ok parsed ->
     resident_ids_ok d ->
     exists r x,
       qr_scan req e d = (Ok r, set_gateEntries (gateEntries d ++ [x]) d) /\
       status r = 201 /\ person x = name /\ apartment x = apt /\ entryType x = "Guest").
Proof.
  intros Hg Hd. split.
  - intros Hw. unfold qr_scan, try_catch.
    rewrite bind_eq, (guest_scan_eq req e d parsed Hg Hd).
    apply expired_iff in Hw. rewrite Hw. reflexivity.
  - intros Hb Ha name apt Hn Hapt Hv Hids.
    unfold qr_scan, try_catch.
    rewrite bind_eq, (guest_scan_eq req e d parsed Hg Hd).
    assert (Hw : date_lt (now e) (Date_of (prop parsed "validFrom"))
                 || date_gt (now e) (Date_of (prop parsed "validUntil")) = false).
    { destruct (_ || _) eqn:E; [|reflexivity].
      apply expired_iff in E. destruct E; contradiction. }
    rewrite Hw.
    rewrite bind_eq, findFirst_eq, Hn, Hapt. cbn [validate_where where_person
      where_apartment where_vehicle where_entryType string_filter obind].
    destruct (guest_vehicle_string parsed d Hv) as (t & v & Et & Ev).
    rewrite bind_eq, Et.
    rewrite bind_eq, resident_findFirst_eq. cbn [string_filter].
    unfold ret at 1. cbv beta iota.
    rewrite record_entry_eq.
    unfold validate_create.
    cbn [data_type data_person data_apartment data_entryType data_vehicle data_gate
         data_method data_residentId].
    rewrite entry_type_literal_ok, Ev.
    cbn [obind required_string default_string].
    destruct (find _ (residents d)) as [h|] eqn:Hf.
    + apply find_some_in in Hf. apply Hids in Hf.
      cbn [optional_objectId]. rewrite Hf. cbn [obind]. cbv zeta.
      eexists; eexists; split; [reflexivity|]. repeat split.
    + cbn [optional_objectId obind]. cbv zeta.
      eexists; eexists; split; [reflexivity|]. repeat split.
Qed.

(** ** C9 *)

(** C9: GET /stats/today reports currentOccupancy = max(0, totalEntries -
    totalExits), where the two totals count today's rows (from the local
    midnight to the next one) of type ENTRY and EXIT; the occupancy is never
    negative, and is 0 when the exits outnumber the entries. *)
Theorem stats_today_occupancy req e d :
  let today := startOfDay (now e) in
  let tomorrow := nextDay today in
  let created_today x := (today <=? createdAt x) && (createdAt x <? tomorrow) in
  let totalEntries :=
    count (fun x => EntryType_eqb (type x) ENTRY && created_today x) (gateEntries d) in
  let totalExits :=
    count (fun x => EntryType_eqb (type x) EXIT && created_today x) (gateEntries d) in
  exists r statistics occupancy,
    stats_today req e d = (Ok r, d) /\
    status r = 200 /\
    assoc "statistics" (body r) = Some statistics /\
    prop statistics "totalEntries" = JNum totalEntries /\
    prop statistics "totalExits" = JNum totalExits /\
    prop statistics "currentOccupancy" = JNum occupancy /\
    occupancy = Z.max 0 (totalEntries - totalExits) /\
    0 <= occupancy /\
    (totalEntries <= totalExits -> occupancy = 0).
Proof.
  cbv zeta.
  set (totalEntries := count _ (gateEntries d)).
  set (totalExits := count _ (gateEntries d)).
  unfold stats_today, try_catch.
  repeat rewrite bind_eq. unfold prisma_gateEntry_count, read, ret.
  cbv beta iota.
  eexists. eexists. exists (Z.max 0 (totalEntries - totalExits)).
  split; [reflexivity|]. split; [reflexivity|]. split; [reflexivity|].
  split; [reflexivity|]. split; [reflexivity|]. split; [reflexivity|].
  split; [reflexivity|]. split; lia.
Qed.

(** ** C8 *)

Lemma count_app {A : Type} (p : A -> bool) l1 l2 :
  count p (l1 ++ l2) = count p l1 + count p l2.
Proof. unfold count. rewrite filter_app, length_app. lia. Qed.

Lemma count_skip {A : Type} (p : A -> bool) l1 x l2 :
  p x = false -> count p (l1 ++ x :: l2) = count p (l1 ++ l2).
Proof.
  intros H. rewrite !count_app. unfold count at 2. simpl. rewrite H. reflexivity.
Qed.

(** C8: the admin dashboard reports as pending the number of bills with
    status PENDING, as paid the number of those with status PAID, and as
    overdue the number of the PENDING bills whose dueDate is strictly before
    the current time; a bill whose status is OVERDUE, a value the
    bill-update schema accepts, adds to none of the three. *)
Theorem admin_stats_bill_counts req e d :
  let bills := maintenanceBills d in
  let pendingBills := count (fun b => BillStatus_eqb (bill_status b) PENDING) bills in
  let paidBills := count (fun b => BillStatus_eqb (bill_status b) PAID) bills in
  let overdueBills :=
    count (fun b => BillStatus_eqb (bill_status b) PENDING && (bill_dueDate b <? now e))
          bills in
  exists r statistics,
    admin_stats req e d = (Ok r, d) /\
    status r = 200 /\
    assoc "statistics" (body r) = Some statistics /\
    prop (prop statistics "maintenanceBills") "pending" = JNum pendingBills /\
    prop (prop statistics "maintenanceBills") "paid" = JNum paidBills /\
    prop (prop statistics "maintenanceBills") "overdue" = JNum overdueBills /\
    (forall before b after,
       bills = before ++ b :: after -> bill_status b = OVERDUE ->
       pendingBills = count (fun b => BillStatus_eqb (bill_status b) PENDING)
                        (before ++ after) /\
       paidBills = count (fun b => BillStatus_eqb (bill_status b) PAID) (before ++ after) /\
       overdueBills =
         count (fun b => BillStatus_eqb (bill_status b) PENDING && (bill_dueDate b <? now e))
               (before ++ after)) /\
    z_object BillUpdateSchema (JObj [("status", JStr "OVERDUE")]) =
      Ok (JObj [("status", JStr "OVERDUE")]).
Proof.
  cbv zeta. unfold admin_stats, try_catch.
  repeat rewrite bind_eq. unfold prisma_gateEntry_count, read, ret.
  cbv beta iota.
  eexists. eexists.
  split; [reflexivity|]. split; [reflexivity|]. split; [reflexivity|].
  split; [reflexivity|]. split; [reflexivity|]. split; [reflexivity|].
  split; [|reflexivity].
  intros before b after -> Hb.
  repeat split; apply count_skip; rewrite Hb; reflexivity.
Qed.

(** The bill-update endpoint stores the status OVERDUE when asked to. *)
Lemma bill_can_be_set_overdue req e d b :
  req_body req = JObj [("status", JStr "OVERDUE")] ->
  isObjectId (req_params_id req) = true ->
  find (fun x => String.eqb (bill_id x) (req_params_id req)) (maintenanceBills d) = Some b ->
  exists r,
    update_bill_status req e d =
      (Ok r, set_maintenanceBills
               (update_first (req_params_id req) (apply_update (Some OVERDUE) None)
                  (maintenanceBills d)) d) /\
    status r = 200.
Proof.
  intros Hbody Hid Hfind.
  assert (Hfu : prisma_maintenanceBill_findUnique (req_params_id req) d = (Ok (Some b), d)).
  { unfold prisma_maintenanceBill_findUnique, bind, lift, read, id_filter.
    rewrite Hid. cbv beta iota. rewrite Hfind. reflexivity. }
  assert (Hup : prisma_maintenanceBill_update (req_params_id req) (JStr "OVERDUE") (inl tt) d =
                (Ok (apply_update (Some OVERDUE) None b),
                 set_maintenanceBills
                   (update_first (req_params_id req) (apply_update (Some OVERDUE) None)
                      (maintenanceBills d)) d)).
  { unfold prisma_maintenanceBill_update, bind, lift, id_filter.
    rewrite Hid.
    change (bill_status_value (JStr "OVERDUE")) with (Ok (Some OVERDUE)).
    cbv beta iota. rewrite Hfind. reflexivity. }
  unfold update_bill_status, try_catch. rewrite bind_lift, Hbody.
  change (z_object BillUpdateSchema (JObj [("status", JStr "OVERDUE")]))
    with (Ok (JObj [("status", JStr "OVERDUE")])).
  cbv beta iota zeta. rewrite bind_eq, Hfu.
  change (prop (JObj [("status", JStr "OVERDUE")]) "status") with (JStr "OVERDUE").
  change (prop (JObj [("status", JStr "OVERDUE")]) "paidDate") with JUndefined.
  change (truthy (JStr "OVERDUE")) with true.
  change (is_str (JStr "OVERDUE") "PAID") with false.
  change (truthy JUndefined) with false.
  cbn [andb]. cbv beta iota. rewrite bind_eq, Hup.
  eexists. split; reflexivity.
Qed.

(** ** C10 *)

(** C10: POST /logout answers with success and leaves every stored record
    as it was; nothing is recorded or revoked, so the token presented at
    logout still authenticates a later request for as long as it
    verifies. *)
Theorem logout_changes_nothing req e d :
  snd (route_logout req e d) = d /\
  forall token user,
    bearer_token (req_authorization req) = Some token ->
    token <> "" ->
    jwt_verify token (JWT_SECRET e) (now e) = Some user ->
    fst (route_logout req e d) =
      Ok {| status := 200; body := [("message", JStr "Logout successful")] |} /\
    forall e' user',
      jwt_verify token (JWT_SECRET e') (now e') = Some user' ->
      authenticateToken req e' (snd (route_logout req e d)) =
        (Ok (inr (set_user req user')), d).
Proof.
  assert (Hframe : snd (route_logout req e d) = d).
  { unfold route_logout. rewrite chain_through. simpl through.
    rewrite bind_eq, authenticateToken_eq.
    destruct (bearer_token _) as [token|]; [|reflexivity].
    destruct (String.eqb token ""); [reflexivity|].
    destruct (jwt_verify _ _ _); reflexivity. }
  split; [exact Hframe|].
  intros token user Hb Hne Hv.
  assert (Hempty : String.eqb token "" = false).
  { apply String.eqb_neq. assumption. }
  split.
  - unfold route_logout. rewrite chain_through. simpl through.
    rewrite bind_eq, authenticateToken_eq, Hb, Hempty, Hv. reflexivity.
  - intros e' user' Hv'. rewrite Hframe.
    rewrite authenticateToken_eq, Hb, Hempty, Hv'. reflexivity.
Qed.

(** ** C2 *)

Lemma unique_id_ok model v i :
  unique_id model v = Ok i -> v = JStr i /\ isObjectId i = true.
Proof.
  unfold unique_id, id_filter. destruct v; try discriminate.
  destruct (isObjectId s) eqn:E; [|discriminate].
  intros H. injection H as <-. split; [reflexivity | assumption].
Qed.

Lemma admin_findUnique_eq v d :
  prisma_admin_findUnique v d =
  (match unique_id "Admin" v with
   | Ok i => Ok (find (fun a => String.eqb (admin_id a) i) (admins d))
   | Throw f => Throw f
   end, d).
Proof.
  unfold prisma_admin_findUnique. rewrite bind_lift.
  destruct (unique_id _ v); reflexivity.
Qed.

Lemma resident_findUnique_eq v d :
  prisma_resident_findUnique v d =
  (match unique_id "Resident" v with
   | Ok i => Ok (find (fun r => String.eqb (res_id r) i) (residents d))
   | Throw f => Throw f
   end, d).
Proof.
  unfold prisma_resident_findUnique. rewrite bind_lift.
  destruct (unique_id _ v); reflexivity.
Qed.

Lemma serviceProvider_findUnique_eq v d :
  prisma_serviceProvider_findUnique v d =
  (match unique_id "ServiceProvider" v with
   | Ok i => Ok (find (fun p => String.eqb (sp_id p) i) (serviceProviders d))
   | Throw f => Throw f
   end, d).
Proof.
  unfold prisma_serviceProvider_findUnique. rewrite bind_lift.
  destruct (unique_id _ v); reflexivity.
Qed.

Lemma employee_findUnique_eq v d :
  prisma_employee_findUnique v d =
  (match unique_id "Employee" v with
   | Ok i => Ok (find (fun p => String.eqb (emp_id p) i) (employees d))
   | Throw f => Throw f
   end, d).
Proof.
  unfold prisma_employee_findUnique. rewrite bind_lift.
  destruct (unique_id _ v); reflexivity.
Qed.

(** The admin case of [verifyUserExists]: the account has to exist, and
    nothing is asked of its status. *)
Lemma verify_admin req e d user oid a :
  req_user req = Some user ->
  truthy user = true ->
  is_str (prop user "type") "admin" = true ->
  ObjectId_new (prop user "id") = Some oid ->
  isObjectId oid = true ->
  find (fun x => String.eqb (admin_id x) oid) (admins d) = Some a ->
  verifyUserExists req e d = (Ok (inr req), d).
Proof.
  intros Hu Ht Hty Ho Hoid Hf.
  unfold verifyUserExists, try_catch. rewrite Hu, Ht. cbn [negb]. cbv iota zeta.
  rewrite Hty, Ho. rewrite bind_lift, bind_eq, admin_findUnique_eq.
  unfold unique_id, id_filter. rewrite Hoid, Hf. reflexivity.
Qed.

(** C2, at the input where the code departs from it: a request with a
    valid token of an admin whose account exists with status false passes
    authenticateToken, verifyUserExists and requireAdmin and reaches the
    handler. *)
Theorem inactive_admin_is_served req e d token user oid a :
  bearer_token (req_authorization req) = Some token ->
  token <> "" ->
  jwt_verify token (JWT_SECRET e) (now e) = Some user ->
  truthy user = true ->
  is_str (prop user "type") "admin" = true ->
  ObjectId_new (prop user "id") = Some oid ->
  isObjectId oid = true ->
  find (fun x => String.eqb (admin_id x) oid) (admins d) = Some a ->
  admin_status a = false ->
  through (authenticateAndVerify ++ [requireAdmin]) req e d =
    (Ok (inr (set_user req user)), d).
Proof.
  intros Hb Hne Hv Ht Hty Ho Hoid Hf _.
  assert (Hempty : String.eqb token "" = false).
  { apply String.eqb_neq. assumption. }
  simpl through.
  rewrite bind_eq, authenticateToken_eq, Hb, Hempty, Hv.
  rewrite bind_eq, (verify_admin _ e d user oid a); try assumption; try reflexivity.
  rewrite bind_eq. unfold requireAdmin, authorizeRoles.
  cbn [req_user set_user]. rewrite Ht. cbn [negb existsb]. rewrite Hty.
  reflexivity.
Qed.

Lemma verifyUserExists_passes req e d req' d' :
  verifyUserExists req e d = (Ok (inr req'), d') ->
  d' = d /\ req' = req /\
  exists user, req_user req = Some user /\ truthy user = true /\ account_accepted user d.
Proof.
  unfold verifyUserExists, try_catch, respond, next, found_or_404, ret.
  destruct (req_user req) as [user|]; [|discriminate].
  destruct (truthy user) eqn:Ht; cbn [negb]; [|discriminate]. cbv zeta.
  destruct (is_str (prop user "type") "admin") eqn:T1.
  { rewrite bind_lift. destruct (ObjectId_new (prop user "id")) as [oid|] eqn:Ho;
      [|discriminate].
    rewrite bind_eq, admin_findUnique_eq.
    destruct (unique_id "Admin" (JStr oid)) as [i|] eqn:Hi; [|discriminate].
    apply unique_id_ok in Hi. destruct Hi as [Hi _]. injection Hi as <-.
    destruct (find _ (admins d)) as [a|] eqn:Hf; cbn [is_some]; [|discriminate].
    intros H. injection H as <- <-. repeat split.
    exists user. repeat split; try assumption. left. split; [assumption|].
    exists oid, a. split; assumption. }
  destruct (is_str (prop user "type") "resident") eqn:T2.
  { rewrite bind_eq, resident_findUnique_eq.
    destruct (unique_id "Resident" (prop user "id")) as [i|] eqn:Hi; [|discriminate].
    apply unique_id_ok in Hi. destruct Hi as [Hi _].
    destruct (find _ (residents d)) as [x|] eqn:Hf; [|discriminate].
    destruct (String.eqb (res_status x) "Active") eqn:Hs; cbn [negb orb]; [|discriminate].
    destruct (ApprovalStatus_eqb (res_approvalStatus x) APPROVED) eqn:Ha;
      cbn [negb]; [|discriminate].
    intros H. injection H as <- <-. repeat split.
    exists user. repeat split; try assumption. right; left. split; [assumption|].
    exists i, x. repeat split; try assumption.
    - apply String.eqb_eq. assumption.
    - destruct (res_approvalStatus x); try discriminate; reflexivity. }
  destruct (is_str (prop user "type") "serviceProvider") eqn:T3.
  { rewrite bind_eq, serviceProvider_findUnique_eq.
    destruct (unique_id "ServiceProvider" (prop user "id")) as [i|] eqn:Hi; [|discriminate].
    apply unique_id_ok in Hi. destruct Hi as [Hi _].
    destruct (find _ (serviceProviders d)) as [x|] eqn:Hf; [|discriminate].
    destruct (sp_is_active x) eqn:Hs; cbn [negb]; [|discriminate].
    intros H. injection H as <- <-. repeat split.
    exists user. repeat split; try assumption. right; right; left.
    split; [assumption|]. exists i, x. repeat split; try assumption.
    unfold sp_is_active in Hs. destruct (sp_status x); try discriminate; reflexivity. }
  destruct (is_str (prop user "type") "employee") eqn:T4.
  { rewrite bind_eq, employee_findUnique_eq.
    destruct (unique_id "Employee" (prop user "id")) as [i|] eqn:Hi; [|discriminate].
    apply unique_id_ok in Hi. destruct Hi as [Hi _].
    destruct (find _ (employees d)) as [x|] eqn:Hf; [|discriminate].
    destruct (emp_is_active x) eqn:Hs; cbn [negb]; [|discriminate].
    intros H. injection H as <- <-. repeat split.
    exists user. repeat split; try assumption. right; right; right.
    split; [assumption|]. exists i, x. repeat split; try assumption.
    unfold emp_is_active in Hs. destruct (emp_status x); try discriminate; reflexivity. }
  discriminate.
Qed.

(** The rest of C2 holds: a request reaches a handler behind
    [authWithRole roles] only with a token that verifies, an account that
    [verifyUserExists] accepts, and a user type among the roles. *)
Lemma served_only_if roles req e d req' d' :
  through (authWithRole roles) req e d = (Ok (inr req'), d') ->
  d' = d /\
  exists token user,
    bearer_token (req_authorization req) = Some token /\
    jwt_verify token (JWT_SECRET e) (now e) = Some user /\
    req' = set_user req user /\
    account_accepted user d /\
    existsb (is_str (prop user "type")) roles = true.
Proof.
  unfold authWithRole, authenticateAndVerify. simpl through.
  rewrite bind_eq, authenticateToken_eq.
  destruct (bearer_token _) as [token|]; [|discriminate].
  destruct (String.eqb token ""); [discriminate|].
  destruct (jwt_verify _ _ _) as [user|] eqn:Hv; [|discriminate].
  rewrite bind_eq.
  destruct (verifyUserExists (set_user req user) e d) as [[[r|req1]|f] d1] eqn:Hver;
    try discriminate.
  apply verifyUserExists_passes in Hver.
  destruct Hver as (-> & -> & user1 & Hu & Ht & Hacc).
  cbn [req_user set_user] in Hu. injection Hu as <-.
  rewrite bind_eq. unfold authorizeRoles, respond, next, ret.
  cbn [req_user set_user]. rewrite Ht. cbn [negb].
  destruct (existsb _ roles) eqn:Hr; cbn [negb]; [|discriminate].
  intros H. injection H as <- <-. split; [reflexivity|].
  exists token, user. repeat split; assumption.
Qed.

(** ** Zod objects *)

Lemma z_object_ok shape input v :
  z_object shape input = Ok v ->
  z_issues shape input = [] /\ v = JObj (z_output shape input).
Proof.
  unfold z_object. destruct input; try discriminate.
  destruct (z_issues shape (JObj fields)); [|discriminate].
  intros H. injection H as <-. split; reflexivity.
Qed.

Lemma z_issues_nil shape input :
  z_issues shape input = [] ->
  forall k z, In (k, z) shape -> exists x, z_parse z (prop input k) = inr x.
Proof.
  induction shape as [|[k' z'] r IH]; simpl; intros H k z Hin; [contradiction|].
  destruct (z_parse z' (prop input k')) as [msg|x] eqn:E; [discriminate|].
  destruct Hin as [Heq|Hin].
  - injection Heq as <- <-. exists x. assumption.
  - apply IH; assumption.
Qed.

Lemma assoc_z_output_key shape input k x :
  assoc k (z_output shape input) = Some x -> In k (map fst shape).
Proof.
  induction shape as [|[k' z'] r IH]; simpl; [discriminate|].
  destruct (z_parse z' (prop input k')) as [msg|y].
  - intros H. right. apply IH. assumption.
  - destruct y; try (intros H; right; apply IH; assumption);
      simpl; destruct (String.eqb k k') eqn:E;
      try (intros H; right; apply IH; assumption);
      intros _; left; symmetry; apply String.eqb_eq; assumption.
Qed.

Lemma prop_z_output shape input k :
  NoDup (map fst shape) ->
  prop (JObj (z_output shape input)) k = parsed_field shape input k.
Proof.
  unfold parsed_field. cbn [prop].
  induction shape as [|[k' z'] r IH]; simpl; intros Hnd; [reflexivity|].
  inversion Hnd as [|? ? Hnotin Hnd']; subst.
  destruct (String.eqb k k') eqn:E.
  - apply String.eqb_eq in E. subst k'.
    assert (Hnone : assoc k (z_output r input) = None).
    { destruct (assoc k (z_output r input)) eqn:A; [|reflexivity].
      apply assoc_z_output_key in A. contradiction. }
    destruct (z_parse z' (prop input k)) as [msg|y].
    + rewrite Hnone. reflexivity.
    + destruct y; simpl; rewrite ?String.eqb_refl, ?Hnone; reflexivity.
  - specialize (IH Hnd').
    destruct (z_parse z' (prop input k')) as [msg|y]; [exact IH|].
    destruct y; simpl; rewrite ?E; exact IH.
Qed.

Lemma z_string_ok min msg v x :
  z_parse (z_string min msg) v = inr x -> x = v /\ exists s, v = JStr s.
Proof.
  simpl. destruct v; try discriminate.
  destruct (_ <=? _)%nat; [|discriminate].
  intros H. injection H as <-. split; [reflexivity | eauto].
Qed.

Lemma z_email_ok msg v x :
  z_parse (z_email msg) v = inr x -> x = v /\ exists s, v = JStr s.
Proof.
  simpl. destruct v; try discriminate.
  destruct (is_email s); [|discriminate].
  intros H. injection H as <-. split; [reflexivity | eauto].
Qed.

Lemma z_number_ok min msg v x :
  z_parse (z_number min msg) v = inr x -> x = v /\ exists n, v = JNum n.
Proof.
  simpl. destruct v; try discriminate.
  destruct (min <=? n); [|discriminate].
  intros H. injection H as <-. split; [reflexivity | eauto].
Qed.

Lemma z_optional_string_ok min msg v x :
  z_parse (z_optional (z_string min msg)) v = inr x ->
  x = v /\ (v = JUndefined \/ exists s, v = JStr s).
Proof.
  simpl. destruct v; try discriminate.
  - intros H. injection H as <-. split; [reflexivity | left; reflexivity].
  - destruct (_ <=? _)%nat; [|discriminate].
    intros H. injection H as <-. split; [reflexivity | right; eauto].
Qed.

Lemma registration_keys_distinct : NoDup (map fst ResidentRegistrationSchema).
Proof.
  unfold ResidentRegistrationSchema. simpl.
  repeat (constructor;
          [simpl; intros H; repeat (destruct H as [H|H]; [discriminate|]); exact H|]).
  constructor.
Qed.

(** What a body that passes the registration schema holds under the typed
    columns. *)
Lemma registration_fields body v :
  z_object ResidentRegistrationSchema body = Ok v ->
  (exists s, prop v "name" = JStr s) /\
  (exists s, prop v "apartment" = JStr s /\ prop body "apartment" = JStr s) /\
  (exists s, prop v "phone" = JStr s) /\
  (exists s, prop v "email" = JStr s /\ prop body "email" = JStr s) /\
  (exists n, prop v "familyMembers" = JNum n) /\
  (prop v "username" = JUndefined \/ exists s, prop v "username" = JStr s) /\
  (prop v "password" = JUndefined \/ exists s, prop v "password" = JStr s) /\
  exists fields, v = JObj fields.
Proof.
  intros H. apply z_object_ok in H. destruct H as [Hiss ->].
  pose proof (z_issues_nil _ _ Hiss) as Hall.
  rewrite !(prop_z_output _ _ _ registration_keys_distinct).
  unfold parsed_field.
  assert (In_schema : forall k z, assoc k ResidentRegistrationSchema = Some z ->
                                  In (k, z) ResidentRegistrationSchema).
  { intros k z. unfold ResidentRegistrationSchema.
    cbn [assoc]. intros Hk.
    repeat match type of Hk with
           | (if String.eqb k ?lit then _ else _) = _ =>
               destruct (String.eqb k lit) eqn:E;
               [apply String.eqb_eq in E; injection Hk as <-; subst k;
                simpl; repeat (first [left; reflexivity | right]) | clear E]
           end.
    discriminate. }
  assert (Hfield : forall k z, assoc k ResidentRegistrationSchema = Some z ->
             exists x, z_parse z (prop body k) = inr x /\
                       match assoc k ResidentRegistrationSchema with
                       | Some z0 => match z_parse z0 (prop body k) with
                                    | inr y => y
                                    | inl _ => JUndefined
                                    end
                       | None => JUndefined
                       end = x).
  { intros k z Hk. destruct (Hall k z (In_schema k z Hk)) as (x & E).
    exists x. split; [exact E|]. rewrite Hk, E. reflexivity. }
  repeat split.
  - destruct (Hfield "name" (z_string 2 "Name must be at least 2 characters") eq_refl)
      as (x & E & ->).
    apply z_string_ok in E. destruct E as [-> Hs]. exact Hs.
  - destruct (Hfield "apartment" (z_string 1 "Apartment is required") eq_refl)
      as (x & E & ->).
    apply z_string_ok in E. destruct E as [-> (s & Hs)].
    exists s. split; assumption.
  - destruct (Hfield "phone" (z_string 10 "Phone number must be at least 10 digits") eq_refl)
      as (x & E & ->).
    apply z_string_ok in E. destruct E as [-> Hs]. exact Hs.
  - destruct (Hfield "email" (z_email "Invalid email address") eq_refl) as (x & E & ->).
    apply z_email_ok in E. destruct E as [-> (s & Hs)].
    exists s. split; assumption.
  - destruct (Hfield "familyMembers" (z_number 1 "Family members must be at least 1") eq_refl)
      as (x & E & ->).
    apply z_number_ok in E. destruct E as [-> Hs]. exact Hs.
  - destruct (Hfield "username"
                (z_optional (z_string 3 "Username must be at least 3 characters")) eq_refl)
      as (x & E & ->).
    apply z_optional_string_ok in E. destruct E as [-> Hs]. exact Hs.
  - destruct (Hfield "password"
                (z_optional (z_string 6 "Password must be at least 6 characters")) eq_refl)
      as (x & E & ->).
    apply z_optional_string_ok in E. destruct E as [-> Hs]. exact Hs.
  - eexists. reflexivity.
Qed.

(** ** C5 *)

Lemma findFirst_or_eq m a d :
  prisma_resident_findFirst_or (JStr m) (JStr a) d =
  (Ok (find (fun r => String.eqb m (res_email r) || String.eqb a (res_apartment r))
         (residents d)), d).
Proof. reflexivity. Qed.

Lemma assoc_app {A : Type} k (l1 l2 : list (string * A)) :
  assoc k (l1 ++ l2) = match assoc k l1 with Some x => Some x | None => assoc k l2 end.
Proof.
  induction l1 as [|[k' v] r IH]; simpl; [reflexivity|].
  destruct (String.eqb k k'); [reflexivity | exact IH].
Qed.

Lemma prop_spread fields overrides k :
  prop (spread (JObj fields) overrides) k =
  match assoc k overrides with Some x => x | None => prop (JObj fields) k end.
Proof.
  unfold spread. cbn [prop]. rewrite assoc_app.
  destruct (assoc k overrides); reflexivity.
Qed.

Lemma find_none_iff {A : Type} (p : A -> bool) l :
  find p l = None <-> forall x, In x l -> p x = false.
Proof.
  split; [apply find_none|].
  induction l as [|a r IH]; simpl; intros H; [reflexivity|].
  rewrite (H a (or_introl eq_refl)). apply IH. intros x Hx. apply H. right. assumption.
Qed.

Lemma find_snoc_fresh {A : Type} (p : A -> bool) l x :
  (forall y, In y l -> p y = false) -> p x = true -> find p (l ++ [x]) = Some x.
Proof.
  induction l as [|a r IH]; simpl; intros Hl Hx.
  - rewrite Hx. reflexivity.
  - rewrite (Hl a (or_introl eq_refl)). apply IH; [|assumption].
    intros y Hy. apply Hl. right. assumption.
Qed.

Lemma existsb_false {A : Type} (p : A -> bool) l :
  (forall x, In x l -> p x = false) -> existsb p l = false.
Proof.
  intros H. destruct (existsb p l) eqn:E; [|reflexivity].
  apply existsb_exists in E. destruct E as (x & Hx & Hp).
  rewrite (H x Hx) in Hp. discriminate.
Qed.

(** A valid body with a fresh e-mail, apartment and username is stored as
    one PENDING row. *)
Lemma register_creates req e d v m a :
  z_object ResidentRegistrationSchema (req_body req) = Ok v ->
  prop v "email" = JStr m ->
  prop v "apartment" = JStr a ->
  (forall r, In r (residents d) -> res_email r <> m /\ res_apartment r <> a) ->
  (forall u r, prop v "username" = JStr u -> In r (residents d) ->
               res_username r <> Some u) ->
  exists x r,
    register_resident req e d = (Ok r, set_residents (residents d ++ [x]) d) /\
    status r = 201 /\
    res_approvalStatus x = APPROVAL_PENDING /\ res_status x = "Pending" /\
    res_email x = m /\ res_apartment x = a /\ res_id x = fresh_id e.
Proof.
  intros Hval Hm Ha Hfresh Huser.
  destruct (registration_fields _ _ Hval)
    as ((n & Hn) & _ & (ph & Hph) & _ & (fm & Hfm) & Hun & Hpw & (fields & ->)).
  unfold register_resident, try_catch.
  rewrite bind_lift, Hval, Hm, Ha, bind_eq, findFirst_or_eq.
  assert (Hnone : find (fun r => String.eqb m (res_email r) || String.eqb a (res_apartment r))
                    (residents d) = None).
  { apply find_none_iff. intros r Hr. destruct (Hfresh r Hr) as [H1 H2].
    apply orb_false_iff. split; apply String.eqb_neq; congruence. }
  rewrite Hnone. cbv zeta.
  rewrite bind_eq. unfold prisma_resident_create. rewrite bind_lift.
  unfold validate_resident. rewrite !prop_spread.
  cbn [assoc String.eqb Ascii.eqb Bool.eqb].
  rewrite Hn, Ha, Hph, Hm, Hfm.
  assert (Hpwd : exists pw,
            optional_string "Resident" "password"
              (if truthy (prop (JObj fields) "password")
               then JStr (hashPassword (js_string (prop (JObj fields) "password")) e)
               else JNull) = Ok pw).
  { destruct (truthy _); eexists; reflexivity. }
  destruct Hpwd as (pw & ->).
  assert (Hname : exists un,
            optional_string "Resident" "username" (prop (JObj fields) "username") = Ok un /\
            forall u, un = Some u -> prop (JObj fields) "username" = JStr u).
  { destruct Hun as [-> | (u & ->)]; eexists; (split; [reflexivity|]);
      intros u0 E; [discriminate | congruence]. }
  destruct Hname as (un & -> & Hun').
  cbn [obind required_string default_string default_int approval_value].
  cbn [String.eqb Ascii.eqb Bool.eqb obind].
  unfold unique_violation.
  cbn [res_apartment res_email res_username].
  rewrite (existsb_false (fun r => String.eqb (res_apartment r) a)).
  2:{ intros r Hr. apply String.eqb_neq. apply (Hfresh r Hr). }
  rewrite (existsb_false (fun r => String.eqb (res_email r) m)).
  2:{ intros r Hr. apply String.eqb_neq. apply (Hfresh r Hr). }
  assert (Huniq : match un with
                  | Some u =>
                      if existsb (fun r => match res_username r with
                                           | Some u' => String.eqb u' u
                                           | None => false
                                           end) (residents d)
                      then Some "username" else None
                  | None => None
                  end = None).
  { destruct un as [u|]; [|reflexivity].
    rewrite existsb_false; [reflexivity|].
    intros r Hr. specialize (Huser u r (Hun' u eq_refl) Hr).
    destruct (res_username r) as [u'|]; [|reflexivity].
    apply String.eqb_neq. congruence. }
  rewrite Huniq.
  eexists. eexists. split; [reflexivity|]. repeat split.
Qed.

(** A valid body with a fresh e-mail and apartment and a username that a
    stored resident has: the store refuses the row, and the catch answers
    400. *)
Lemma register_rejects_taken_username req e d v m a u :
  z_object ResidentRegistrationSchema (req_body req) = Ok v ->
  prop v "email" = JStr m ->
  prop v "apartment" = JStr a ->
  (forall r, In r (residents d) -> res_email r <> m /\ res_apartment r <> a) ->
  prop v "username" = JStr u ->
  (exists r, In r (residents d) /\ res_username r = Some u) ->
  register_resident req e d =
    (Ok (error_json 400 "Registration failed"
           (describe (PrismaKnownError "P2002" "username"))), d).
Proof.
  intros Hval Hm Ha Hfresh Hu (r0 & Hin & Hr0).
  destruct (registration_fields _ _ Hval)
    as ((n & Hn) & _ & (ph & Hph) & _ & (fm & Hfm) & _ & Hpw & (fields & ->)).
  unfold register_resident, try_catch.
  rewrite bind_lift, Hval, Hm, Ha, bind_eq, findFirst_or_eq.
  assert (Hnone : find (fun r => String.eqb m (res_email r) || String.eqb a (res_apartment r))
                    (residents d) = None).
  { apply find_none_iff. intros r Hr. destruct (Hfresh r Hr) as [H1 H2].
    apply orb_false_iff. split; apply String.eqb_neq; congruence. }
  rewrite Hnone. cbv zeta.
  rewrite bind_eq. unfold prisma_resident_create. rewrite bind_lift.
  unfold validate_resident. rewrite !prop_spread.
  cbn [assoc String.eqb Ascii.eqb Bool.eqb].
  rewrite Hn, Ha, Hph, Hm, Hfm, Hu.
  assert (Hpwd : exists pw,
            optional_string "Resident" "password"
              (if truthy (prop (JObj fields) "password")
               then JStr (hashPassword (js_string (prop (JObj fields) "password")) e)
               else JNull) = Ok pw).
  { destruct (truthy _); eexists; reflexivity. }
  destruct Hpwd as (pw & ->).
  cbn [obind required_string default_string default_int approval_value optional_string].
  cbn [String.eqb Ascii.eqb Bool.eqb obind].
  unfold unique_violation.
  cbn [res_apartment res_email res_username].
  rewrite (existsb_false (fun r => String.eqb (res_apartment r) a)).
  2:{ intros r Hr. apply String.eqb_neq. apply (Hfresh r Hr). }
  rewrite (existsb_false (fun r => String.eqb (res_email r) m)).
  2:{ intros r Hr. apply String.eqb_neq. apply (Hfresh r Hr). }
  assert (Htaken : existsb (fun r => match res_username r with
                                     | Some u' => String.eqb u' u
                                     | None => false
                                     end) (residents d) = true).
  { apply existsb_exists. exists r0. split; [exact Hin|].
    rewrite Hr0. apply String.eqb_refl. }
  rewrite Htaken. reflexivity.
Qed.

(** A body naming the e-mail or the apartment of a stored resident is
    answered 400 and nothing is written, whether or not it is valid. *)
Lemma register_rejects_duplicate req e d m a :
  prop (req_body req) "email" = JStr m ->
  prop (req_body req) "apartment" = JStr a ->
  (exists r, In r (residents d) /\ (res_email r = m \/ res_apartment r = a)) ->
  exists r, register_resident req e d = (Ok r, d) /\ status r = 400.
Proof.
  intros Hm Ha (r0 & Hin & Hdup).
  unfold register_resident, try_catch. rewrite bind_lift.
  destruct (z_object ResidentRegistrationSchema (req_body req)) as [v|f] eqn:Hval.
  - destruct (registration_fields _ _ Hval)
      as (_ & (a' & Ha1 & Ha2) & _ & (m' & Hm1 & Hm2) & _).
    rewrite Hm in Hm2. injection Hm2 as <-. rewrite Ha in Ha2. injection Ha2 as <-.
    rewrite Hm1, Ha1, bind_eq, findFirst_or_eq.
    destruct (find _ (residents d)) as [x|] eqn:Hf.
    + eexists. split; reflexivity.
    + exfalso. apply (find_none _ _ Hf) in Hin.
      apply orb_false_iff in Hin. destruct Hin as [H1 H2].
      apply String.eqb_neq in H1, H2. destruct Hdup as [E | E]; symmetry in E; contradiction.
  - eexists. split; reflexivity.
Qed.

Lemma is_str_exclusive v a b : is_str v a = true -> a <> b -> is_str v b = false.
Proof.
  destruct v; simpl; try discriminate.
  intros H Hne. apply String.eqb_eq in H. subst. apply String.eqb_neq. assumption.
Qed.

(** The resident case of [verifyUserExists] on an account that is not
    active. *)
Lemma verify_resident_inactive req e d user i x :
  req_user req = Some user ->
  truthy user = true ->
  is_str (prop user "type") "resident" = true ->
  prop user "id" = JStr i ->
  isObjectId i = true ->
  find (fun r => String.eqb (res_id r) i) (residents d) = Some x ->
  res_status x <> "Active" ->
  verifyUserExists req e d =
    (Ok (inl (error_json 403 "Account inactive"
                "Your resident account is not active or approved")), d).
Proof.
  intros Hu Ht Hty Hi Hoid Hf Hs.
  unfold verifyUserExists, try_catch. rewrite Hu, Ht. cbn [negb]. cbv iota zeta.
  rewrite (is_str_exclusive _ "resident" "admin" Hty) by discriminate.
  rewrite Hty, Hi, bind_eq, resident_findUnique_eq.
  unfold unique_id, id_filter. rewrite Hoid, Hf.
  apply String.eqb_neq in Hs. rewrite Hs. reflexivity.
Qed.


(** ** C6 *)

Lemma post_ret {A : Type} (a : A) (Q : A -> Prop) : Q a -> post (ret a) Q.
Proof. intros H d a' d' E. injection E as <- <-. exact H. Qed.

Lemma post_throw {A : Type} f (Q : A -> Prop) : post (throw f) Q.
Proof. intros d a d' E. discriminate. Qed.

Lemma post_bind_any {A B : Type} (m : task A) (k : A -> task B) (Q : B -> Prop) :
  (forall a, post (k a) Q) -> post (bind m k) Q.
Proof.
  intros H d b d' E. rewrite bind_eq in E.
  destruct (m d) as [[a|f] d1]; [|discriminate].
  apply (H a d1 b d'). exact E.
Qed.

Lemma well_formed_error c err msg : well_formed_answer (error_json c err msg).
Proof. intros _. exists err, msg. split; reflexivity. Qed.

Lemma well_formed_success c b : c < 400 -> well_formed_answer {| status := c; body := b |}.
Proof. intros H H'. simpl in H'. lia. Qed.

Lemma try_catch_answers (m : task Response) (h : failure -> task Response) :
  post m well_formed_answer ->
  (forall f, exists r, h f = ret r /\ well_formed_answer r) ->
  forall d, exists r d', try_catch m h d = (Ok r, d') /\ well_formed_answer r.
Proof.
  intros Hm Hh d. unfold try_catch.
  destruct (m d) as [[a|f] d1] eqn:E.
  - exists a, d1. split; [reflexivity|]. apply (Hm d a d1 E).
  - destruct (Hh f) as (r & -> & Hr). exists r, d1. split; [reflexivity | exact Hr].
Qed.

Lemma try_catch_passes (m : task (Response + Request))
  (h : failure -> task (Response + Request)) :
  post m sum_ok ->
  (forall f, exists r, h f = respond r /\ well_formed_answer r) ->
  forall d, exists x d', try_catch m h d = (Ok x, d') /\ sum_ok x.
Proof.
  intros Hm Hh d. unfold try_catch.
  destruct (m d) as [[a|f] d1] eqn:E.
  - exists a, d1. split; [reflexivity|]. apply (Hm d a d1 E).
  - destruct (Hh f) as (r & -> & Hr). exists (inl r), d1. split; [reflexivity | exact Hr].
Qed.

(** Walk through a handler body: every [ret] has to be a well-formed
    answer. *)
Ltac post_walk :=
  repeat first
    [ apply post_throw
    | apply post_ret
    | apply post_bind_any; intros
    | match goal with
      | |- post (if ?c then _ else _) _ => destruct c
      | |- post (match ?x with _ => _ end) _ => destruct x
      | |- post (let _ := _ in _) _ => cbv zeta
      end
    | progress unfold record_entry, respond, next, found_or_404, not_null,
                      to_string, new_Date ];
  try solve [ apply well_formed_error
            | apply well_formed_success; reflexivity
            | exact I
            | simpl; apply well_formed_error ].

Ltac caught := intros; eexists; split; [reflexivity | apply well_formed_error].

Lemma post_bind {A B : Type} (m : task A) (k : A -> task B) (P : A -> Prop)
  (Q : B -> Prop) :
  post m P -> (forall a, P a -> post (k a) Q) -> post (bind m k) Q.
Proof.
  intros Hm Hk d b d' E. rewrite bind_eq in E.
  destruct (m d) as [[a|f] d1] eqn:Em; [|discriminate].
  apply (Hk a (Hm d a d1 Em) d1 b d'). exact E.
Qed.

Lemma qr_scan_entryData_answers req e : post (qr_scan_entryData req e) early_answer_ok.
Proof. unfold qr_scan_entryData. post_walk. Qed.

Lemma qr_scan_answers : answers qr_scan.
Proof.
  intros req e. apply try_catch_answers; [|caught].
  apply (post_bind _ _ _ _ (qr_scan_entryData_answers req e)).
  intros [r|entryData] H; [apply post_ret; exact H | post_walk].
Qed.

Lemma create_gate_entry_answers : answers create_gate_entry.
Proof.
  intros req e. apply try_catch_answers; [|caught]. post_walk.
Qed.

Lemma stats_today_answers : answers stats_today.
Proof.
  intros req e. apply try_catch_answers; [|caught]. post_walk.
Qed.

Lemma delete_gate_entry_answers : answers delete_gate_entry.
Proof.
  intros req e. apply try_catch_answers; [|caught]. post_walk.
Qed.

Lemma list_gate_entries_answers : answers list_gate_entries.
Proof.
  intros req e. apply try_catch_answers; [|caught]. post_walk.
Qed.

Lemma admin_stats_answers : answers admin_stats.
Proof.
  intros req e. apply try_catch_answers; [|caught]. post_walk.
Qed.

Lemma update_bill_status_answers : answers update_bill_status.
Proof.
  intros req e. apply try_catch_answers; [|caught]. post_walk.
Qed.

Lemma register_resident_answers : answers register_resident.
Proof.
  intros req e. apply try_catch_answers; [|caught]. post_walk.
Qed.

Lemma refresh_token_answers : answers refresh_token.
Proof.
  intros req e. apply try_catch_answers; [|caught]. post_walk.
Qed.

Lemma logout_answers : answers logout.
Proof.
  intros req e d. eexists; eexists. split; [reflexivity|].
  apply well_formed_success. reflexivity.
Qed.

Lemma not_found_answers : answers not_found.
Proof.
  intros req e d. eexists; eexists. split; [reflexivity|]. apply well_formed_error.
Qed.

Lemma authenticateToken_passes : passes_or_answers authenticateToken.
Proof.
  intros req e. apply try_catch_passes; [|caught]. post_walk.
Qed.

Lemma verifyUserExists_passes_or_answers : passes_or_answers verifyUserExists.
Proof.
  intros req e. apply try_catch_passes; [|caught]. post_walk.
Qed.

Lemma authorizeRoles_passes roles : passes_or_answers (authorizeRoles roles).
Proof.
  intros req e d. unfold authorizeRoles, respond, next, ret.
  destruct (req_user req) as [u|].
  - destruct (negb (truthy u)).
    + eexists; eexists; split; [reflexivity|]. apply well_formed_error.
    + destruct (negb (existsb _ roles)); eexists; eexists; (split; [reflexivity|]);
        [apply well_formed_error | exact I].
  - eexists; eexists; split; [reflexivity|]. apply well_formed_error.
Qed.

Lemma chain_answers mws h :
  Forall passes_or_answers mws -> answers h -> answers (chain mws h).
Proof.
  intros Hm Hh. induction Hm as [|m rest Hm _ IH]; [exact Hh|].
  intros req e d. simpl. rewrite bind_eq.
  destruct (Hm req e d) as (x & d1 & -> & Hx).
  destruct x as [r|req'].
  - exists r, d1. split; [reflexivity | exact Hx].
  - apply IH.
Qed.

Lemma admin_chain_answers h :
  answers h -> answers (chain (authenticateAndVerify ++ [requireAdmin]) h).
Proof.
  apply chain_answers. repeat constructor.
  - apply authenticateToken_passes.
  - apply verifyUserExists_passes_or_answers.
  - apply authorizeRoles_passes.
Qed.

(** ** C7 *)

Lemma env_same_reading e1 e2 :
  same_clock_and_config e1 e2 ->
  forall h, In h reading_routes -> forall req d, h req e1 d = h req e2 d.
Proof.
  intros (H1 & H2 & H3 & H4 & H5) h Hin req d.
  destruct e1, e2. simpl in *. subst.
  repeat (destruct Hin as [<- | Hin]); try contradiction; reflexivity.
Qed.

(** The answer to a registration does not depend on the salt drawn for the
    password hash. *)
Lemma register_answer_same e1 e2 req d :
  same_clock_and_config e1 e2 -> fresh_id e1 = fresh_id e2 ->
  fst (register_resident req e1 d) = fst (register_resident req e2 d).
Proof.
  intros (_ & Hdb & _) Hid.
  unfold register_resident, try_catch. rewrite !bind_lift.
  destruct (z_object ResidentRegistrationSchema (req_body req)) as [v|f] eqn:Hval;
    [|reflexivity].
  destruct (registration_fields _ _ Hval)
    as ((n & Hn) & (a & Ha & _) & (ph & Hph) & (m & Hm & _) & (fm & Hfm) & Hun & Hpw
        & (fields & ->)).
  rewrite !bind_eq.
  destruct (prisma_resident_findFirst_or _ _ d) as [[[x|]|f] d1]; try reflexivity.
  rewrite !bind_eq. unfold prisma_resident_create. rewrite !bind_lift.
  unfold validate_resident. rewrite !prop_spread.
  cbn [assoc String.eqb Ascii.eqb Bool.eqb].
  rewrite Hn, Ha, Hph, Hm, Hfm, Hdb, Hid.
  assert (Hname : exists un,
            optional_string "Resident" "username" (prop (JObj fields) "username") = Ok un).
  { destruct Hun as [-> | (u & ->)]; eexists; reflexivity. }
  destruct Hname as (un & ->).
  destruct (truthy (prop (JObj fields) "password"));
    cbn [obind required_string default_string default_int approval_value optional_string];
    cbn [String.eqb Ascii.eqb Bool.eqb obind];
    unfold unique_violation; cbn [res_apartment res_email res_username];
    destruct (existsb _ (residents d1)); try reflexivity;
    destruct (existsb _ (residents d1)); try reflexivity;
    destruct un as [u|]; try reflexivity;
    destruct (existsb _ (residents d1)); reflexivity.
Qed.

(** * Further properties of the handlers *)

(** ** Schemas: the fields of a parsed object *)

Lemma assoc_of_in {A : Type} k (z : A) l :
  NoDup (map fst l) -> In (k, z) l -> assoc k l = Some z.
Proof.
  induction l as [|[k' z'] r IH]; simpl; intros Hnd Hin; [contradiction|].
  inversion Hnd as [|? ? Hnotin Hnd']; subst.
  destruct Hin as [Heq|Hin].
  - injection Heq as -> ->. rewrite String.eqb_refl. reflexivity.
  - destruct (String.eqb k k') eqn:E; [|apply IH; assumption].
    apply String.eqb_eq in E. subst k'. exfalso. apply Hnotin.
    apply (in_map fst) in Hin. exact Hin.
Qed.

(** A parsed object holds, under each key of the schema, what the schema
    makes of the input's value. *)
Lemma z_field shape input v k z :
  NoDup (map fst shape) -> In (k, z) shape -> z_object shape input = Ok v ->
  exists x, z_parse z (prop input k) = inr x /\ prop v k = x.
Proof.
  intros Hnd Hin H. apply z_object_ok in H. destruct H as [Hiss ->].
  destruct (z_issues_nil _ _ Hiss k z Hin) as (x & E).
  exists x. split; [exact E|].
  rewrite (prop_z_output _ _ _ Hnd). unfold parsed_field.
  rewrite (assoc_of_in _ _ _ Hnd Hin), E. reflexivity.
Qed.

Lemma z_issues_intro shape input :
  (forall k z, In (k, z) shape -> exists x, z_parse z (prop input k) = inr x) ->
  z_issues shape input = [].
Proof.
  induction shape as [|[k z] r IH]; simpl; intros H; [reflexivity|].
  destruct (H k z (or_introl eq_refl)) as (x & ->).
  apply IH. intros k' z' Hin. apply H. right. exact Hin.
Qed.

Lemma z_object_intro shape fields :
  (forall k z, In (k, z) shape -> exists x, z_parse z (prop (JObj fields) k) = inr x) ->
  z_object shape (JObj fields) = Ok (JObj (z_output shape (JObj fields))).
Proof.
  intros H. unfold z_object. rewrite (z_issues_intro _ _ H). reflexivity.
Qed.

Lemma prop_is_object v k x : prop v k = x -> x <> JUndefined -> exists fields, v = JObj fields.
Proof.
  destruct v; simpl; intros <- H; try (exfalso; apply H; reflexivity).
  eexists. reflexivity.
Qed.

Lemma gate_entry_keys_distinct : NoDup (map fst GateEntrySchema).
Proof.
  unfold GateEntrySchema. simpl.
  repeat (constructor;
          [simpl; intros H; repeat (destruct H as [H|H]; [discriminate|]); exact H|]).
  constructor.
Qed.

(** ** DELETE /:id *)

Lemma gateEntry_findUnique_eq i d :
  prisma_gateEntry_findUnique i d =
  (if isObjectId i then Ok (find (fun x => String.eqb (id x) i) (gateEntries d))
   else Throw (PrismaKnownError "P2023" "id"), d).
Proof.
  unfold prisma_gateEntry_findUnique, id_filter. rewrite bind_lift.
  destruct (isObjectId i); reflexivity.
Qed.

Lemma gateEntry_delete_eq i d :
  prisma_gateEntry_delete i d =
  if isObjectId i then
    match find (fun x => String.eqb (id x) i) (gateEntries d) with
    | None => (Throw (PrismaKnownError "P2025" "GateEntry"), d)
    | Some _ => (Ok tt, set_gateEntries (remove_first i (gateEntries d)) d)
    end
  else (Throw (PrismaKnownError "P2023" "id"), d).
Proof.
  unfold prisma_gateEntry_delete, id_filter. rewrite bind_lift.
  destruct (isObjectId i); reflexivity.
Qed.

Lemma remove_first_split i l x :
  find (fun y => String.eqb (id y) i) l = Some x ->
  exists before after,
    l = before ++ x :: after /\ remove_first i l = before ++ after /\
    id x = i /\ forall y, In y before -> id y <> i.
Proof.
  induction l as [|a r IH]; simpl; intros H; [discriminate|].
  destruct (String.eqb (id a) i) eqn:E.
  - injection H as <-. exists [], r. repeat split.
    + apply String.eqb_eq. exact E.
    + intros y [].
  - destruct (IH H) as (before & after & -> & Hrm & Hid & Hb).
    exists (a :: before), after. rewrite Hrm. repeat split.
    + exact Hid.
    + intros y [<-|Hy]; [apply String.eqb_neq; exact E | apply Hb; exact Hy].
Qed.

Lemma remove_first_snoc i l x :
  (forall y, In y l -> id y <> i) -> id x = i -> remove_first i (l ++ [x]) = l.
Proof.
  induction l as [|a r IH]; simpl; intros Hl Hx.
  - rewrite Hx, String.eqb_refl. reflexivity.
  - destruct (String.eqb (id a) i) eqn:E.
    + apply String.eqb_eq in E. exfalso. apply (Hl a (or_introl eq_refl)). exact E.
    + f_equal. apply IH; [|exact Hx]. intros y Hy. apply Hl. right. exact Hy.
Qed.

Lemma set_gateEntries_same d : set_gateEntries (gateEntries d) d = d.
Proof. destruct d. reflexivity. Qed.

(** X1: DELETE /:id on the id of a stored gate entry answers 200 and removes
    that row, the first one with the id, and nothing else: the rows before
    and after it stay, in their order, and so do the other collections. *)
Theorem delete_removes_the_row req e d x :
  isObjectId (req_params_id req) = true ->
  find (fun y => String.eqb (id y) (req_params_id req)) (gateEntries d) = Some x ->
  exists r before after,
    delete_gate_entry req e d = (Ok r, set_gateEntries (before ++ after) d) /\
    status r = 200 /\
    gateEntries d = before ++ x :: after /\
    id x = req_params_id req /\
    forall y, In y before -> id y <> req_params_id req.
Proof.
  intros Hoid Hfind.
  destruct (remove_first_split _ _ _ Hfind) as (before & after & Hl & Hrm & Hid & Hb).
  unfold delete_gate_entry, try_catch.
  rewrite bind_eq, gateEntry_findUnique_eq, Hoid, Hfind.
  rewrite bind_eq, gateEntry_delete_eq, Hoid, Hfind, Hrm.
  eexists. exists before, after.
  split; [reflexivity|]. split; [reflexivity|]. split; [exact Hl|].
  split; [exact Hid | exact Hb].
Qed.


(** ** POST / (manual gate entry) *)

Lemma create_gate_entry_eq req e d :
  create_gate_entry req e d =
  match z_object GateEntrySchema (req_body req) with
  | Ok v =>
      match validate_create e
              {| data_type := prop v "type"; data_person := prop v "person";
                 data_apartment := prop v "apartment"; data_entryType := prop v "entryType";
                 data_vehicle := prop v "vehicle"; data_gate := prop v "gate";
                 data_method := prop v "method"; data_residentId := prop v "residentId" |} with
      | Ok row =>
          let d' := set_gateEntries (gateEntries d ++ [row]) d in
          (Ok {| status := 201;
                 body := [("message", JStr "Gate entry created successfully");
                          ("entry", gateEntry_json (row, included_resident d' row))] |}, d')
      | Throw f => (Ok (error_json 400 "Failed to create gate entry" (describe f)), d)
      end
  | Throw f => (Ok (error_json 400 "Failed to create gate entry" (describe f)), d)
  end.
Proof.
  unfold create_gate_entry, try_catch, error_message. rewrite bind_lift.
  destruct (z_object GateEntrySchema (req_body req)) as [v|f]; [|reflexivity].
  rewrite bind_eq, create_eq.
  destruct (validate_create e _); reflexivity.
Qed.

Lemma in_gate_entry_schema k z :
  In (k, z) GateEntrySchema ->
  (k, z) = ("type", z_enum ["ENTRY"; "EXIT"]) \/
  (k, z) = ("person", z_string 1 "Person name is required") \/
  (k, z) = ("apartment", z_string 1 "Apartment is required") \/
  (k, z) = ("entryType", z_string 1 "Entry type is required") \/
  (k, z) = ("vehicle", z_optional (z_string 0 "")) \/
  (k, z) = ("gate", z_optional (z_string 0 "")) \/
  (k, z) = ("method", z_optional (z_string 0 "")) \/
  (k, z) = ("residentId", z_optional z_plain_number).
Proof.
  unfold GateEntrySchema. simpl. intros H.
  repeat (destruct H as [H|H];
          [symmetry in H; repeat (first [exact H | left; exact H | right])|]).
  contradiction.
Qed.

Lemma z_string_intro min msg s :
  (min <= utf16_length s)%nat -> z_parse (z_string min msg) (JStr s) = inr (JStr s).
Proof. intros H. simpl. apply Nat.leb_le in H. rewrite H. reflexivity. Qed.

Lemma z_optional_string_intro o :
  z_parse (z_optional (z_string 0 "")) (opt_field o) = inr (opt_field o).
Proof. destruct o; reflexivity. Qed.

Lemma utf16_length_cons c s : (1 <= utf16_length (String c s))%nat.
Proof.
  unfold utf16_length. cbn [utf16_units]. cbv zeta.
  destruct (_ && _); [lia|].
  repeat (destruct (_ <? _)%nat; [lia|]). lia.
Qed.

Lemma nonempty_length s : s <> "" -> (1 <= utf16_length s)%nat.
Proof.
  destruct s; intros H; [exfalso; apply H; reflexivity | apply utf16_length_cons].
Qed.

(** X3: a manual gate entry whose body gives type, person, apartment and
    entryType (non-empty) and no residentId is answered 201 and stored as one
    new row, last in the log, with the type the body asks for, whatever the
    earlier rows of that person are; a vehicle, gate or method the body
    leaves out is stored as "None", "Main Gate" and "Manual". *)
Theorem manual_entry_is_stored_with_defaults req e d t p a et v g m :
  prop (req_body req) "type" = JStr (EntryType_string t) ->
  prop (req_body req) "person" = JStr p -> p <> "" ->
  prop (req_body req) "apartment" = JStr a -> a <> "" ->
  prop (req_body req) "entryType" = JStr et -> et <> "" ->
  prop (req_body req) "vehicle" = opt_field v ->
  prop (req_body req) "gate" = opt_field g ->
  prop (req_body req) "method" = opt_field m ->
  prop (req_body req) "residentId" = JUndefined ->
  exists r,
    create_gate_entry req e d =
      (Ok r,
       set_gateEntries
         (gateEntries d ++
          [{| id := fresh_id e; type := t; person := p; apartment := a; entryType := et;
              vehicle := or_default v "None"; gate := or_default g "Main Gate";
              method := or_default m "Manual"; residentId := None;
              createdAt := db_now e |}]) d) /\
    status r = 201.
Proof.
  intros Ht Hp Hp' Ha Ha' Het Het' Hv Hg Hm Hr.
  destruct (prop_is_object _ _ _ Hp) as (fields & Hbody); [discriminate|].
  rewrite Hbody in *.
  assert (Hall : forall k z, In (k, z) GateEntrySchema ->
                             z_parse z (prop (JObj fields) k) = inr (prop (JObj fields) k)).
  { intros k z Hin. apply in_gate_entry_schema in Hin.
    repeat (destruct Hin as [Hin|Hin]; [injection Hin as -> ->|]);
      [| | | | | | |injection Hin as -> ->].
    - rewrite Ht. destruct t; reflexivity.
    - rewrite Hp. apply z_string_intro, nonempty_length, Hp'.
    - rewrite Ha. apply z_string_intro, nonempty_length, Ha'.
    - rewrite Het. apply z_string_intro, nonempty_length, Het'.
    - rewrite Hv. apply z_optional_string_intro.
    - rewrite Hg. apply z_optional_string_intro.
    - rewrite Hm. apply z_optional_string_intro.
    - rewrite Hr. reflexivity. }
  assert (Hval : z_object GateEntrySchema (JObj fields) =
                 Ok (JObj (z_output GateEntrySchema (JObj fields)))).
  { apply z_object_intro. intros k z Hin. eexists. apply Hall. exact Hin. }
  assert (Hprop : forall k z, In (k, z) GateEntrySchema ->
             prop (JObj (z_output GateEntrySchema (JObj fields))) k = prop (JObj fields) k).
  { intros k z Hin.
    destruct (z_field _ _ _ k z gate_entry_keys_distinct Hin Hval) as (x & E & ->).
    rewrite (Hall k z Hin) in E. injection E as <-. reflexivity. }
  rewrite create_gate_entry_eq, Hbody, Hval.
  rewrite (Hprop "type" (z_enum ["ENTRY"; "EXIT"])),
          (Hprop "person" (z_string 1 "Person name is required")),
          (Hprop "apartment" (z_string 1 "Apartment is required")),
          (Hprop "entryType" (z_string 1 "Entry type is required")),
          (Hprop "vehicle" (z_optional (z_string 0 ""))),
          (Hprop "gate" (z_optional (z_string 0 ""))),
          (Hprop "method" (z_optional (z_string 0 ""))),
          (Hprop "residentId" (z_optional z_plain_number))
    by (unfold GateEntrySchema; simpl; repeat (first [left; reflexivity | right])).
  rewrite Ht, Hp, Ha, Het, Hv, Hg, Hm, Hr.
  unfold validate_create. cbn [data_type data_person data_apartment data_entryType
    data_vehicle data_gate data_method data_residentId].
  assert (Hty : entry_type_value (JStr (EntryType_string t)) = Ok t)
    by (destruct t; reflexivity).
  rewrite Hty.
  destruct v, g, m; cbn [obind required_string default_string optional_objectId opt_field
                         or_default];
    (eexists; split; reflexivity).
Qed.

(** X4: a manual gate entry whose body carries a residentId is never
    stored.  The request schema takes a number there and the store an
    ObjectId string, so whatever the value is the answer is 400 and the log
    stays as it was. *)
Theorem manual_entry_with_resident_is_refused req e d :
  prop (req_body req) "residentId" <> JUndefined ->
  exists r, create_gate_entry req e d = (Ok r, d) /\ status r = 400.
Proof.
  intros Hrid. rewrite create_gate_entry_eq.
  destruct (z_object GateEntrySchema (req_body req)) as [v|f] eqn:Hval.
  2:{ eexists. split; reflexivity. }
  assert (Hin : In ("residentId", z_optional z_plain_number) GateEntrySchema).
  { unfold GateEntrySchema. simpl. repeat (first [left; reflexivity | right]). }
  destruct (z_field _ _ _ _ _ gate_entry_keys_distinct Hin Hval) as (x & E & Hx).
  assert (Hnum : exists n, prop v "residentId" = JNum n).
  { rewrite Hx. simpl in E.
    destruct (prop (req_body req) "residentId"); try discriminate.
    - exfalso. apply Hrid. reflexivity.
    - injection E as <-. eexists. reflexivity. }
  destruct Hnum as (n & Hn).
  unfold validate_create. cbn [data_type data_person data_apartment data_entryType
    data_vehicle data_gate data_method data_residentId].
  rewrite Hn.
  destruct (entry_type_value _); [|eexists; split; reflexivity].
  destruct (required_string _ _ (prop v "person")); [|eexists; split; reflexivity].
  destruct (required_string _ _ (prop v "apartment")); [|eexists; split; reflexivity].
  destruct (required_string _ _ (prop v "entryType")); [|eexists; split; reflexivity].
  destruct (default_string _ _ _ (prop v "vehicle")); [|eexists; split; reflexivity].
  destruct (default_string _ _ _ (prop v "gate")); [|eexists; split; reflexivity].
  destruct (default_string _ _ _ (prop v "method")); [|eexists; split; reflexivity].
  eexists; split; reflexivity.
Qed.

(** X5: creating a manual gate entry and deleting it again, by the id the
    store gave it, gives back the store as it was before the two requests. *)
Theorem create_then_delete_restores_the_store req e d r d1 req_del e_del :
  create_gate_entry req e d = (Ok r, d1) ->
  status r = 201 ->
  isObjectId (fresh_id e) = true ->
  (forall x, In x (gateEntries d) -> id x <> fresh_id e) ->
  req_params_id req_del = fresh_id e ->
  delete_gate_entry req_del e_del d1 =
    (Ok {| status := 200; body := [("message", JStr "Gate entry deleted successfully")] |}, d).
Proof.
  intros Hrun Hst Hoid Hfresh Hid.
  rewrite create_gate_entry_eq in Hrun.
  destruct (z_object GateEntrySchema (req_body req)) as [v|f];
    [|injection Hrun as <- <-; discriminate].
  destruct (validate_create e _) as [row|f] eqn:Hc;
    [|injection Hrun as <- <-; discriminate].
  cbv zeta in Hrun. injection Hrun as _ <-.
  apply validate_create_ok in Hc. destruct Hc as (_ & _ & _ & _ & _ & _ & Hrow).
  unfold delete_gate_entry, try_catch.
  rewrite bind_eq, gateEntry_findUnique_eq, Hid, Hoid.
  cbn [gateEntries set_gateEntries].
  assert (Hfind : find (fun x => String.eqb (id x) (fresh_id e)) (gateEntries d ++ [row])
                  = Some row).
  { apply find_snoc_fresh.
    - intros y Hy. apply String.eqb_neq. apply Hfresh. exact Hy.
    - apply String.eqb_eq. exact Hrow. }
  rewrite Hfind, bind_eq, gateEntry_delete_eq, Hoid.
  cbn [gateEntries set_gateEntries]. rewrite Hfind.
  rewrite (remove_first_snoc _ _ _ Hfresh Hrow).
  change (set_gateEntries (gateEntries d) (set_gateEntries (gateEntries d ++ [row]) d))
    with (set_gateEntries (gateEntries d) d).
  rewrite set_gateEntries_same. reflexivity.
Qed.

(** ** POST /qr-scan, continued *)

(** The switch breaks with an entryData only for a payload of one of the
    six types. *)
Lemma switch_breaks_for_known_types req e d entryData d1 :
  qr_scan_entryData req e d = (Ok (inr entryData), d1) ->
  exists parsed,
    truthy (prop (req_body req) "qrData") = true /\
    JSON_parse (js_string (prop (req_body req) "qrData")) = Some parsed /\
    existsb (is_str (prop parsed "type")) qr_types = true.
Proof.
  intros H. unfold qr_scan_entryData in H.
  rewrite bind_not_null in H.
  destruct (nullish (req_body req)); [discriminate|].
  destruct (truthy (prop (req_body req) "qrData")) eqn:Hq; cbn [negb] in H;
    [|discriminate].
  destruct (conversion_throws (prop (req_body req) "qrData")); [discriminate|].
  destruct (JSON_parse _) as [parsed|] eqn:Hp; [|discriminate].
  exists parsed. split; [reflexivity|]. split; [reflexivity|].
  unfold qr_types. cbn [existsb].
  rewrite bind_not_null in H.
  destruct (nullish parsed); [discriminate|].
  destruct (is_str (prop parsed "type") "guest_entry"); [reflexivity|].
  destruct (is_str (prop parsed "type") "resident_entry"); [reflexivity|].
  destruct (is_str (prop parsed "type") "vehicle_entry"); [reflexivity|].
  destruct (is_str (prop parsed "type") "delivery_entry"); [reflexivity|].
  destruct (is_str (prop parsed "type") "service_provider_entry"); [reflexivity|].
  destruct (is_str (prop parsed "type") "employee_entry"); [reflexivity|].
  rewrite bind_to_string in H.
  destruct (conversion_throws (prop parsed "type")); discriminate.
Qed.

(** X6: a scan writes to the store only when the request carries a truthy
    qrData that parses as JSON to a value whose type is one of the six the
    handler knows; every other request, whatever it holds, leaves the store
    as it was. *)
Theorem scan_writes_only_for_known_types req e d out d' :
  qr_scan req e d = (out, d') ->
  d' <> d ->
  exists parsed,
    truthy (prop (req_body req) "qrData") = true /\
    JSON_parse (js_string (prop (req_body req) "qrData")) = Some parsed /\
    existsb (is_str (prop parsed "type")) qr_types = true.
Proof.
  intros H Hd. unfold qr_scan, try_catch in H. rewrite bind_eq in H.
  destruct (qr_scan_entryData req e d) as [[[r|entryData]|f] d1] eqn:E.
  - apply qr_scan_entryData_result in E. destruct E as [-> _].
    injection H as _ <-. exfalso. apply Hd. reflexivity.
  - apply (switch_breaks_for_known_types req e d entryData d1 E).
  - apply qr_scan_entryData_result in E. destruct E as [-> _].
    injection H as _ <-. exfalso. apply Hd. reflexivity.
Qed.

Lemma appends_ret r Q : appends (ret r) Q.
Proof. intros d o d' E. injection E as _ <-. left. reflexivity. Qed.

Lemma appends_bind {A : Type} (m : task A) (k : A -> task Response) (P : A -> Prop) Q :
  reads m P -> (forall a, appends (k a) Q) -> appends (bind m k) Q.
Proof.
  intros Hm Hk d o d' E. rewrite bind_eq in E.
  destruct (m d) as [[a|f] d1] eqn:Em; destruct (Hm d _ _ Em) as [-> _].
  - apply (Hk a d o d' E).
  - injection E as _ <-. left. reflexivity.
Qed.

Lemma appends_try_catch (m : task Response) (h : failure -> task Response) Q :
  appends m Q -> (forall f, exists r, h f = ret r) -> appends (try_catch m h) Q.
Proof.
  intros Hm Hh d o d' E. unfold try_catch in E.
  destruct (m d) as [[a|f] d1] eqn:Em.
  - injection E as _ <-. apply (Hm d _ _ Em).
  - destruct (Hh f) as (r & Hr). rewrite Hr in E. injection E as _ <-.
    apply (Hm d _ _ Em).
Qed.

Lemma reads_not_null what v : reads (not_null what v) (fun _ => True).
Proof.
  unfold not_null. destruct (nullish v); [apply reads_throw | apply reads_ret; exact I].
Qed.

Lemma reads_findFirst w : reads (prisma_gateEntry_findFirst w) (fun _ => True).
Proof. apply (reads_bind _ _ _ _ (reads_lift _)). intros i. apply reads_read. Qed.

Lemma reads_resident_findFirst v :
  reads (prisma_resident_findFirst_apartment v) (fun _ => True).
Proof. apply (reads_bind _ _ _ _ (reads_lift _)). intros i. apply reads_read. Qed.

Lemma default_string_ok model field dflt s x :
  default_string model field dflt (JStr s) = Ok x -> x = s.
Proof. simpl. intros H. injection H as <-. reflexivity. Qed.

Lemma validate_create_gate e data x :
  validate_create e data = Ok x ->
  default_string "GateEntry" "gate" "Main Gate" (data_gate data) = Ok (gate x) /\
  default_string "GateEntry" "method" "Manual" (data_method data) = Ok (method x).
Proof.
  unfold validate_create. intros H.
  repeat (apply obind_ok in H; destruct H as [? [? H]]).
  injection H as <-. simpl. split; assumption.
Qed.

Lemma appends_record e data :
  data_gate data = JStr "Main Gate" -> data_method data = JStr "QR Code" ->
  appends (record_entry e data)
    (fun x => gate x = "Main Gate" /\ method x = "QR Code" /\
              createdAt x = db_now e /\ id x = fresh_id e).
Proof.
  intros Hg Hm d o d' E. rewrite record_entry_eq in E.
  destruct (validate_create e data) as [x|f] eqn:Hc.
  - cbv zeta in E. injection E as _ <-. right. exists x. split; [reflexivity|].
    destruct (validate_create_gate _ _ _ Hc) as [Hg' Hm'].
    rewrite Hg in Hg'. rewrite Hm in Hm'.
    apply default_string_ok in Hg', Hm'.
    apply validate_create_ok in Hc. destruct Hc as (_ & _ & _ & _ & _ & Hts & Hid).
    repeat split; assumption.
  - injection E as _ <-. left. reflexivity.
Qed.

Lemma appends_bind_with {A : Type} (m : task A) (k : A -> task Response)
  (P : A -> Prop) Q :
  reads m P -> (forall a, P a -> appends (k a) Q) -> appends (bind m k) Q.
Proof.
  intros Hm Hk d o d' E. rewrite bind_eq in E.
  destruct (m d) as [[a|f] d1] eqn:Em; destruct (Hm d _ _ Em) as [-> Ha].
  - apply (Hk a Ha d o d' E).
  - injection E as _ <-. left. reflexivity.
Qed.

Lemma reads_to_string v : reads (to_string v) (fun _ => True).
Proof.
  unfold to_string. destruct (conversion_throws v);
    [apply reads_throw | apply reads_ret; exact I].
Qed.

Lemma reads_new_Date v : reads (new_Date v) (fun _ => True).
Proof.
  unfold new_Date. destruct (conversion_throws v);
    [apply reads_throw | apply reads_ret; exact I].
Qed.

Lemma reads_guest_vehicle parsed :
  reads (if truthy (prop parsed "licensePlate") then
           vehicleType <- to_string (prop parsed "vehicleType") ;;
           licensePlate <- to_string (prop parsed "licensePlate") ;;
           ret (JStr (vehicleType +++ " (" +++ licensePlate +++ ")"))
         else ret (js_or (prop parsed "vehicleType") (JStr "None")))
        (fun _ => True).
Proof.
  intros d o d' E. destruct (guest_vehicle_reads parsed d) as (o' & E').
  rewrite E' in E. injection E as <- <-. split; [reflexivity|]. destruct o'; exact I.
Qed.

Ltac switch_walk :=
  repeat first
    [ apply reads_throw
    | apply reads_ret
    | eapply reads_bind;
      [ first [ apply reads_not_null | apply reads_findFirst
              | apply reads_resident_findFirst | apply reads_to_string
              | apply reads_new_Date | apply reads_guest_vehicle ]
      | intros ]
    | match goal with
      | |- reads (if ?c then _ else _) _ => destruct c
      | |- reads (match ?x with _ => _ end) _ => destruct x
      | |- reads (let _ := _ in _) _ => cbv zeta
      end ];
  try solve [ exact I | split; reflexivity ].

Lemma qr_scan_entryData_reads req e : reads (qr_scan_entryData req e) at_the_main_gate.
Proof. unfold qr_scan_entryData. switch_walk. Qed.

Lemma qr_scan_appends req e :
  appends (qr_scan req e)
    (fun x => gate x = "Main Gate" /\ method x = "QR Code" /\
              createdAt x = db_now e /\ id x = fresh_id e).
Proof.
  unfold qr_scan. apply appends_try_catch.
  - apply (appends_bind_with _ _ _ _ (qr_scan_entryData_reads req e)).
    intros [r|entryData] H; [apply appends_ret|].
    destruct H as [Hg Hm]. apply appends_record; assumption.
  - intros f. eexists. reflexivity.
Qed.

(** X7: whatever the request, POST /qr-scan (behind its middlewares) either
    leaves the store as it was or appends exactly one gate entry, recorded
    at the gate "Main Gate" with the method "QR Code" and stamped with the
    store's clock and the id it generated; the rows already in the log and
    the other collections are never changed. *)
Theorem scan_only_appends_a_qr_row req e d out d' :
  route_qr_scan req e d = (out, d') ->
  d' = d \/
  exists x, d' = set_gateEntries (gateEntries d ++ [x]) d /\
            gate x = "Main Gate" /\ method x = "QR Code" /\
            createdAt x = db_now e /\ id x = fresh_id e.
Proof.
  intros H. apply admin_chain_cases in H.
  destruct H as [(r & _ & _ & ->) | (req' & H)].
  - left. reflexivity.
  - apply (qr_scan_appends req' e d out d' H).
Qed.

(** ** GET / (all gate entries) *)

Lemma pagination_keys_distinct : NoDup (map fst PaginationSchema).
Proof.
  unfold PaginationSchema. simpl.
  repeat (constructor;
          [simpl; intros H; repeat (destruct H as [H|H]; [discriminate|]); exact H|]).
  constructor.
Qed.

Lemma z_numeric_ok refine msg v x :
  z_parse (z_optional (z_numeric_string refine msg)) v = inr x ->
  (v = JUndefined /\ x = JUndefined) \/ exists n, x = JNum n /\ refine n = true.
Proof.
  simpl. destruct v; try discriminate.
  - intros H. injection H as <-. left. split; reflexivity.
  - destruct (Number_of s) as [n|]; [|discriminate].
    destruct (refine n) eqn:E; [|discriminate].
    intros H. injection H as <-. right. exists n. split; [reflexivity | exact E].
Qed.

Lemma num_or_positive n dflt : 0 < n -> num_or (JNum n) dflt = n.
Proof.
  intros H. unfold num_or, js_or. cbn [truthy].
  destruct (n =? 0) eqn:E; [apply Z.eqb_eq in E; lia | reflexivity].
Qed.

Lemma ceil_div_bounds total limit :
  0 < limit ->
  (ceil_div total limit - 1) * limit < total <= ceil_div total limit * limit.
Proof.
  intros H. unfold ceil_div.
  pose proof (Z.div_mod (total + limit - 1) limit ltac:(lia)) as E.
  pose proof (Z.mod_pos_bound (total + limit - 1) limit H) as B.
  nia.
Qed.

Lemma firstn_length_le {A : Type} n (l : list A) : (List.length (firstn n l) <= n)%nat.
Proof. rewrite length_firstn. lia. Qed.

(** X8: a listing of the gate entries that is answered 200 leaves the store
    as it was and returns one page: page is at least 1 (1 when the query
    gives none), limit is between 1 and 100 (20 when the query gives none),
    the page holds at most limit entries, and pages is the least number of
    pages of that size that hold the total. *)
Theorem list_gate_entries_returns_one_page req e d r d' :
  list_gate_entries req e d = (Ok r, d') ->
  status r = 200 ->
  d' = d /\
  exists entries page limit total,
    body r = [("entries", JArr entries);
              ("pagination",
               JObj [("page", JNum page); ("limit", JNum limit); ("total", JNum total);
                     ("pages", JNum (ceil_div total limit))])] /\
    1 <= page /\ 1 <= limit <= 100 /\
    (prop (req_query req) "page" = JUndefined -> page = 1) /\
    (prop (req_query req) "limit" = JUndefined -> limit = 20) /\
    Z.of_nat (List.length entries) <= limit /\
    0 <= total /\
    (ceil_div total limit - 1) * limit < total <= ceil_div total limit * limit.
Proof.
  intros H Hst. unfold list_gate_entries, try_catch in H. rewrite bind_lift in H.
  destruct (z_object PaginationSchema (req_query req)) as [q|f] eqn:Hq.
  2:{ injection H as <- <-. discriminate Hst. }
  assert (Hpage : In ("page", z_optional (z_numeric_string (fun n => 0 <? n)
                                            "Page must be positive")) PaginationSchema).
  { unfold PaginationSchema. simpl. repeat (first [left; reflexivity | right]). }
  assert (Hlimit : In ("limit", z_optional (z_numeric_string
                                              (fun n => (0 <? n) && (n <=? 100))
                                              "Limit must be between 1 and 100"))
                      PaginationSchema).
  { unfold PaginationSchema. simpl. repeat (first [left; reflexivity | right]). }
  destruct (z_field _ _ _ _ _ pagination_keys_distinct Hpage Hq) as (p & Ep & Hp).
  destruct (z_field _ _ _ _ _ pagination_keys_distinct Hlimit Hq) as (l & El & Hl).
  apply z_numeric_ok in Ep, El.
  assert (Pg : 1 <= num_or (prop q "page") 1 /\
               (prop (req_query req) "page" = JUndefined -> num_or (prop q "page") 1 = 1)).
  { rewrite Hp. destruct Ep as [[Eu ->] | (n & -> & Hn)].
    - split; [reflexivity | intros _; reflexivity].
    - apply Z.ltb_lt in Hn. rewrite (num_or_positive _ _ Hn). split; [lia|].
      intros Eu. destruct (z_field _ _ _ _ _ pagination_keys_distinct Hpage Hq)
        as (p' & Ep' & Hp').
      rewrite Eu in Ep'. simpl in Ep'. injection Ep' as <-.
      rewrite Hp in Hp'. discriminate Hp'. }
  assert (Lm : 1 <= num_or (prop q "limit") 20 <= 100 /\
               (prop (req_query req) "limit" = JUndefined ->
                num_or (prop q "limit") 20 = 20)).
  { rewrite Hl. destruct El as [[Eu ->] | (n & -> & Hn)].
    - split; [split; discriminate | intros _; reflexivity].
    - apply andb_true_iff in Hn. destruct Hn as [Hn1 Hn2].
      apply Z.ltb_lt in Hn1. apply Z.leb_le in Hn2.
      rewrite (num_or_positive _ _ Hn1). split; [lia|].
      intros Eu. destruct (z_field _ _ _ _ _ pagination_keys_distinct Hlimit Hq)
        as (l' & El' & Hl').
      rewrite Eu in El'. simpl in El'. injection El' as <-.
      rewrite Hl in Hl'. discriminate Hl'. }
  cbv zeta in H. rewrite bind_eq in H. unfold prisma_gateEntry_findMany in H.
  destruct (order_rows _ _ _) as [rows|].
  2:{ injection H as <- <-. discriminate Hst. }
  rewrite bind_eq in H. unfold prisma_gateEntry_count, read, ret in H.
  injection H as <- <-. split; [reflexivity|].
  eexists. eexists. eexists. eexists. split; [reflexivity|].
  destruct Pg as [Pg1 Pg2]. destruct Lm as [Lm1 Lm2].
  split; [exact Pg1|]. split; [exact Lm1|]. split; [exact Pg2|]. split; [exact Lm2|].
  split.
  - rewrite length_map, length_map.
    pose proof (firstn_length_le (Z.to_nat (num_or (prop q "limit") 20))
                  (skipn (Z.to_nat ((num_or (prop q "page") 1 - 1)
                                    * num_or (prop q "limit") 20)) rows)) as Hf.
    lia.
  - split; [lia|]. apply ceil_div_bounds. lia.
Qed.

(** ** GET /stats/today, continued *)

Lemma unseen_split t seen (l : list GateEntry) :
  existsb (String.eqb t) seen = false ->
  List.length (filter (fun y => negb (existsb (String.eqb (entryType y)) seen)) l) =
  (List.length (filter (fun y => String.eqb (entryType y) t) l) +
   List.length (filter (fun y => negb (existsb (String.eqb (entryType y)) (t :: seen))) l))%nat.
Proof.
  intros Ht. induction l as [|y r IH]; [reflexivity|].
  cbn [filter].
  assert (Hhead : existsb (String.eqb (entryType y)) (t :: seen) =
                  String.eqb (entryType y) t || existsb (String.eqb (entryType y)) seen)
    by reflexivity.
  rewrite Hhead.
  destruct (String.eqb (entryType y) t) eqn:E.
  - assert (Hu : existsb (String.eqb (entryType y)) seen = false).
    { apply String.eqb_eq in E. rewrite E. exact Ht. }
    rewrite Hu. cbn [negb orb List.length]. rewrite IH. reflexivity.
  - cbn [orb]. destruct (negb (existsb (String.eqb (entryType y)) seen));
      cbn [List.length]; rewrite IH; lia.
Qed.

Lemma group_count_sum l seen :
  sum (map snd (group_count l seen)) =
  Z.of_nat (List.length (filter (fun y => negb (existsb (String.eqb (entryType y)) seen)) l)).
Proof.
  revert seen. induction l as [|x r IH]; intros seen; [reflexivity|].
  cbn [group_count].
  destruct (existsb (String.eqb (entryType x)) seen) eqn:E.
  - cbn [filter]. rewrite E. cbn [negb]. apply IH.
  - cbn [map snd sum fold_right]. fold (sum (map snd (group_count r (entryType x :: seen)))).
    rewrite IH. cbn [filter]. rewrite E, String.eqb_refl. cbn [negb List.length].
    rewrite (unseen_split (entryType x) seen r E). lia.
Qed.

Lemma group_count_keys l seen :
  NoDup (map fst (group_count l seen)) /\
  forall k, In k (map fst (group_count l seen)) -> existsb (String.eqb k) seen = false.
Proof.
  revert seen. induction l as [|x r IH]; intros seen.
  - split; [constructor | intros k []].
  - cbn [group_count].
    destruct (existsb (String.eqb (entryType x)) seen) eqn:E; [apply IH|].
    destruct (IH (entryType x :: seen)) as [Hnd Hk].
    cbn [map fst]. split.
    + constructor; [|exact Hnd].
      intros Hin. apply Hk in Hin. cbn [existsb] in Hin.
      rewrite String.eqb_refl in Hin. discriminate Hin.
    + intros k [<-|Hin]; [exact E|].
      apply Hk in Hin. cbn [existsb] in Hin.
      apply orb_false_iff in Hin. apply Hin.
Qed.

Lemma group_count_positive l seen g : In g (group_count l seen) -> 1 <= snd g.
Proof.
  revert seen. induction l as [|x r IH]; intros seen; [intros []|].
  cbn [group_count].
  destruct (existsb (String.eqb (entryType x)) seen); [apply IH|].
  intros [<-|Hin]; [|apply (IH _ Hin)].
  cbn [snd filter]. rewrite String.eqb_refl. cbn [List.length]. lia.
Qed.

Lemma entries_and_exits (p : GateEntry -> bool) l :
  (List.length (filter (fun x => is_type ENTRY x && p x) l) +
   List.length (filter (fun x => is_type EXIT x && p x) l))%nat =
  List.length (filter p l).
Proof.
  unfold is_type. induction l as [|x r IH]; [reflexivity|].
  cbn [filter].
  destruct (type x), (p x); cbn [EntryType_eqb andb List.length]; lia.
Qed.

(** X9: in the answer of GET /stats/today the groups of entryTypeStats have
    pairwise different entry types, each counts at least one row, and their
    counts add up to totalEntries + totalExits: every gate entry of the day
    is counted in exactly one group. *)
Theorem stats_today_groups_add_up req e d :
  exists r statistics totalEntries totalExits groups,
    stats_today req e d = (Ok r, d) /\
    assoc "statistics" (body r) = Some statistics /\
    prop statistics "totalEntries" = JNum totalEntries /\
    prop statistics "totalExits" = JNum totalExits /\
    assoc "entryTypeStats" (body r) =
      Some (JArr (map (fun g => JObj [("entryType", JStr (fst g));
                                      ("_count", JObj [("entryType", JNum (snd g))])])
                      groups)) /\
    NoDup (map fst groups) /\
    (forall g, In g groups -> 1 <= snd g) /\
    sum (map snd groups) = totalEntries + totalExits.
Proof.
  unfold stats_today, try_catch.
  repeat rewrite bind_eq. unfold prisma_gateEntry_count, read, ret.
  cbv beta iota zeta.
  eexists. eexists. eexists. eexists.
  exists (group_count (filter (in_range (startOfDay (now e)) (nextDay (startOfDay (now e))))
                         (gateEntries d)) []).
  split; [reflexivity|]. split; [reflexivity|].
  split; [reflexivity|]. split; [reflexivity|]. split; [reflexivity|].
  split; [apply group_count_keys|].
  split; [intros g; apply group_count_positive|].
  rewrite group_count_sum. cbn [existsb negb].
  assert (Hall : forall l : list GateEntry, filter (fun _ => true) l = l).
  { intros l. induction l as [|a l' IH]; [reflexivity|]. cbn [filter]. rewrite IH.
    reflexivity. }
  rewrite Hall.
  rewrite <- (entries_and_exits
                (in_range (startOfDay (now e)) (nextDay (startOfDay (now e))))
                (gateEntries d)).
  rewrite Nat2Z.inj_add. reflexivity.
Qed.

(** ** The middlewares, continued *)

Lemma is_str_iff v lit : is_str v lit = true <-> v = JStr lit.
Proof.
  destruct v; simpl; split; intros H; try discriminate.
  - apply String.eqb_eq in H. rewrite H. reflexivity.
  - injection H as ->. apply String.eqb_refl.
Qed.

(** X10: authorizeRoles lets a request through exactly when it carries a
    user whose type is one of the allowed roles, and then hands it on
    unchanged; in particular no role list lets a request without a user
    through, and the empty list lets nothing through. *)
Theorem authorizeRoles_passes_iff roles req e d req' d' :
  authorizeRoles roles req e d = (Ok (inr req'), d') <->
  req' = req /\ d' = d /\
  exists u role, req_user req = Some u /\ truthy u = true /\
                 In role roles /\ prop u "type" = JStr role.
Proof.
  unfold authorizeRoles, respond, next, ret. split.
  - destruct (req_user req) as [u|]; [|discriminate].
    destruct (truthy u) eqn:Ht; cbn [negb]; [|discriminate].
    destruct (existsb (is_str (prop u "type")) roles) eqn:Hr; cbn [negb]; [|discriminate].
    intros H. injection H as <- <-. split; [reflexivity|]. split; [reflexivity|].
    apply existsb_exists in Hr. destruct Hr as (role & Hin & Hrole).
    exists u, role. split; [reflexivity|]. split; [exact Ht|].
    split; [exact Hin | apply is_str_iff; exact Hrole].
  - intros (-> & -> & u & role & -> & -> & Hin & Hty). cbn [negb].
    assert (Hr : existsb (is_str (prop u "type")) roles = true).
    { apply existsb_exists. exists role. split; [exact Hin | apply is_str_iff; exact Hty]. }
    rewrite Hr. reflexivity.
Qed.

Lemma split_space_word s : no_space s = true -> split_space s = [s].
Proof.
  unfold no_space. induction s as [|c s IH]; [reflexivity|].
  cbn [list_ascii_of_string existsb split_space].
  rewrite Ascii.eqb_sym. destruct (Ascii.eqb c " "); cbn [orb negb]; [discriminate|].
  intros H. rewrite (IH H). reflexivity.
Qed.

Lemma split_space_app scheme rest :
  no_space scheme = true ->
  split_space (scheme +++ " " +++ rest) = scheme :: split_space rest.
Proof.
  unfold no_space. induction scheme as [|c s IH].
  - intros _. reflexivity.
  - cbn [list_ascii_of_string existsb]. rewrite Ascii.eqb_sym.
    change (String c s +++ " " +++ rest) with (String c (s +++ " " +++ rest)).
    cbn [split_space].
    destruct (Ascii.eqb c " "); cbn [orb negb]; [discriminate|].
    intros H. rewrite (IH H). reflexivity.
Qed.

(** X11: authenticateToken takes the second word of the Authorization
    header as the token and never looks at the first: whatever the scheme
    word is, "Bearer" or not, the verdict is that of the token; and a header
    of a single word, a bare token for instance, is answered 401 "No token
    provided". *)
Theorem scheme_of_the_header_is_not_checked req e d :
  (forall scheme token,
     no_space scheme = true -> no_space token = true ->
     req_authorization req = Some (scheme +++ " " +++ token) ->
     authenticateToken req e d =
       (Ok (if String.eqb token ""
            then inl (error_json 401 "Access denied" "No token provided")
            else match jwt_verify token (JWT_SECRET e) (now e) with
                 | Some user => inr (set_user req user)
                 | None => inl (error_json 403 "Invalid token"
                                  "Token is not valid or has expired")
                 end), d)) /\
  (forall word,
     no_space word = true ->
     req_authorization req = Some word ->
     authenticateToken req e d =
       (Ok (inl (error_json 401 "Access denied" "No token provided")), d)).
Proof.
  split.
  - intros scheme token Hs Ht Hh. rewrite authenticateToken_eq, Hh.
    unfold bearer_token. rewrite (split_space_app _ _ Hs), (split_space_word _ Ht).
    reflexivity.
  - intros word Hw Hh. rewrite authenticateToken_eq, Hh.
    unfold bearer_token. rewrite (split_space_word _ Hw). reflexivity.
Qed.

Lemma verify_resident_active req e d user i x :
  req_user req = Some user ->
  truthy user = true ->
  is_str (prop user "type") "resident" = true ->
  prop user "id" = JStr i ->
  isObjectId i = true ->
  find (fun r => String.eqb (res_id r) i) (residents d) = Some x ->
  res_status x = "Active" ->
  res_approvalStatus x = APPROVED ->
  verifyUserExists req e d = (Ok (inr req), d).
Proof.
  intros Hu Ht Hty Hi Hoid Hf Hs Ha.
  unfold verifyUserExists, try_catch. rewrite Hu, Ht. cbn [negb]. cbv iota zeta.
  rewrite (is_str_exclusive _ "resident" "admin" Hty) by discriminate.
  rewrite Hty, Hi, bind_eq, resident_findUnique_eq.
  unfold unique_id, id_filter. rewrite Hoid, Hf, Hs, Ha. reflexivity.
Qed.

Lemma verify_provider_active req e d user i x :
  req_user req = Some user ->
  truthy user = true ->
  is_str (prop user "type") "serviceProvider" = true ->
  prop user "id" = JStr i ->
  isObjectId i = true ->
  find (fun p => String.eqb (sp_id p) i) (serviceProviders d) = Some x ->
  sp_status x = SP_ACTIVE ->
  verifyUserExists req e d = (Ok (inr req), d).
Proof.
  intros Hu Ht Hty Hi Hoid Hf Hs.
  unfold verifyUserExists, try_catch. rewrite Hu, Ht. cbn [negb]. cbv iota zeta.
  rewrite (is_str_exclusive _ "serviceProvider" "admin" Hty) by discriminate.
  rewrite (is_str_exclusive _ "serviceProvider" "resident" Hty) by discriminate.
  rewrite Hty, Hi, bind_eq, serviceProvider_findUnique_eq.
  unfold unique_id, id_filter, sp_is_active. rewrite Hoid, Hf, Hs. reflexivity.
Qed.

Lemma verify_employee_active req e d user i x :
  req_user req = Some user ->
  truthy user = true ->
  is_str (prop user "type") "employee" = true ->
  prop user "id" = JStr i ->
  isObjectId i = true ->
  find (fun p => String.eqb (emp_id p) i) (employees d) = Some x ->
  emp_status x = EMP_ACTIVE ->
  verifyUserExists req e d = (Ok (inr req), d).
Proof.
  intros Hu Ht Hty Hi Hoid Hf Hs.
  unfold verifyUserExists, try_catch. rewrite Hu, Ht. cbn [negb]. cbv iota zeta.
  rewrite (is_str_exclusive _ "employee" "admin" Hty) by discriminate.
  rewrite (is_str_exclusive _ "employee" "resident" Hty) by discriminate.
  rewrite (is_str_exclusive _ "employee" "serviceProvider" Hty) by discriminate.
  rewrite Hty, Hi, bind_eq, employee_findUnique_eq.
  unfold unique_id, id_filter, emp_is_active. rewrite Hoid, Hf, Hs. reflexivity.
Qed.

Lemma find_some_eqb {A : Type} (key : A -> string) i l x :
  find (fun y => String.eqb (key y) i) l = Some x -> In x l /\ key x = i.
Proof.
  intros H. apply find_some in H. destruct H as [Hin Hk].
  split; [exact Hin | apply String.eqb_eq; exact Hk].
Qed.

(** X12: on a store whose accounts carry ObjectIds, verifyUserExists lets a
    request through, unchanged and without writing, exactly when it carries
    a user whose account the store accepts: an admin that exists, or a
    resident, service provider or employee that exists and is active (and,
    for a resident, approved). *)
Theorem verifyUserExists_passes_iff req e d :
  store_ids_ok d ->
  (verifyUserExists req e d = (Ok (inr req), d) <->
   exists user, req_user req = Some user /\ truthy user = true /\
                account_accepted user d).
Proof.
  intros (Hadm & Hres & Hsp & Hemp). split.
  - intros H. apply verifyUserExists_passes in H. apply H.
  - intros (user & Hu & Ht & Hacc).
    destruct Hacc as [(Hty & oid & a & Ho & Hf)
                     |[(Hty & i & x & Hi & Hf & Hs & Ha)
                      |[(Hty & i & x & Hi & Hf & Hs)
                       |(Hty & i & x & Hi & Hf & Hs)]]].
    + apply (verify_admin req e d user oid a Hu Ht Hty Ho); [|exact Hf].
      destruct (find_some_eqb _ _ _ _ Hf) as [Hin <-]. apply Hadm. exact Hin.
    + apply (verify_resident_active req e d user i x Hu Ht Hty Hi); try assumption.
      destruct (find_some_eqb _ _ _ _ Hf) as [Hin <-]. apply Hres. exact Hin.
    + apply (verify_provider_active req e d user i x Hu Ht Hty Hi); try assumption.
      destruct (find_some_eqb _ _ _ _ Hf) as [Hin <-]. apply Hsp. exact Hin.
    + apply (verify_employee_active req e d user i x Hu Ht Hty Hi); try assumption.
      destruct (find_some_eqb _ _ _ _ Hf) as [Hin <-]. apply Hemp. exact Hin.
Qed.

(** ** Who reaches a handler *)

Lemma authenticateToken_denial req e d :
  exists x, authenticateToken req e d = (Ok x, d) /\ denial x.
Proof.
  rewrite authenticateToken_eq. eexists. split; [reflexivity|].
  destruct (bearer_token _) as [token|]; [|simpl; auto].
  destruct (String.eqb token ""); [simpl; auto|].
  destruct (jwt_verify _ _ _); simpl; auto.
Qed.

Lemma verifyUserExists_denial req e d :
  exists x, verifyUserExists req e d = (Ok x, d) /\ denial x.
Proof.
  apply try_catch_reads.
  - reads_walk; simpl; auto 6.
  - intros f. eexists. split; [reflexivity|]. simpl. auto 6.
Qed.

Lemma authorizeRoles_denial roles req e d :
  exists x, authorizeRoles roles req e d = (Ok x, d) /\ denial x.
Proof.
  unfold authorizeRoles, respond, next, ret.
  destruct (req_user req) as [u|]; [|eexists; split; [reflexivity | simpl; auto]].
  destruct (negb (truthy u)); [eexists; split; [reflexivity | simpl; auto]|].
  destruct (negb (existsb _ roles)); eexists; (split; [reflexivity | simpl; auto]).
Qed.

(** The three middlewares in front of a handler: they end the chain with a
    refusal, or hand a request over; either way the store is as it was. *)
Lemma auth_chain_verdict roles req e d :
  exists x, through (authenticateAndVerify ++ [authorizeRoles roles]) req e d = (Ok x, d) /\
            denial x.
Proof.
  simpl through. rewrite bind_eq.
  destruct (authenticateToken_denial req e d) as ([r|req1] & -> & H1).
  { exists (inl r). split; [reflexivity | exact H1]. }
  rewrite bind_eq.
  destruct (verifyUserExists_denial req1 e d) as ([r|req2] & -> & H2).
  { exists (inl r). split; [reflexivity | exact H2]. }
  rewrite bind_eq.
  destruct (authorizeRoles_denial roles req2 e d) as ([r|req3] & -> & H3).
  { exists (inl r). split; [reflexivity | exact H3]. }
  exists (inr req3). split; [reflexivity | exact I].
Qed.

(** X13: behind authenticateAndVerify and requireAdmin no handler, whatever
    it does, changes the store unless the request carries a token that
    verifies to a user of type admin whose account exists in the store: the
    middlewares themselves never write. *)
Theorem only_an_admin_changes_the_store (h : handler) req e d out d' :
  chain (authenticateAndVerify ++ [requireAdmin]) h req e d = (out, d') ->
  d' <> d ->
  exists token user oid a,
    bearer_token (req_authorization req) = Some token /\
    jwt_verify token (JWT_SECRET e) (now e) = Some user /\
    prop user "type" = JStr "admin" /\
    ObjectId_new (prop user "id") = Some oid /\
    find (fun x => String.eqb (admin_id x) oid) (admins d) = Some a.
Proof.
  intros H Hd. rewrite chain_through in H.
  destruct (auth_chain_verdict ["admin"] req e d) as (x & Hx & _).
  change (authorizeRoles ["admin"]) with requireAdmin in Hx.
  rewrite Hx in H. destruct x as [r|req'].
  { injection H as _ <-. exfalso. apply Hd. reflexivity. }
  apply (served_only_if ["admin"]) in Hx.
  destruct Hx as (_ & token & user & Hb & Hv & _ & Hacc & Hr).
  cbn [existsb] in Hr. rewrite orb_false_r in Hr.
  exists token, user.
  destruct Hacc as [(Hty & oid & a & Ho & Hf)
                   |[(Hty & _)|[(Hty & _)|(Hty & _)]]].
  - exists oid, a. split; [exact Hb|]. split; [exact Hv|].
    split; [apply is_str_iff; exact Hr|]. split; [exact Ho | exact Hf].
  - rewrite (is_str_exclusive _ "resident" "admin" Hty) in Hr by discriminate.
    discriminate Hr.
  - rewrite (is_str_exclusive _ "serviceProvider" "admin" Hty) in Hr by discriminate.
    discriminate Hr.
  - rewrite (is_str_exclusive _ "employee" "admin" Hty) in Hr by discriminate.
    discriminate Hr.
Qed.

(** X14: a request whose token verifies to a user type that is not among
    the roles of a route is never handed to the handler: the chain answers
    401, 403, 404 or 500 itself, the same answer whatever the handler is,
    and the store stays as it was. *)
Theorem other_roles_never_reach_the_handler roles req e d token user :
  bearer_token (req_authorization req) = Some token ->
  jwt_verify token (JWT_SECRET e) (now e) = Some user ->
  existsb (is_str (prop user "type")) roles = false ->
  exists r,
    In (status r) [401; 403; 404; 500] /\
    forall h : handler,
      chain (authenticateAndVerify ++ [authorizeRoles roles]) h req e d = (Ok r, d).
Proof.
  intros Hb Hv Hr.
  destruct (auth_chain_verdict roles req e d) as (x & Hx & Hden).
  destruct x as [r|req'].
  - exists r. split; [exact Hden|]. intros h. rewrite chain_through, Hx. reflexivity.
  - exfalso. apply (served_only_if roles) in Hx.
    destruct Hx as (_ & token' & user' & Hb' & Hv' & _ & _ & Hr').
    rewrite Hb in Hb'. injection Hb' as <-. rewrite Hv in Hv'. injection Hv' as <-.
    rewrite Hr in Hr'. discriminate Hr'.
Qed.

(** ** POST /refresh *)

(** X15: POST /refresh signs a new token for whatever id, type and e-mail
    the presented token carries and never consults the store: the answer is
    the same on every store, so a token is refreshed also after its account
    was deactivated or deleted. *)
Theorem refresh_never_consults_the_store req e token user t :
  bearer_token (req_authorization req) = Some token ->
  token <> "" ->
  jwt_verify token (JWT_SECRET e) (now e) = Some user ->
  nullish user = false ->
  generateToken (JObj [("id", prop user "id"); ("type", prop user "type");
                       ("email", prop user "email")]) e = Ok t ->
  forall d,
    route_refresh req e d =
      (Ok {| status := 200;
             body := [("message", JStr "Token refreshed successfully");
                      ("token", JStr t)] |}, d).
Proof.
  intros Hb Hne Hv Hn Hg d.
  assert (Hempty : String.eqb token "" = false) by (apply String.eqb_neq; exact Hne).
  unfold route_refresh. simpl chain.
  rewrite bind_eq, authenticateToken_eq, Hb, Hempty, Hv.
  unfold refresh_token, try_catch. cbn [req_user set_user].
  rewrite bind_not_null, Hn, bind_lift, Hg. reflexivity.
Qed.

(** ** POST /resident/login *)

Lemma login_keys_distinct : NoDup (map fst LoginSchema).
Proof.
  unfold LoginSchema. simpl.
  repeat (constructor;
          [simpl; intros H; repeat (destruct H as [H|H]; [discriminate|]); exact H|]).
  constructor.
Qed.

Lemma z_email_inv msg v x :
  z_parse (z_email msg) v = inr x -> exists s, v = JStr s /\ x = JStr s /\ is_email s = true.
Proof.
  simpl. destruct v; try discriminate.
  destruct (is_email s) eqn:E; [|discriminate].
  intros H. injection H as <-. exists s. repeat split. exact E.
Qed.

Lemma z_string_inv min msg v x :
  z_parse (z_string min msg) v = inr x ->
  exists s, v = JStr s /\ x = JStr s /\ (min <= utf16_length s)%nat.
Proof.
  simpl. destruct v; try discriminate.
  destruct (min <=? utf16_length s)%nat eqn:E; [|discriminate].
  intros H. injection H as <-. exists s. repeat split. apply Nat.leb_le. exact E.
Qed.

(** What a body that passes the login schema holds. *)
Lemma login_fields body v :
  z_object LoginSchema body = Ok v ->
  exists m p,
    prop body "email" = JStr m /\ prop v "email" = JStr m /\ is_email m = true /\
    prop body "password" = JStr p /\ prop v "password" = JStr p /\
    (6 <= utf16_length p)%nat.
Proof.
  intros H.
  assert (Hin1 : In ("email", z_email "Invalid email address") LoginSchema)
    by (left; reflexivity).
  assert (Hin2 : In ("password", z_string 6 "Password must be at least 6 characters")
                    LoginSchema) by (right; left; reflexivity).
  destruct (z_field _ _ _ _ _ login_keys_distinct Hin1 H) as (x1 & E1 & H1).
  destruct (z_field _ _ _ _ _ login_keys_distinct Hin2 H) as (x2 & E2 & H2).
  apply z_email_inv in E1. destruct E1 as (m & Em & -> & Hm).
  apply z_string_inv in E2. destruct E2 as (p & Ep & -> & Hp).
  exists m, p. repeat split; assumption.
Qed.

Lemma login_valid body m p :
  prop body "email" = JStr m -> is_email m = true ->
  prop body "password" = JStr p -> (6 <= utf16_length p)%nat ->
  exists v, z_object LoginSchema body = Ok v /\
            prop v "email" = JStr m /\ prop v "password" = JStr p.
Proof.
  intros Hm He Hp Hl.
  destruct (prop_is_object _ _ _ Hm) as (fields & ->); [discriminate|].
  assert (Hall : forall k z, In (k, z) LoginSchema ->
                             z_parse z (prop (JObj fields) k) = inr (prop (JObj fields) k)).
  { intros k z [Hin|[Hin|[]]]; injection Hin as <- <-.
    - rewrite Hm. simpl. rewrite He. reflexivity.
    - rewrite Hp. apply z_string_intro. exact Hl. }
  assert (Hval : z_object LoginSchema (JObj fields) =
                 Ok (JObj (z_output LoginSchema (JObj fields)))).
  { apply z_object_intro. intros k z Hin. eexists. apply Hall. exact Hin. }
  eexists. split; [exact Hval|].
  assert (Hin1 : In ("email", z_email "Invalid email address") LoginSchema)
    by (left; reflexivity).
  assert (Hin2 : In ("password", z_string 6 "Password must be at least 6 characters")
                    LoginSchema) by (right; left; reflexivity).
  destruct (z_field _ _ _ _ _ login_keys_distinct Hin1 Hval) as (x1 & E1 & ->).
  destruct (z_field _ _ _ _ _ login_keys_distinct Hin2 Hval) as (x2 & E2 & ->).
  rewrite (Hall _ _ Hin1) in E1. rewrite (Hall _ _ Hin2) in E2.
  injection E1 as <-. injection E2 as <-. split; assumption.
Qed.

Lemma findUnique_email_eq m d :
  prisma_resident_findUnique_email (JStr m) d =
  (Ok (find (fun r => String.eqb (res_email r) m) (residents d)), d).
Proof. reflexivity. Qed.

(** The handler after a body that passed the schema. *)
Lemma resident_login_eq req e d v m p :
  z_object LoginSchema (req_body req) = Ok v ->
  prop v "email" = JStr m -> prop v "password" = JStr p ->
  resident_login req e d =
  (Ok match find (fun r => String.eqb (res_email r) m) (residents d) with
      | None => error_json 401 "Invalid credentials" "Email or password is incorrect"
      | Some x =>
          if no_password x || negb (bcrypt_compare p (stored_password x))
          then error_json 401 "Invalid credentials" "Email or password is incorrect"
          else if negb (String.eqb (res_status x) "Active")
          then error_json 403 "Account inactive" "Your account is not active"
          else if negb (ApprovalStatus_eqb (res_approvalStatus x) APPROVED)
          then error_json 403 "Account not approved" "Your account is pending approval"
          else match generateToken (resident_payload x) e with
               | Ok token =>
                   {| status := 200;
                      body := [("message", JStr "Login successful");
                               ("token", JStr token);
                               ("user",
                                JObj [("id", JStr (res_id x));
                                      ("name", JStr (res_name x));
                                      ("email", JStr (res_email x));
                                      ("apartment", JStr (res_apartment x));
                                      ("type", JStr "resident");
                                      ("status", JStr (res_status x));
                                      ("approvalStatus",
                                       JStr (ApprovalStatus_string
                                               (res_approvalStatus x)))])] |}
               | Throw f => error_json 400 "Login failed" (describe f)
               end
      end, d).
Proof.
  intros Hval Hm Hp. unfold resident_login, try_catch, comparePassword, error_message.
  rewrite bind_lift, Hval. cbv zeta. rewrite Hm, Hp, bind_eq, findUnique_email_eq.
  cbn [js_string].
  destruct (find _ (residents d)) as [x|]; [|reflexivity].
  destruct (no_password x || negb (bcrypt_compare p (stored_password x))); [reflexivity|].
  destruct (negb (String.eqb (res_status x) "Active")); [reflexivity|].
  destruct (negb (ApprovalStatus_eqb (res_approvalStatus x) APPROVED)); [reflexivity|].
  rewrite bind_lift. unfold resident_payload.
  destruct (generateToken _ e); reflexivity.
Qed.

(** X16: POST /resident/login answers every request, with 200, 400, 401 or
    403, and never writes to the store. *)
Theorem login_never_writes req e d :
  exists r, resident_login req e d = (Ok r, d) /\ In (status r) [200; 400; 401; 403].
Proof.
  destruct (z_object LoginSchema (req_body req)) as [v|f] eqn:Hval.
  - destruct (login_fields _ _ Hval) as (m & p & _ & Hm & _ & _ & Hp & _).
    rewrite (resident_login_eq req e d v m p Hval Hm Hp).
    eexists. split; [reflexivity|].
    destruct (find _ (residents d)) as [x|]; [|simpl; auto].
    destruct (no_password x || negb (bcrypt_compare p (stored_password x)));
      [simpl; auto|].
    destruct (negb (String.eqb (res_status x) "Active")); [simpl; auto|].
    destruct (negb (ApprovalStatus_eqb (res_approvalStatus x) APPROVED)); [simpl; auto|].
    destruct (generateToken _ e); simpl; auto.
  - unfold resident_login, try_catch. rewrite bind_lift, Hval.
    eexists. split; [reflexivity|]. simpl. auto.
Qed.

Lemma approved_iff a : ApprovalStatus_eqb a APPROVED = true <-> a = APPROVED.
Proof. destruct a; simpl; split; intros H; try discriminate; reflexivity. Qed.

(** X17: POST /resident/login answers 200 only when the body names, by its
    e-mail, a stored resident who has a password that the given password
    matches, whose status is "Active" and whose approvalStatus is APPROVED;
    the token in the answer is the one signed for that resident's id and
    e-mail with the type "resident". *)
Theorem login_succeeds_only_with_the_credentials req e d r d' :
  resident_login req e d = (Ok r, d') ->
  status r = 200 ->
  exists x m p h t,
    prop (req_body req) "email" = JStr m /\
    prop (req_body req) "password" = JStr p /\
    find (fun y => String.eqb (res_email y) m) (residents d) = Some x /\
    res_password x = Some h /\ h <> "" /\ bcrypt_compare p h = true /\
    res_status x = "Active" /\ res_approvalStatus x = APPROVED /\
    generateToken (resident_payload x) e = Ok t /\
    assoc "token" (body r) = Some (JStr t).
Proof.
  intros H Hst.
  destruct (z_object LoginSchema (req_body req)) as [v|f] eqn:Hval.
  2:{ unfold resident_login, try_catch in H. rewrite bind_lift, Hval in H.
      injection H as <- <-. discriminate Hst. }
  destruct (login_fields _ _ Hval) as (m & p & Hbm & Hm & _ & Hbp & Hp & _).
  rewrite (resident_login_eq req e d v m p Hval Hm Hp) in H.
  destruct (find _ (residents d)) as [x|] eqn:Hf.
  2:{ injection H as <- <-. discriminate Hst. }
  destruct (no_password x || negb (bcrypt_compare p (stored_password x))) eqn:Hpw.
  { injection H as <- <-. discriminate Hst. }
  destruct (String.eqb (res_status x) "Active") eqn:Hs; cbn [negb] in H.
  2:{ injection H as <- <-. discriminate Hst. }
  destruct (ApprovalStatus_eqb (res_approvalStatus x) APPROVED) eqn:Ha; cbn [negb] in H.
  2:{ injection H as <- <-. discriminate Hst. }
  destruct (generateToken (resident_payload x) e) as [t|f] eqn:Hg.
  2:{ injection H as <- <-. discriminate Hst. }
  injection H as <- <-.
  apply orb_false_iff in Hpw. destruct Hpw as [Hno Hcmp].
  apply negb_false_iff in Hcmp.
  unfold no_password in Hno. unfold stored_password in Hcmp.
  destruct (res_password x) as [h|] eqn:Hh; [|discriminate Hno].
  exists x, m, p, h, t.
  split; [exact Hbm|]. split; [exact Hbp|]. split; [exact Hf|].
  split; [exact Hh|]. split; [apply String.eqb_neq; exact Hno|].
  split; [exact Hcmp|]. split; [apply String.eqb_eq; exact Hs|].
  split; [apply approved_iff; exact Ha|]. split; [exact Hg | reflexivity].
Qed.

Lemma login_accepts_credentials_run req e d x m p h t :
  prop (req_body req) "email" = JStr m -> is_email m = true ->
  prop (req_body req) "password" = JStr p -> (6 <= utf16_length p)%nat ->
  find (fun y => String.eqb (res_email y) m) (residents d) = Some x ->
  res_password x = Some h -> h <> "" -> bcrypt_compare p h = true ->
  res_status x = "Active" -> res_approvalStatus x = APPROVED ->
  generateToken (resident_payload x) e = Ok t ->
  exists r,
    resident_login req e d = (Ok r, d) /\ status r = 200 /\
    assoc "token" (body r) = Some (JStr t).
Proof.
  intros Hbm He Hbp Hl Hf Hh Hne Hcmp Hs Ha Hg.
  destruct (login_valid _ _ _ Hbm He Hbp Hl) as (v & Hval & Hm & Hp).
  rewrite (resident_login_eq req e d v m p Hval Hm Hp), Hf.
  unfold no_password, stored_password. rewrite Hh, Hcmp.
  apply String.eqb_neq in Hne. rewrite Hne, Hs, Ha, Hg.
  eexists. split; [reflexivity|]. repeat split.
Qed.

(** X18: POST /resident/login answers 200, with a token signed for the
    resident, whenever the body gives a well-formed e-mail and a password of
    six characters or more, the e-mail is that of a stored resident whose
    password the given one matches, the resident is "Active" and APPROVED,
    and the token can be signed; the user object of the answer holds the
    resident's id, name, e-mail, apartment, type, status and approvalStatus,
    and not the password hash. *)
Theorem login_accepts_the_credentials req e d x m p h t :
  prop (req_body req) "email" = JStr m -> is_email m = true ->
  prop (req_body req) "password" = JStr p -> (6 <= utf16_length p)%nat ->
  find (fun y => String.eqb (res_email y) m) (residents d) = Some x ->
  res_password x = Some h -> h <> "" -> bcrypt_compare p h = true ->
  res_status x = "Active" -> res_approvalStatus x = APPROVED ->
  generateToken (resident_payload x) e = Ok t ->
  resident_login req e d =
    (Ok {| status := 200;
           body := [("message", JStr "Login successful");
                    ("token", JStr t);
                    ("user",
                     JObj [("id", JStr (res_id x)); ("name", JStr (res_name x));
                           ("email", JStr m); ("apartment", JStr (res_apartment x));
                           ("type", JStr "resident"); ("status", JStr "Active");
                           ("approvalStatus", JStr "APPROVED")])] |}, d).
Proof.
  intros Hbm He Hbp Hl Hf Hh Hne Hcmp Hs Ha Hg.
  destruct (login_valid _ _ _ Hbm He Hbp Hl) as (v & Hval & Hm & Hp).
  rewrite (resident_login_eq req e d v m p Hval Hm Hp), Hf.
  unfold no_password, stored_password. rewrite Hh, Hcmp.
  apply String.eqb_neq in Hne. rewrite Hne, Hs, Ha, Hg.
  destruct (find_some_eqb _ _ _ _ Hf) as [_ ->]. reflexivity.
Qed.

Lemma find_by_unique_key {A : Type} (key : A -> string) l x :
  NoDup (map key l) -> In x l -> find (fun y => String.eqb (key y) (key x)) l = Some x.
Proof.
  induction l as [|a r IH]; simpl; intros Hnd Hin; [contradiction|].
  inversion Hnd as [|? ? Hnotin Hnd']; subst.
  destruct Hin as [->|Hin]; [rewrite String.eqb_refl; reflexivity|].
  destruct (String.eqb (key a) (key x)) eqn:E; [|apply IH; assumption].
  apply String.eqb_eq in E. exfalso. apply Hnotin. rewrite E.
  apply in_map. exact Hin.
Qed.

(** X19: login and the account check of the middleware agree.  On a store
    whose residents have pairwise different ids, all ObjectIds, a login that
    is answered 200 signs a payload that verifyUserExists lets through, on
    that store, for any request that carries it. *)
Theorem login_token_passes_the_account_check req e d r d' :
  resident_login req e d = (Ok r, d') ->
  status r = 200 ->
  NoDup (map res_id (residents d)) ->
  resident_ids_ok d ->
  exists x t,
    In x (residents d) /\
    generateToken (resident_payload x) e = Ok t /\
    assoc "token" (body r) = Some (JStr t) /\
    forall req' e',
      req_user req' = Some (resident_payload x) ->
      verifyUserExists req' e' d = (Ok (inr req'), d).
Proof.
  intros H Hst Hnd Hids.
  destruct (z_object LoginSchema (req_body req)) as [v|f] eqn:Hval.
  2:{ unfold resident_login, try_catch in H. rewrite bind_lift, Hval in H.
      injection H as <- <-. discriminate Hst. }
  destruct (login_fields _ _ Hval) as (m & p & _ & Hm & _ & _ & Hp & _).
  rewrite (resident_login_eq req e d v m p Hval Hm Hp) in H.
  destruct (find _ (residents d)) as [x|] eqn:Hf.
  2:{ injection H as <- <-. discriminate Hst. }
  destruct (no_password x || negb (bcrypt_compare p (stored_password x))).
  { injection H as <- <-. discriminate Hst. }
  destruct (String.eqb (res_status x) "Active") eqn:Hs; cbn [negb] in H.
  2:{ injection H as <- <-. discriminate Hst. }
  destruct (ApprovalStatus_eqb (res_approvalStatus x) APPROVED) eqn:Ha; cbn [negb] in H.
  2:{ injection H as <- <-. discriminate Hst. }
  destruct (generateToken (resident_payload x) e) as [t|f] eqn:Hg.
  2:{ injection H as <- <-. discriminate Hst. }
  injection H as <- <-.
  apply find_some in Hf. destruct Hf as [Hin _].
  exists x, t. split; [exact Hin|]. split; [exact Hg|]. split; [reflexivity|].
  intros req' e' Hu.
  apply (verify_resident_active req' e' d (resident_payload x) (res_id x) x Hu);
    try reflexivity.
  - apply Hids. exact Hin.
  - apply (find_by_unique_key res_id _ _ Hnd Hin).
  - apply String.eqb_eq. exact Hs.
  - apply approved_iff. exact Ha.
Qed.

(** ** PATCH /:id/approval *)

Lemma update_first_resident_split i f l x :
  find (fun y => String.eqb (res_id y) i) l = Some x ->
  exists before after,
    l = before ++ x :: after /\
    update_first_resident i f l = before ++ f x :: after /\
    res_id x = i /\ forall y, In y before -> res_id y <> i.
Proof.
  induction l as [|a r IH]; simpl; intros H; [discriminate|].
  destruct (String.eqb (res_id a) i) eqn:E.
  - injection H as <-. exists [], r. repeat split.
    + apply String.eqb_eq. exact E.
    + intros y [].
  - destruct (IH H) as (before & after & -> & Hup & Hid & Hb).
    exists (a :: before), after. rewrite Hup. repeat split.
    + exact Hid.
    + intros y [<-|Hy]; [apply String.eqb_neq; exact E | apply Hb; exact Hy].
Qed.

Lemma update_first_resident_snoc i f l x :
  (forall y, In y l -> res_id y <> i) -> res_id x = i ->
  update_first_resident i f (l ++ [x]) = l ++ [f x].
Proof.
  induction l as [|a r IH]; simpl; intros Hl Hx.
  - rewrite Hx, String.eqb_refl. reflexivity.
  - destruct (String.eqb (res_id a) i) eqn:E.
    + apply String.eqb_eq in E. exfalso. apply (Hl a (or_introl eq_refl)). exact E.
    + f_equal. apply IH; [|exact Hx]. intros y Hy. apply Hl. right. exact Hy.
Qed.

(** The handler on a body whose approvalStatus is APPROVED or REJECTED. *)
Lemma resident_approval_eq req e d a :
  a <> APPROVAL_PENDING ->
  prop (req_body req) "approvalStatus" = JStr (ApprovalStatus_string a) ->
  resident_approval req e d =
  if isObjectId (req_params_id req) then
    match find (fun r => String.eqb (res_id r) (req_params_id req)) (residents d) with
    | None => (Ok (error_json 500 "Failed to update approval status"
                     "Internal server error"), d)
    | Some x =>
        let st := if ApprovalStatus_eqb a APPROVED then "Active" else "Rejected" in
        (Ok {| status := 200;
               body := [("message",
                         JStr ("Resident "
                               +++ (if ApprovalStatus_eqb a APPROVED
                                    then "approved" else "rejected")
                               +++ " successfully"));
                        ("resident",
                         JObj [("id", JStr (res_id x));
                               ("name", JStr (res_name x));
                               ("apartment", JStr (res_apartment x));
                               ("email", JStr (res_email x));
                               ("status", JStr st);
                               ("approvalStatus", JStr (ApprovalStatus_string a))])] |},
         set_residents
           (update_first_resident (req_params_id req) (set_approval (Some a) st)
              (residents d)) d)
    end
  else (Ok (error_json 500 "Failed to update approval status" "Internal server error"), d).
Proof.
  intros Ha Hbody.
  assert (Hobj : nullish (req_body req) = false).
  { destruct (req_body req); try reflexivity; simpl in Hbody; discriminate Hbody. }
  unfold resident_approval, try_catch. cbv zeta.
  rewrite bind_not_null, Hobj, Hbody.
  unfold prisma_resident_update_approval, id_filter.
  destruct a; [exfalso; apply Ha; reflexivity| |];
    cbn [ApprovalStatus_string existsb is_str String.eqb Ascii.eqb Bool.eqb orb negb
         ApprovalStatus_eqb];
    rewrite bind_eq, bind_lift;
    (destruct (isObjectId (req_params_id req)); [|reflexivity]);
    rewrite bind_lift;
    cbn [approval_update_value String.eqb Ascii.eqb Bool.eqb];
    (destruct (find _ (residents d)); reflexivity).
Qed.

(** X20: PATCH /:id/approval has no middleware in front of it and reads
    nothing of the caller: for every request, with or without a token, that
    names a stored resident and whose body asks for APPROVED or REJECTED, it
    answers 200 and sets that resident's approvalStatus to the value asked
    for and the status to "Active" (APPROVED) or "Rejected" (REJECTED),
    leaving the resident's other columns and the other residents alone. *)
Theorem approval_needs_no_token req e d x a :
  a <> APPROVAL_PENDING ->
  prop (req_body req) "approvalStatus" = JStr (ApprovalStatus_string a) ->
  isObjectId (req_params_id req) = true ->
  find (fun r => String.eqb (res_id r) (req_params_id req)) (residents d) = Some x ->
  exists r before after,
    route_resident_approval req e d =
      (Ok r,
       set_residents
         (before ++
          set_approval (Some a)
            (if ApprovalStatus_eqb a APPROVED then "Active" else "Rejected") x :: after) d) /\
    status r = 200 /\
    residents d = before ++ x :: after /\
    forall y, In y before -> res_id y <> req_params_id req.
Proof.
  intros Ha Hbody Hoid Hf.
  destruct (update_first_resident_split (req_params_id req)
              (set_approval (Some a)
                 (if ApprovalStatus_eqb a APPROVED then "Active" else "Rejected"))
              _ _ Hf) as (before & after & Hl & Hup & _ & Hb).
  unfold route_resident_approval. cbn [chain].
  rewrite (resident_approval_eq req e d a Ha Hbody), Hoid, Hf. cbv zeta. rewrite Hup.
  eexists. exists before, after.
  split; [reflexivity|]. split; [reflexivity|]. split; [exact Hl | exact Hb].
Qed.


(** ** Registration, approval and login together *)

Lemma default_string_given model field dflt s x :
  default_string model field dflt (JStr s) = Ok x -> x = s.
Proof. simpl. intros H. injection H as <-. reflexivity. Qed.

(** What a registration that is answered 201 found and stored. *)
Lemma register_201 req e d r d1 :
  register_resident req e d = (Ok r, d1) ->
  status r = 201 ->
  exists v m x,
    z_object ResidentRegistrationSchema (req_body req) = Ok v /\
    prop (req_body req) "email" = JStr m /\
    (forall y, In y (residents d) -> res_email y <> m) /\
    d1 = set_residents (residents d ++ [x]) d /\
    res_id x = fresh_id e /\ res_email x = m /\
    res_status x = "Pending" /\ res_approvalStatus x = APPROVAL_PENDING /\
    res_password x =
      (if truthy (prop v "password")
       then Some (hashPassword (js_string (prop v "password")) e) else None).
Proof.
  intros H Hst. unfold register_resident, try_catch in H. rewrite bind_lift in H.
  destruct (z_object ResidentRegistrationSchema (req_body req)) as [v|f] eqn:Hval.
  2:{ injection H as <- <-. discriminate Hst. }
  destruct (registration_fields _ _ Hval)
    as (_ & (a & Ha & _) & _ & (m & Hm & Hbm) & _ & _ & _ & (fields & Hv)).
  rewrite Hm, Ha, bind_eq, findFirst_or_eq in H.
  destruct (find _ (residents d)) as [y|] eqn:Hf.
  { injection H as <- <-. discriminate Hst. }
  cbv zeta in H. rewrite bind_eq in H. unfold prisma_resident_create in H.
  rewrite bind_lift in H.
  destruct (validate_resident e _) as [x|f] eqn:Hrow.
  2:{ injection H as <- <-. discriminate Hst. }
  destruct (unique_violation (residents d) x).
  { injection H as <- <-. discriminate Hst. }
  injection H as _ <-.
  exists v, m, x. split; [reflexivity|]. split; [exact Hbm|].
  split.
  { intros y Hy E. apply (find_none _ _ Hf) in Hy.
    apply orb_false_iff in Hy. destruct Hy as [Hy _].
    rewrite E, String.eqb_refl in Hy. discriminate Hy. }
  split; [reflexivity|].
  unfold validate_resident in Hrow. rewrite Hv in Hrow. rewrite !prop_spread in Hrow.
  cbn [assoc String.eqb Ascii.eqb Bool.eqb] in Hrow.
  rewrite <- Hv in Hrow. rewrite Hm in Hrow.
  repeat (apply obind_ok in Hrow; destruct Hrow as [? [? Hrow]]).
  injection Hrow as <-.
  cbn [res_id res_email res_status res_approvalStatus res_password].
  repeat match goal with
         | H : required_string _ _ (JStr _) = Ok _ |- _ =>
             apply required_string_ok in H; injection H as H
         | H : default_string _ _ _ (JStr _) = Ok _ |- _ =>
             apply default_string_given in H
         | H : approval_value (JStr _) = Ok _ |- _ =>
             cbn [approval_value String.eqb Ascii.eqb Bool.eqb] in H; injection H as H
         end.
  subst.
  split; [reflexivity|]. split; [reflexivity|]. split; [reflexivity|].
  split; [reflexivity|].
  match goal with
  | H : optional_string _ "password" _ = Ok _ |- _ =>
      destruct (truthy _); cbn [optional_string] in H; injection H as <-; reflexivity
  end.
Qed.

(** X22: a resident who has just registered cannot log in: on the store a
    registration answered 201 leaves, a login with the registered e-mail is
    refused, with whatever password, with 400, 401 or 403, and writes
    nothing. *)
Theorem registered_resident_cannot_log_in_yet req e d r1 d1 req_l e_l :
  register_resident req e d = (Ok r1, d1) ->
  status r1 = 201 ->
  prop (req_body req_l) "email" = prop (req_body req) "email" ->
  exists r2, resident_login req_l e_l d1 = (Ok r2, d1) /\ In (status r2) [400; 401; 403].
Proof.
  intros Hreg Hst Hsame.
  destruct (register_201 _ _ _ _ _ Hreg Hst)
    as (v & m & x & _ & Hbm & Hfresh & -> & _ & Hxm & Hxs & _).
  destruct (z_object LoginSchema (req_body req_l)) as [v2|f] eqn:Hval.
  2:{ unfold resident_login, try_catch. rewrite bind_lift, Hval.
      eexists. split; [reflexivity|]. simpl. auto. }
  destruct (login_fields _ _ Hval) as (m2 & p & Hbm2 & Hm2 & _ & _ & Hp & _).
  rewrite Hsame, Hbm in Hbm2. injection Hbm2 as <-.
  rewrite (resident_login_eq req_l e_l _ v2 m p Hval Hm2 Hp).
  cbn [residents set_residents].
  assert (Hfind : find (fun y => String.eqb (res_email y) m) (residents d ++ [x]) = Some x).
  { apply find_snoc_fresh.
    - intros y Hy. apply String.eqb_neq. apply Hfresh. exact Hy.
    - apply String.eqb_eq. exact Hxm. }
  rewrite Hfind. eexists. split; [reflexivity|].
  destruct (no_password x || negb (bcrypt_compare p (stored_password x))); [simpl; auto|].
  rewrite Hxs. simpl. auto.
Qed.

Lemma z_optional_string_inv min msg v x :
  z_parse (z_optional (z_string min msg)) (JStr v) = inr x ->
  x = JStr v /\ (min <= utf16_length v)%nat.
Proof.
  simpl. destruct (min <=? utf16_length v)%nat eqn:E; [|discriminate].
  intros H. injection H as <-. split; [reflexivity | apply Nat.leb_le; exact E].
Qed.

Lemma truthy_long_string s : (6 <= utf16_length s)%nat -> truthy (JStr s) = true.
Proof. destruct s; intros H; [vm_compute in H; lia | reflexivity]. Qed.

(** X23: registration, approval and login fit together.  After a
    registration answered 201 with a password, an approval of the new id
    with APPROVED is answered 200; a login with the registered e-mail and
    password is then answered 200 with a token (where bcrypt matches a
    password against its own hash and the token can be signed), and
    verifyUserExists lets the payload of that token through. *)
Theorem register_approve_login req e d r1 d1 p req_a e_a req_l e_l t :
  register_resident req e d = (Ok r1, d1) ->
  status r1 = 201 ->
  prop (req_body req) "password" = JStr p ->
  isObjectId (fresh_id e) = true ->
  (forall y, In y (residents d) -> res_id y <> fresh_id e) ->
  req_params_id req_a = fresh_id e ->
  prop (req_body req_a) "approvalStatus" = JStr "APPROVED" ->
  prop (req_body req_l) "email" = prop (req_body req) "email" ->
  prop (req_body req_l) "password" = JStr p ->
  bcrypt_compare p (bcrypt_hash p (bcrypt_salt e)) = true ->
  bcrypt_hash p (bcrypt_salt e) <> "" ->
  generateToken (JObj [("id", JStr (fresh_id e)); ("type", JStr "resident");
                       ("email", prop (req_body req) "email")]) e_l = Ok t ->
  exists r2 d2 r3,
    route_resident_approval req_a e_a d1 = (Ok r2, d2) /\ status r2 = 200 /\
    route_resident_login req_l e_l d2 = (Ok r3, d2) /\ status r3 = 200 /\
    assoc "token" (body r3) = Some (JStr t) /\
    forall req' e',
      req_user req' = Some (JObj [("id", JStr (fresh_id e)); ("type", JStr "resident");
                                  ("email", prop (req_body req) "email")]) ->
      verifyUserExists req' e' d2 = (Ok (inr req'), d2).
Proof.
  intros Hreg Hst Hpw Hoid Hnew Hida Hbody Hsame Hpl Hcmp Hne Hg.
  destruct (register_201 _ _ _ _ _ Hreg Hst)
    as (v & m & x & Hval & Hbm & Hfresh & -> & Hxid & Hxm & Hxs & Hxa & Hxp).
  (* the stored password *)
  assert (Hinpw : In ("password",
                      z_optional (z_string 6 "Password must be at least 6 characters"))
                     ResidentRegistrationSchema).
  { unfold ResidentRegistrationSchema. simpl. repeat (first [left; reflexivity | right]). }
  destruct (z_field _ _ _ _ _ registration_keys_distinct Hinpw Hval) as (pw & Epw & Hvpw).
  rewrite Hpw in Epw. apply z_optional_string_inv in Epw. destruct Epw as [-> Hlen].
  rewrite Hvpw, (truthy_long_string _ Hlen) in Hxp. cbn [js_string] in Hxp.
  unfold hashPassword in Hxp.
  (* the e-mail *)
  assert (Hinm : In ("email", z_email "Invalid email address") ResidentRegistrationSchema).
  { unfold ResidentRegistrationSchema. simpl. repeat (first [left; reflexivity | right]). }
  destruct (z_field _ _ _ _ _ registration_keys_distinct Hinm Hval) as (vm & Em & _).
  rewrite Hbm in Em. apply z_email_inv in Em. destruct Em as (m' & Em' & _ & Hmail).
  injection Em' as <-.
  (* approval *)
  set (x' := set_approval (Some APPROVED) "Active" x).
  assert (Hfind : find (fun y => String.eqb (res_id y) (fresh_id e)) (residents d ++ [x])
                  = Some x).
  { apply find_snoc_fresh.
    - intros y Hy. apply String.eqb_neq. apply Hnew. exact Hy.
    - apply String.eqb_eq. exact Hxid. }
  assert (Happ : route_resident_approval req_a e_a (set_residents (residents d ++ [x]) d) =
                 (Ok {| status := 200;
                        body := [("message", JStr "Resident approved successfully");
                                 ("resident",
                                  JObj [("id", JStr (res_id x));
                                        ("name", JStr (res_name x));
                                        ("apartment", JStr (res_apartment x));
                                        ("email", JStr (res_email x));
                                        ("status", JStr "Active");
                                        ("approvalStatus", JStr "APPROVED")])] |},
                  set_residents (residents d ++ [x']) d)).
  { unfold route_resident_approval. cbn [chain].
    rewrite (resident_approval_eq req_a e_a _ APPROVED ltac:(discriminate) Hbody).
    rewrite Hida, Hoid. cbn [residents set_residents]. rewrite Hfind.
    cbn [ApprovalStatus_eqb]. cbv zeta.
    rewrite (update_first_resident_snoc _ _ _ _ Hnew Hxid). reflexivity. }
  (* login *)
  assert (Hfind' : find (fun y => String.eqb (res_email y) m) (residents d ++ [x'])
                   = Some x').
  { apply find_snoc_fresh.
    - intros y Hy. apply String.eqb_neq. apply Hfresh. exact Hy.
    - apply String.eqb_eq. exact Hxm. }
  assert (Hpay : resident_payload x' =
                 JObj [("id", JStr (fresh_id e)); ("type", JStr "resident");
                       ("email", prop (req_body req) "email")]).
  { unfold resident_payload, x'. cbn [res_id res_email set_approval].
    rewrite Hxid, Hxm, Hbm. reflexivity. }
  rewrite Hbm in Hsame.
  destruct (login_accepts_credentials_run req_l e_l (set_residents (residents d ++ [x']) d)
              x' m p (bcrypt_hash p (bcrypt_salt e)) t)
    as (r3 & Hrun & Hst3 & Htok); try assumption; try reflexivity.
  { rewrite Hpay. exact Hg. }
  eexists. eexists. exists r3.
  split; [exact Happ|]. split; [reflexivity|].
  split; [exact Hrun|]. split; [exact Hst3|]. split; [exact Htok|].
  intros req' e' Hu. rewrite <- Hpay in Hu.
  apply (verify_resident_active req' e' _ (resident_payload x') (fresh_id e) x' Hu);
    try reflexivity.
  - unfold resident_payload, x'. cbn [res_id set_approval prop assoc String.eqb
      Ascii.eqb Bool.eqb]. rewrite Hxid. reflexivity.
  - exact Hoid.
  - cbn [residents set_residents]. apply find_snoc_fresh.
    + intros y Hy. apply String.eqb_neq. apply Hnew. exact Hy.
    + apply String.eqb_eq. exact Hxid.
Qed.

(** ** PATCH /:id/status (maintenance bills) *)

Lemma bill_findUnique_eq i d :
  prisma_maintenanceBill_findUnique i d =
  (if isObjectId i
   then Ok (find (fun b => String.eqb (bill_id b) i) (maintenanceBills d))
   else Throw (PrismaKnownError "P2023" "id"), d).
Proof.
  unfold prisma_maintenanceBill_findUnique, id_filter. rewrite bind_lift.
  destruct (isObjectId i); reflexivity.
Qed.

Lemma bill_update_cases i st paid d o d1 :
  prisma_maintenanceBill_update i st paid d = (o, d1) ->
  d1 = d \/
  exists s p, d1 = set_maintenanceBills
                     (update_first i (apply_update s p) (maintenanceBills d)) d.
Proof.
  unfold prisma_maintenanceBill_update, id_filter. rewrite bind_lift.
  destruct (isObjectId i); [|intros H; injection H as _ <-; left; reflexivity].
  rewrite bind_lift.
  destruct (bill_status_value st) as [s|f]; [|intros H; injection H as _ <-; left; reflexivity].
  rewrite bind_lift.
  destruct paid as [u|[t|]].
  - destruct (find _ (maintenanceBills d)); intros H; injection H as _ <-;
      [right; eexists; eexists; reflexivity | left; reflexivity].
  - destruct (find _ (maintenanceBills d)); intros H; injection H as _ <-;
      [right; eexists; eexists; reflexivity | left; reflexivity].
  - intros H; injection H as _ <-; left; reflexivity.
Qed.

Lemma update_bill_status_cases req e d out d' :
  update_bill_status req e d = (out, d') ->
  d' = d \/
  exists s p, d' = set_maintenanceBills
                     (update_first (req_params_id req) (apply_update s p)
                        (maintenanceBills d)) d.
Proof.
  unfold update_bill_status, try_catch. cbv zeta. rewrite bind_lift.
  destruct (z_object BillUpdateSchema (req_body req)) as [v|f];
    [|intros H; injection H as _ <-; left; reflexivity].
  rewrite bind_eq, bill_findUnique_eq.
  destruct (isObjectId (req_params_id req));
    [|intros H; injection H as _ <-; left; reflexivity].
  destruct (find _ (maintenanceBills d));
    [|intros H; injection H as _ <-; left; reflexivity].
  rewrite bind_eq.
  destruct (prisma_maintenanceBill_update _ _ _ d) as [[b'|f] d1] eqn:Hup;
    intros H; injection H as _ <-; apply (bill_update_cases _ _ _ _ _ _ Hup).
Qed.

Lemma bill_kept_refl i b : bill_kept i b b.
Proof. unfold bill_kept. repeat split; intros H; first [reflexivity | exact H]. Qed.

Lemma update_first_kept i s p l :
  Forall2 (bill_kept i) l (update_first i (apply_update s p) l).
Proof.
  induction l as [|b r IH]; [constructor|].
  cbn [update_first]. destruct (String.eqb (bill_id b) i) eqn:E.
  - constructor.
    + unfold bill_kept. cbn [apply_update bill_id bill_residentId bill_month bill_year
        bill_dueDate bill_paidDate].
      repeat split.
      * intros Hne. apply String.eqb_eq in E. exfalso. apply Hne. exact E.
      * destruct p; [discriminate | intros H; exact H].
    + clear IH. induction r as [|c r IH]; constructor; [apply bill_kept_refl | exact IH].
  - constructor; [apply bill_kept_refl | exact IH].
Qed.

Lemma Forall2_kept_refl i l : Forall2 (bill_kept i) l l.
Proof. induction l as [|b r IH]; constructor; [apply bill_kept_refl | exact IH]. Qed.


Lemma update_first_split i f l b :
  find (fun y => String.eqb (bill_id y) i) l = Some b ->
  exists before after,
    l = before ++ b :: after /\ update_first i f l = before ++ f b :: after /\
    forall y, In y before -> bill_id y <> i.
Proof.
  induction l as [|a r IH]; simpl; intros H; [discriminate|].
  destruct (String.eqb (bill_id a) i) eqn:E.
  - injection H as <-. exists [], r. repeat split. intros y [].
  - destruct (IH H) as (before & after & -> & Hup & Hb).
    exists (a :: before), after. rewrite Hup. repeat split.
    intros y [<-|Hy]; [apply String.eqb_neq; exact E | apply Hb; exact Hy].
Qed.

Lemma bill_update_keys_distinct : NoDup (map fst BillUpdateSchema).
Proof.
  unfold BillUpdateSchema. simpl.
  repeat (constructor;
          [simpl; intros H; repeat (destruct H as [H|H]; [discriminate|]); exact H|]).
  constructor.
Qed.

(** X25: updating a stored bill with the status PAID and no paidDate
    answers 200 and stores, for that bill alone, the status PAID and the
    current time as its paid date. *)
Theorem paying_a_bill_stamps_it req e d b :
  prop (req_body req) "status" = JStr "PAID" ->
  prop (req_body req) "paidDate" = JUndefined ->
  isObjectId (req_params_id req) = true ->
  find (fun x => String.eqb (bill_id x) (req_params_id req)) (maintenanceBills d) = Some b ->
  exists r before after,
    update_bill_status req e d =
      (Ok r,
       set_maintenanceBills
         (before ++ apply_update (Some PAID) (Some (now e)) b :: after) d) /\
    status r = 200 /\
    maintenanceBills d = before ++ b :: after /\
    forall y, In y before -> bill_id y <> req_params_id req.
Proof.
  intros Hs Hp Hoid Hf.
  destruct (prop_is_object _ _ _ Hs) as (fields & Hbody); [discriminate|].
  rewrite Hbody in Hs, Hp.
  assert (Hall : forall k z, In (k, z) BillUpdateSchema ->
                             z_parse z (prop (JObj fields) k) = inr (prop (JObj fields) k)).
  { intros k z [Hin|[Hin|[]]]; injection Hin as <- <-.
    - rewrite Hs. reflexivity.
    - rewrite Hp. reflexivity. }
  assert (Hval : z_object BillUpdateSchema (JObj fields) =
                 Ok (JObj (z_output BillUpdateSchema (JObj fields)))).
  { apply z_object_intro. intros k z Hin. eexists. apply Hall. exact Hin. }
  assert (Hin1 : In ("status", z_optional (z_enum ["PENDING"; "PAID"; "OVERDUE"]))
                    BillUpdateSchema) by (left; reflexivity).
  assert (Hin2 : In ("paidDate", z_optional (z_string 0 "")) BillUpdateSchema)
    by (right; left; reflexivity).
  destruct (z_field _ _ _ _ _ bill_update_keys_distinct Hin1 Hval) as (x1 & E1 & H1).
  destruct (z_field _ _ _ _ _ bill_update_keys_distinct Hin2 Hval) as (x2 & E2 & H2).
  rewrite (Hall _ _ Hin1) in E1. rewrite (Hall _ _ Hin2) in E2.
  rewrite Hs in E1. rewrite Hp in E2. injection E1 as <-. injection E2 as <-.
  destruct (update_first_split (req_params_id req)
              (apply_update (Some PAID) (Some (now e))) _ _ Hf)
    as (before & after & Hl & Hup & Hb).
  unfold update_bill_status, try_catch. cbv zeta.
  rewrite bind_lift, Hbody, Hval, bind_eq, bill_findUnique_eq, Hoid, Hf, H1, H2.
  cbn [truthy is_str String.eqb Ascii.eqb Bool.eqb negb andb].
  rewrite bind_eq. unfold prisma_maintenanceBill_update, id_filter.
  rewrite bind_lift, Hoid, bind_lift.
  cbn [bill_status_value String.eqb Ascii.eqb Bool.eqb].
  rewrite bind_lift, Hf, Hup.
  eexists. exists before, after.
  split; [reflexivity|]. split; [reflexivity|]. split; [exact Hl | exact Hb].
Qed.

(** ** The global error handler *)

(** X26: with NODE_ENV set to production the global error handler never
    passes on the message or the stack of the error it handles: the message
    of its answer is one of six fixed texts and there is no stack field; a
    stack field is written only when NODE_ENV is development. *)
Theorem error_details_stay_in_development err e :
  (NODE_ENV e = Some "production" ->
   assoc "stack" (body (error_handler err e)) = None /\
   exists msg, In msg fixed_messages /\
               assoc "message" (body (error_handler err e)) = Some (JStr msg)) /\
  (assoc "stack" (body (error_handler err e)) <> None ->
   NODE_ENV e = Some "development").
Proof.
  unfold error_handler, fixed_messages. split.
  - intros Hprod. unfold env_is. rewrite Hprod.
    cbn [String.eqb Ascii.eqb Bool.eqb].
    destruct (code_is err "P2002");
      [split; [reflexivity | eexists; split; [|reflexivity]; simpl; auto 7]|].
    destruct (code_is err "P2025");
      [split; [reflexivity | eexists; split; [|reflexivity]; simpl; auto 7]|].
    destruct (name_is err "ZodError");
      [split; [reflexivity | eexists; split; [|reflexivity]; simpl; auto 7]|].
    destruct (name_is err "JsonWebTokenError");
      [split; [reflexivity | eexists; split; [|reflexivity]; simpl; auto 7]|].
    destruct (name_is err "TokenExpiredError");
      [split; [reflexivity | eexists; split; [|reflexivity]; simpl; auto 7]|].
    split; [reflexivity | eexists; split; [|reflexivity]; simpl; auto 7].
  - destruct (code_is err "P2002"); [intros H; exfalso; apply H; reflexivity|].
    destruct (code_is err "P2025"); [intros H; exfalso; apply H; reflexivity|].
    destruct (name_is err "ZodError"); [intros H; exfalso; apply H; reflexivity|].
    destruct (name_is err "JsonWebTokenError"); [intros H; exfalso; apply H; reflexivity|].
    destruct (name_is err "TokenExpiredError"); [intros H; exfalso; apply H; reflexivity|].
    unfold env_is at 3. destruct (NODE_ENV e) as [x|].
    + destruct (String.eqb x "development") eqn:E.
      * intros _. apply String.eqb_eq in E. rewrite E. reflexivity.
      * intros H; exfalso; apply H; reflexivity.
    + intros H; exfalso; apply H; reflexivity.
Qed.

(** ** GET /admin/stats, continued *)

Lemma count_nonneg {A : Type} (p : A -> bool) l : 0 <= count p l.
Proof. unfold count. lia. Qed.

Lemma count_disjoint {A : Type} (p q : A -> bool) l :
  (forall x, p x = true -> q x = false) ->
  count p l + count q l <= count (fun _ => true) l.
Proof.
  intros H. unfold count. induction l as [|a r IH]; [simpl; lia|].
  cbn [filter]. specialize (H a).
  destruct (p a), (q a); cbn [List.length];
    first [lia | specialize (H eq_refl); discriminate H].
Qed.

Lemma count_le {A : Type} (p q : A -> bool) l :
  (forall x, p x = true -> q x = true) -> count p l <= count q l.
Proof.
  intros H. unfold count. induction l as [|a r IH]; [simpl; lia|].
  cbn [filter]. specialize (H a).
  destruct (p a), (q a); cbn [List.length];
    first [lia | specialize (H eq_refl); discriminate H].
Qed.

(** X27: the counts of the admin dashboard are consistent with one another:
    among the residents, active and pendingApprovals count disjoint sets and
    add up to at most total; likewise active and pending service providers;
    active employees are at most total; pending and paid bills add up to at
    most the total, and the overdue bills are among the pending ones. *)
Theorem admin_stats_counts_are_consistent req e d :
  exists r statistics rt ra rp st sa sp et ea bt bp bd bo,
    admin_stats req e d = (Ok r, d) /\
    assoc "statistics" (body r) = Some statistics /\
    prop statistics "residents" =
      JObj [("total", JNum rt); ("active", JNum ra); ("pendingApprovals", JNum rp)] /\
    prop statistics "serviceProviders" =
      JObj [("total", JNum st); ("active", JNum sa); ("pending", JNum sp)] /\
    prop statistics "employees" = JObj [("total", JNum et); ("active", JNum ea)] /\
    prop statistics "maintenanceBills" =
      JObj [("total", JNum bt); ("pending", JNum bp); ("paid", JNum bd);
            ("overdue", JNum bo)] /\
    0 <= ra /\ 0 <= rp /\ ra + rp <= rt /\
    0 <= sa /\ 0 <= sp /\ sa + sp <= st /\
    0 <= ea <= et /\
    0 <= bp /\ 0 <= bd /\ bp + bd <= bt /\ 0 <= bo <= bp.
Proof.
  unfold admin_stats, try_catch.
  repeat rewrite bind_eq. unfold prisma_gateEntry_count, read, ret.
  cbv beta iota zeta.
  do 14 eexists.
  split; [reflexivity|]. split; [reflexivity|]. split; [reflexivity|].
  split; [reflexivity|]. split; [reflexivity|]. split; [reflexivity|].
  split; [apply count_nonneg|]. split; [apply count_nonneg|].
  split.
  { apply count_disjoint. intros x Hx. apply andb_true_iff in Hx. destruct Hx as [_ Hx].
    destruct (res_approvalStatus x); try discriminate Hx; reflexivity. }
  split; [apply count_nonneg|]. split; [apply count_nonneg|].
  split.
  { apply count_disjoint. intros x. unfold sp_is_active.
    destruct (sp_status x); intros Hx; try discriminate Hx; reflexivity. }
  split.
  { split; [apply count_nonneg | apply count_le; reflexivity]. }
  split; [apply count_nonneg|]. split; [apply count_nonneg|].
  split.
  { apply count_disjoint. intros x. unfold bill_has.
    destruct (bill_status x); intros Hx; try discriminate Hx; reflexivity. }
  split; [apply count_nonneg|].
  apply count_le. intros x Hx. apply andb_true_iff in Hx. apply Hx.
Qed.

(** ** Deleting twice, and the two dashboards *)

Lemma find_after_remove_first i l :
  NoDup (map id l) -> find (fun y => String.eqb (id y) i) (remove_first i l) = None.
Proof.
  induction l as [|a r IH]; simpl; intros Hnd; [reflexivity|].
  inversion Hnd as [|? ? Hnotin Hnd']; subst.
  destruct (String.eqb (id a) i) eqn:E.
  - apply String.eqb_eq in E. subst i. apply find_none_iff. intros y Hy.
    apply String.eqb_neq. intros Heq. apply Hnotin. rewrite <- Heq.
    apply in_map. exact Hy.
  - simpl. rewrite E. apply IH. exact Hnd'.
Qed.

(** X28: on a log whose gate entries have pairwise different ids, deleting
    is idempotent: once a DELETE /:id was answered 200, the same request
    again is answered 404 and leaves the store as the first one left it. *)
Theorem deleting_twice_changes_nothing_more req e d r d1 e2 :
  NoDup (map id (gateEntries d)) ->
  delete_gate_entry req e d = (Ok r, d1) ->
  status r = 200 ->
  delete_gate_entry req e2 d1 =
    (Ok (error_json 404 "Gate entry not found" "Gate entry does not exist"), d1).
Proof.
  intros Hnd H Hst. unfold delete_gate_entry, try_catch in H.
  rewrite bind_eq, gateEntry_findUnique_eq in H.
  destruct (isObjectId (req_params_id req)) eqn:Hoid.
  2:{ injection H as <- <-. discriminate Hst. }
  destruct (find _ (gateEntries d)) as [x|] eqn:Hf.
  2:{ injection H as <- <-. discriminate Hst. }
  rewrite bind_eq, gateEntry_delete_eq, Hoid, Hf in H. injection H as _ <-.
  unfold delete_gate_entry, try_catch.
  rewrite bind_eq, gateEntry_findUnique_eq, Hoid.
  cbn [gateEntries set_gateEntries].
  rewrite (find_after_remove_first _ _ Hnd). reflexivity.
Qed.

(** X29: the two dashboards agree on the day: at the same time and on the
    same store, the number of today's gate entries of GET /admin/stats is
    totalEntries + totalExits of GET /stats/today. *)
Theorem dashboards_agree_on_today req1 req2 e d :
  exists r1 r2 s1 s2 totalEntries totalExits,
    stats_today req1 e d = (Ok r1, d) /\
    admin_stats req2 e d = (Ok r2, d) /\
    assoc "statistics" (body r1) = Some s1 /\
    prop s1 "totalEntries" = JNum totalEntries /\
    prop s1 "totalExits" = JNum totalExits /\
    assoc "statistics" (body r2) = Some s2 /\
    prop (prop s2 "gateEntries") "today" = JNum (totalEntries + totalExits).
Proof.
  unfold stats_today, admin_stats, try_catch.
  repeat rewrite bind_eq. unfold prisma_gateEntry_count, read, ret.
  cbv beta iota zeta.
  do 6 eexists.
  split; [reflexivity|]. split; [reflexivity|]. split; [reflexivity|].
  split; [reflexivity|]. split; [reflexivity|]. split; [reflexivity|].
  cbn [prop assoc String.eqb Ascii.eqb Bool.eqb].
  rewrite <- Nat2Z.inj_add, entries_and_exits. reflexivity.
Qed.

Lemma count_snoc (p : GateEntry -> bool) l x :
  Z.of_nat (List.length (filter p (l ++ [x]))) =
  Z.of_nat (List.length (filter p l)) + (if p x then 1 else 0).
Proof.
  rewrite filter_app, length_app. cbn [filter].
  destruct (p x); cbn [List.length]; lia.
Qed.

(** X30: a scan shows in the statistics of its day.  After a request to
    POST /qr-scan answered 201, which appends a row x stamped within the
    day, GET /stats/today reports totalEntries one higher than before if x
    is an ENTRY and unchanged if not, and totalExits one higher if x is an
    EXIT and unchanged if not, where the totals before count the rows of the
    day of type ENTRY and of type EXIT. *)
Theorem a_scan_shows_in_todays_statistics req e d r d' req2 e2 :
  route_qr_scan req e d = (Ok r, d') ->
  status r = 201 ->
  startOfDay (now e2) <= db_now e < nextDay (startOfDay (now e2)) ->
  let today := startOfDay (now e2) in
  let tomorrow := nextDay today in
  let created_today y := (today <=? createdAt y) && (createdAt y <? tomorrow) in
  let totalEntries :=
    count (fun y => EntryType_eqb (type y) ENTRY && created_today y) (gateEntries d) in
  let totalExits :=
    count (fun y => EntryType_eqb (type y) EXIT && created_today y) (gateEntries d) in
  exists x r1 r2 s1 s2,
    gateEntries d' = gateEntries d ++ [x] /\
    stats_today req2 e2 d = (Ok r1, d) /\
    stats_today req2 e2 d' = (Ok r2, d') /\
    assoc "statistics" (body r1) = Some s1 /\
    assoc "statistics" (body r2) = Some s2 /\
    prop s1 "totalEntries" = JNum totalEntries /\
    prop s1 "totalExits" = JNum totalExits /\
    prop s2 "totalEntries" =
      JNum (totalEntries + match type x with ENTRY => 1 | EXIT => 0 end) /\
    prop s2 "totalExits" =
      JNum (totalExits + match type x with ENTRY => 0 | EXIT => 1 end).
Proof.
  intros H Hst Hday. apply route_qr_scan_result in H.
  destruct H as (r0 & Hr & [[Hne _] | (_ & x & -> & _ & _ & Hts & _)]).
  { injection Hr as <-. exfalso. apply Hne. exact Hst. }
  cbv zeta. exists x.
  unfold stats_today, try_catch.
  repeat rewrite bind_eq. unfold prisma_gateEntry_count, read, ret.
  cbv beta iota zeta. cbn [gateEntries set_gateEntries].
  do 4 eexists.
  split; [reflexivity|]. split; [reflexivity|]. split; [reflexivity|].
  split; [reflexivity|]. split; [reflexivity|]. split; [reflexivity|].
  split; [reflexivity|].
  assert (Hin : in_range (startOfDay (now e2)) (nextDay (startOfDay (now e2))) x = true).
  { unfold in_range. rewrite Hts. apply andb_true_iff.
    split; [apply Z.leb_le | apply Z.ltb_lt]; lia. }
  cbn [prop assoc String.eqb Ascii.eqb Bool.eqb gateEntries set_gateEntries].
  rewrite !count_snoc, Hin. unfold is_type, count.
  destruct (type x); cbn [EntryType_eqb andb]; split; reflexivity.
Qed.

(** * The handlers' catches and the server's state *)

(** ** C6 *)

Lemma resident_login_answers : answers resident_login.
Proof.
  intros req e. apply try_catch_answers; [|caught]. post_walk.
Qed.

Lemma resident_approval_answers : answers resident_approval.
Proof.
  intros req e. apply try_catch_answers; [|caught]. post_walk.
Qed.

(** Whatever the body of a handler does, its catch answers what it
    throws. *)
Lemma catch_answers_the_throw (c : catch_block) (body : task Response) d :
  exists r d',
    try_catch body (catch_answer c) d = (Ok r, d') /\
    (forall f d1, body d = (Throw f, d1) ->
       d' = d1 /\ status r = catch_status c /\
       r = error_json (catch_status c) (catch_error c) (catch_text c f)).
Proof.
  unfold try_catch. destruct (body d) as [[a|f] d1].
  - exists a, d1. split; [reflexivity|]. intros f d2 E. discriminate.
  - eexists. eexists. split; [reflexivity|].
    intros f0 d2 E. injection E as <- <-. repeat split.
Qed.

Lemma catch_status_400_or_500 c :
  In c handler_catches -> catch_status c = 400 \/ catch_status c = 500.
Proof.
  unfold handler_catches. intros H.
  repeat (destruct H as [<- | H]; [first [left; reflexivity | right; reflexivity]|]).
  contradiction.
Qed.

Lemma modelled_handlers_caught file line h :
  In (file, line, h) modelled_handlers -> caught_by file line h.
Proof.
  unfold modelled_handlers. intros H.
  repeat (destruct H as [H | H];
          [injection H as <- <- <-;
           eexists; eexists; split; [vm_compute; reflexivity | intros req e; reflexivity]|]).
  contradiction.
Qed.

Lemma modelled_routes_answer h : In h modelled_routes -> answers h.
Proof.
  intros Hin. unfold modelled_routes, routes_without_create in Hin. simpl in Hin.
  repeat (destruct Hin as [<- | Hin]); try contradiction;
    try (apply admin_chain_answers);
    try (apply chain_answers; [repeat constructor; apply authenticateToken_passes|]).
  - apply list_gate_entries_answers.
  - apply stats_today_answers.
  - apply delete_gate_entry_answers.
  - apply admin_stats_answers.
  - apply update_bill_status_answers.
  - apply refresh_token_answers.
  - apply logout_answers.
  - apply not_found_answers.
  - exact resident_login_answers.
  - exact resident_approval_answers.
  - apply qr_scan_answers.
  - apply create_gate_entry_answers.
  - exact register_resident_answers.
Qed.

(** C6, as amended: every route handler answers every request and lets no
    exception escape: whatever its body throws, a schema-validation failure
    included, is answered by the handler's own catch with the status that
    catch fixes (400 or 500, whatever the kind of error) and a body with
    error and message; so a query that fails the schema is answered 500 by
    GET /gate-entries, and 400 by the handlers that create or update from a
    validated body; a token that does not verify is answered 403 by
    authenticateToken; the error answers of the routes of this development
    all carry error and message; an error that reaches the global error
    handler is answered with the status of the table (P2002 400, P2025 404,
    ZodError 400, JWT errors 401, and otherwise the error's own statusCode
    or status, 500 when it has neither) and a body with error and message;
    an unknown route is answered 404 with error and message. *)
Theorem errors_are_answered :
  (forall c, In c handler_catches ->
     (catch_status c = 400 \/ catch_status c = 500) /\
     forall (body : task Response) d,
       exists r d',
         try_catch body (catch_answer c) d = (Ok r, d') /\
         (forall f d1, body d = (Throw f, d1) ->
            d' = d1 /\ status r = catch_status c /\
            r = error_json (catch_status c) (catch_error c) (catch_text c f))) /\
  (forall file line h, In (file, line, h) modelled_handlers -> caught_by file line h) /\
  (forall h, In h modelled_routes -> answers h) /\
  (forall req e d f,
     (z_object PaginationSchema (req_query req) = Throw f ->
      list_gate_entries req e d =
        (Ok (error_json 500 "Failed to fetch gate entries" "Internal server error"), d)) /\
     (z_object GateEntrySchema (req_body req) = Throw f ->
      create_gate_entry req e d =
        (Ok (error_json 400 "Failed to create gate entry" (describe f)), d)) /\
     (z_object BillUpdateSchema (req_body req) = Throw f ->
      update_bill_status req e d =
        (Ok (error_json 400 "Failed to update bill status" (describe f)), d)) /\
     (z_object ResidentRegistrationSchema (req_body req) = Throw f ->
      register_resident req e d =
        (Ok (error_json 400 "Registration failed" (describe f)), d)) /\
     (z_object LoginSchema (req_body req) = Throw f ->
      resident_login req e d =
        (Ok (error_json 400 "Login failed" (describe f)), d))) /\
  (forall req e d token,
     bearer_token (req_authorization req) = Some token ->
     token <> "" ->
     jwt_verify token (JWT_SECRET e) (now e) = None ->
     authenticateToken req e d =
       (Ok (inl (error_json 403 "Invalid token" "Token is not valid or has expired")), d)) /\
  (forall err e,
     status (error_handler err e) = table_status err /\
     has_error_and_message (error_handler err e)) /\
  (forall req e d,
     not_found req e d =
     (Ok (error_json 404 "Route not found"
            ("Cannot " +++ req_method req +++ " " +++ req_originalUrl req)), d)).
Proof.
  split; [|split; [|split; [|split; [|split; [|split]]]]].
  - intros c Hc. split; [apply catch_status_400_or_500; exact Hc|].
    intros body d. apply catch_answers_the_throw.
  - apply modelled_handlers_caught.
  - apply modelled_routes_answer.
  - intros req e d f. repeat split; intros Hf.
    + unfold list_gate_entries, try_catch. rewrite bind_lift, Hf. reflexivity.
    + unfold create_gate_entry, try_catch. rewrite bind_lift, Hf. reflexivity.
    + unfold update_bill_status, try_catch. cbv zeta. rewrite bind_lift, Hf. reflexivity.
    + unfold register_resident, try_catch. rewrite bind_lift, Hf. reflexivity.
    + unfold resident_login, try_catch. rewrite bind_lift, Hf. reflexivity.
  - intros req e d token Hb Hne Hv.
    rewrite authenticateToken_eq, Hb, Hv.
    apply String.eqb_neq in Hne. rewrite Hne. reflexivity.
  - intros err e. unfold error_handler, table_status.
    destruct (code_is err "P2002"); [split; [reflexivity | eexists; eexists; split; reflexivity]|].
    destruct (code_is err "P2025"); [split; [reflexivity | eexists; eexists; split; reflexivity]|].
    destruct (name_is err "ZodError"); [split; [reflexivity | eexists; eexists; split; reflexivity]|].
    destruct (name_is err "JsonWebTokenError");
      [split; [reflexivity | eexists; eexists; split; reflexivity]|].
    destruct (name_is err "TokenExpiredError");
      [split; [reflexivity | eexists; eexists; split; reflexivity]|].
    split; [reflexivity | eexists; eexists; split; reflexivity].
  - reflexivity.
Qed.

(** ** C7 *)

Lemma env_same_without_create e1 e2 :
  same_clock_and_config e1 e2 ->
  forall h, In h routes_without_create -> forall req d, h req e1 d = h req e2 d.
Proof.
  intros Hsame h Hin req d. unfold routes_without_create in Hin.
  apply in_app_or in Hin. destruct Hin as [Hin | Hin].
  - apply env_same_reading; assumption.
  - destruct Hsame as (H1 & H2 & H3 & H4 & H5).
    destruct e1, e2. simpl in H1, H2, H3, H4, H5. subst.
    simpl in Hin. destruct Hin as [<- | [<- | []]]; reflexivity.
Qed.

Lemma env_same_creating e1 e2 :
  same_clock_and_config e1 e2 -> fresh_id e1 = fresh_id e2 ->
  forall h, In h creating_routes -> forall req d, fst (h req e1 d) = fst (h req e2 d).
Proof.
  intros Hsame Hid h Hin req d.
  simpl in Hin. destruct Hin as [<- | [<- | [<- | []]]].
  - destruct Hsame as (H1 & H2 & H3 & H4 & H5).
    destruct e1, e2. simpl in H1, H2, H3, H4, H5, Hid. subst. reflexivity.
  - destruct Hsame as (H1 & H2 & H3 & H4 & H5).
    destruct e1, e2. simpl in H1, H2, H3, H4, H5, Hid. subst. reflexivity.
  - unfold route_register_resident. simpl chain.
    apply register_answer_same; assumption.
Qed.

(** Over a sequence of requests the counters of the limiter evolve by the
    clients and the times alone. *)
Lemma serve_counters arrivals counters d :
  fst (snd (serve arrivals (counters, d))) = snd (count_arrivals arrivals counters).
Proof.
  revert counters d. induction arrivals as [|a rest IH]; intros counters d; [reflexivity|].
  cbn [serve count_arrivals]. unfold app. cbn [fst snd].
  destruct (limiter counters (from_ip a) (now (at_env a))) as [over counters1].
  destruct over.
  - specialize (IH counters1 d).
    destruct (serve rest (counters1, d)) as [outs s2].
    destruct (count_arrivals rest counters1) as [overs counters2].
    exact IH.
  - destruct (to_route a (with_request a) (at_env a) d) as [out d1].
    specialize (IH counters1 d1).
    destruct (serve rest (counters1, d1)) as [outs s2].
    destruct (count_arrivals rest counters1) as [overs counters2].
    exact IH.
Qed.

(** While no client is over the limit the answers and the database are
    those of the routers alone. *)
Lemma serve_under_the_limit arrivals counters d :
  (forall over, In over (fst (count_arrivals arrivals counters)) -> over = false) ->
  fst (serve arrivals (counters, d)) = fst (serve_routes arrivals d) /\
  snd (snd (serve arrivals (counters, d))) = snd (serve_routes arrivals d).
Proof.
  revert counters d. induction arrivals as [|a rest IH]; intros counters d;
    [split; reflexivity|].
  cbn [serve serve_routes count_arrivals]. unfold app. cbn [fst snd].
  destruct (limiter counters (from_ip a) (now (at_env a))) as [over counters1].
  destruct (count_arrivals rest counters1) as [overs counters2] eqn:Ec.
  cbn [fst]. intros Hunder.
  assert (Hover : over = false) by (apply Hunder; left; reflexivity).
  subst over.
  destruct (to_route a (with_request a) (at_env a) d) as [out d1].
  destruct (IH counters1 d1) as [IH1 IH2].
  { intros over Hin. apply Hunder. right. rewrite Ec in Hin. exact Hin. }
  destruct (serve rest (counters1, d1)) as [outs s2].
  destruct (serve_routes rest d1) as [outs' d2].
  cbn [fst snd] in *. subst. split; reflexivity.
Qed.


End Backend.

(** * Examples on the concrete runtime *)

Local Abbreviation run_qr_scan :=
  (qr_scan example_JSON_parse example_ToString example_Date_of).

Local Abbreviation run_route_qr_scan :=
  (route_qr_scan example_JSON_parse example_ToString example_Date_of
     example_jwt_verify example_ObjectId_new).

Local Abbreviation run_qr_reachable :=
  (qr_reachable example_JSON_parse example_ToString example_Date_of
     example_jwt_verify example_ObjectId_new).

(** Bob's guest code is scanned when the log holds no row of his, and is
    recorded as an ENTRY; it is scanned when the log holds three rows of his,
    the most recent an ENTRY, and is recorded as an EXIT. *)
Lemma qr_scan_toggles_witness :
  (exists r d',
     run_route_qr_scan (as_admin (JObj [("qrData", JStr "guest Bob")])) example_env
       (example_database true) = (Ok r, d') /\
     status r = 201 /\
     exists x,
       gateEntries d' = gateEntries (example_database true) ++ [x] /\
       qr_key (key_of_entry x) /\
       (let previous :=
          filter (entry_matches (key_of_entry x)) (gateEntries (example_database true)) in
        let entry_case :=
          previous = [] \/
          exists l, latest previous = Some l /\ most_recent previous l /\ type l = EXIT in
        (type x = ENTRY <-> entry_case) /\ (type x = EXIT <-> ~ entry_case)) /\
       x = example_entry (fresh_id example_env) ENTRY (db_now example_env)) /\
  (exists r d',
     run_route_qr_scan (as_admin (JObj [("qrData", JStr "guest Bob")])) example_env
       example_gate_log = (Ok r, d') /\
     status r = 201 /\
     exists x,
       gateEntries d' = gateEntries example_gate_log ++ [x] /\
       qr_key (key_of_entry x) /\
       (let previous :=
          filter (entry_matches (key_of_entry x)) (gateEntries example_gate_log) in
        let entry_case :=
          previous = [] \/
          exists l, latest previous = Some l /\ most_recent previous l /\ type l = EXIT in
        (type x = ENTRY <-> entry_case) /\ (type x = EXIT <-> ~ entry_case)) /\
       filter (entry_matches (key_of_entry x)) (gateEntries example_gate_log) =
         [example_entry (example_entry_id "1") ENTRY 100;
          example_entry (example_entry_id "2") EXIT 200;
          example_entry (example_entry_id "3") ENTRY 300] /\
       latest (filter (entry_matches (key_of_entry x)) (gateEntries example_gate_log)) =
         Some (example_entry (example_entry_id "3") ENTRY 300) /\
       x = example_entry (fresh_id example_env) EXIT (db_now example_env)).
Proof.
  split.
  - eexists. eexists. split; [reflexivity|]. split; [reflexivity|].
    destruct (qr_scan_toggles_entry_exit example_JSON_parse example_ToString
                example_Date_of example_jwt_verify example_ObjectId_new
                (as_admin (JObj [("qrData", JStr "guest Bob")])) example_env
                (example_database true) _ _ eq_refl eq_refl) as (x & Hx & Hk & Hiff).
    exists x. split; [exact Hx|]. split; [exact Hk|]. split; [exact Hiff|].
    cbn in Hx. injection Hx as Hx. subst x. reflexivity.
  - eexists. eexists. split; [reflexivity|]. split; [reflexivity|].
    destruct (qr_scan_toggles_entry_exit example_JSON_parse example_ToString
                example_Date_of example_jwt_verify example_ObjectId_new
                (as_admin (JObj [("qrData", JStr "guest Bob")])) example_env
                example_gate_log _ _ eq_refl eq_refl) as (x & Hx & Hk & Hiff).
    exists x. split; [exact Hx|]. split; [exact Hk|]. split; [exact Hiff|].
    cbn in Hx. injection Hx as Hx. subst x.
    repeat split.
Defined.

(** C3 fails in three ways.  For the manual endpoint: on the store with an
    empty log, an admin records an EXIT for Bob by hand, and the log no
    longer starts with an ENTRY.  For scans that overlap: two scans of Bob's
    code both look the log up while it is empty, then both create their row,
    the second stamped later than the first, and the log holds two ENTRY
    rows in a row.  For scans handled one at a time whose stamps do not
    increase: the second row is stamped before the first, so that the third
    scan still finds the first row the most recent, and the log ends with
    two EXIT rows in a row. *)
Lemma manual_entry_breaks_alternation :
  (alternation (gateEntries (example_database true)) /\
   exists r d',
     route_create_gate_entry example_describe example_is_email example_Number_of
       example_jwt_verify example_ObjectId_new
       (as_admin example_manual_exit) example_env (example_database true) = (Ok r, d') /\
     status r = 201 /\
     ~ alternation (gateEntries d')) /\
  (exists d,
     run_qr_reachable overlapping stamped_later [] d /\
     gateEntries d = [example_entry (fresh_id example_env) ENTRY 1501;
                      example_entry (fresh_id example_env_later) ENTRY 1601] /\
     ~ alternation (gateEntries d)) /\
  (exists d,
     run_qr_reachable one_at_a_time stamped_any [] d /\
     gateEntries d = [example_entry (fresh_id example_env) ENTRY 1501;
                      example_entry (fresh_id example_env_clock_back) EXIT 1400;
                      example_entry (fresh_id example_env_later) EXIT 1601] /\
     ~ alternation (gateEntries d)).
Proof.
  pose (scan := as_admin (JObj [("qrData", JStr "guest Bob")])).
  assert (Hempty : forall may_start stamp_ok,
             run_qr_reachable may_start stamp_ok [] (example_database true)).
  { intros may_start stamp_ok. apply reach_empty. reflexivity. }
  split; [|split].
  - split.
    + intros k _. simpl. split; exact I.
    + eexists. eexists. split; [reflexivity|]. split; [reflexivity|].
      intros H.
      specialize (H _ (key_guest "Bob" "A-101")).
      destruct H as [Hfirst _]. vm_compute in Hfirst. discriminate.
  - pose (first := {| scan_env := example_env;
                      scan_entryData := example_guest_entryData "ENTRY" |}).
    pose (second := {| scan_env := example_env_later;
                       scan_entryData := example_guest_entryData "ENTRY" |}).
    assert (H1 : run_qr_reachable overlapping stamped_later [first] (example_database true)).
    { apply (reach_lookup _ _ _ _ _ _ _ [] (example_database true) scan example_env
               (Ok (inr (example_guest_entryData "ENTRY"))) (example_database true)
               (Hempty _ _) I).
      reflexivity. }
    assert (H2 : run_qr_reachable overlapping stamped_later [first; second]
                   (example_database true)).
    { apply (reach_lookup _ _ _ _ _ _ _ [first] (example_database true) scan
               example_env_later
               (Ok (inr (example_guest_entryData "ENTRY"))) (example_database true)
               H1 I).
      reflexivity. }
    eexists. split; [|split].
    + eapply (reach_create _ _ _ _ _ _ _ [] second []).
      * eapply (reach_create _ _ _ _ _ _ _ [] first [second] _ _ _ H2).
        -- intros x [].
        -- apply surjective_pairing.
      * intros x [<- | []]. vm_compute. reflexivity.
      * apply surjective_pairing.
    + reflexivity.
    + match goal with
      | |- ~ alternation ?log =>
          change log with [example_entry (fresh_id example_env) ENTRY 1501;
                           example_entry (fresh_id example_env_later) ENTRY 1601]
      end.
      intros H. specialize (H _ (key_guest "Bob" "A-101")).
      destruct H as [_ [Hnb _]]. apply Hnb. reflexivity.
  - eexists. split; [|split].
    + eapply (reach_scan example_JSON_parse example_ToString example_Date_of
                example_jwt_verify example_ObjectId_new _ _ _ scan example_env_later).
      * eapply (reach_scan example_JSON_parse example_ToString example_Date_of
                  example_jwt_verify example_ObjectId_new _ _ _ scan
                  example_env_clock_back).
        -- eapply (reach_scan example_JSON_parse example_ToString example_Date_of
                     example_jwt_verify example_ObjectId_new _ _ _ scan example_env).
           ++ apply Hempty.
           ++ reflexivity.
           ++ exact I.
           ++ apply surjective_pairing.
        -- reflexivity.
        -- exact I.
        -- apply surjective_pairing.
      * reflexivity.
      * exact I.
      * apply surjective_pairing.
    + reflexivity.
    + match goal with
      | |- ~ alternation ?log =>
          change log with [example_entry (fresh_id example_env) ENTRY 1501;
                           example_entry (fresh_id example_env_clock_back) EXIT 1400;
                           example_entry (fresh_id example_env_later) EXIT 1601]
      end.
      intros H. specialize (H _ (key_guest "Bob" "A-101")).
      destruct H as [_ [_ [Hnb _]]]. apply Hnb. reflexivity.
Qed.

(** Two scans of Bob's guest code by an admin, one after the other, the
    second stamped later. *)
Lemma qr_scans_alternate_witness :
  let scan := as_admin (JObj [("qrData", JStr "guest Bob")]) in
  let d :=
    snd (run_route_qr_scan scan example_env_later
           (snd (run_route_qr_scan scan example_env (example_database true)))) in
  run_qr_reachable one_at_a_time stamped_later [] d /\
  gateEntries d = [example_entry (fresh_id example_env) ENTRY 1501;
                   example_entry (fresh_id example_env_later) EXIT 1601] /\
  increasing (gateEntries d) /\ alternation (gateEntries d).
Proof.
  intros scan d.
  assert (H : run_qr_reachable one_at_a_time stamped_later [] d).
  { eapply (reach_scan example_JSON_parse example_ToString example_Date_of
              example_jwt_verify example_ObjectId_new _ _ _ scan example_env_later).
    - eapply (reach_scan example_JSON_parse example_ToString example_Date_of
                example_jwt_verify example_ObjectId_new _ _
                (example_database true) scan example_env).
      + apply reach_empty. reflexivity.
      + reflexivity.
      + intros x [].
      + apply surjective_pairing.
    - reflexivity.
    - intros x [<- | []]. vm_compute. reflexivity.
    - apply surjective_pairing. }
  split; [exact H|]. split; [reflexivity|].
  apply (proj1 (qr_scans_alternate example_JSON_parse example_ToString example_Date_of
                  example_jwt_verify example_ObjectId_new [] d H)).
Defined.

(** C4 fails in four ways, each for a scan of a guest payload with a name
    and an apartment but the first.  Without a guest name, inside the
    window, the store refuses the lookup and nothing is created.  With a
    licence plate whose conversion to a string throws, inside the window,
    nothing is created.  With a validUntil whose conversion throws, the scan
    is answered 500, not 400, although the current time is before validFrom.
    With a host whose stored id is not an ObjectId, inside the window,
    nothing is created. *)
Lemma guest_scan_without_name_creates_nothing :
  (guest_scan example_JSON_parse example_ToString
     (scan_of "guest without name") example_nameless_payload /\
   dates_convert example_nameless_payload /\
   example_Date_of (prop example_nameless_payload "validFrom") = Some 1000 /\
   example_Date_of (prop example_nameless_payload "validUntil") = Some 2000 /\
   1000 <= now example_env <= 2000 /\
   run_qr_scan (scan_of "guest without name") example_env empty_database =
     (Ok (error_json 500 "Failed to process QR code" "Internal server error"),
      empty_database)) /\
  (guest_scan example_JSON_parse example_ToString
     (scan_of "guest with a plate object") example_plate_payload /\
   dates_convert example_plate_payload /\
   example_Date_of (prop example_plate_payload "validFrom") = Some 1000 /\
   example_Date_of (prop example_plate_payload "validUntil") = Some 2000 /\
   1000 <= now example_env <= 2000 /\
   prop example_plate_payload "guestName" = JStr "Bob" /\
   prop example_plate_payload "hostApartment" = JStr "A-101" /\
   truthy (prop example_plate_payload "licensePlate") = true /\
   conversion_throws (prop example_plate_payload "licensePlate") = true /\
   run_qr_scan (scan_of "guest with a plate object") example_env empty_database =
     (Ok (error_json 500 "Failed to process QR code" "Internal server error"),
      empty_database)) /\
  (guest_scan example_JSON_parse example_ToString
     (scan_of "guest with a date object") example_date_payload /\
   before_window example_Date_of example_env example_date_payload /\
   conversion_throws (prop example_date_payload "validUntil") = true /\
   run_qr_scan (scan_of "guest with a date object") example_env empty_database =
     (Ok (error_json 500 "Failed to process QR code" "Internal server error"),
      empty_database)) /\
  (guest_scan example_JSON_parse example_ToString
     (scan_of "guest Bob") example_guest_payload /\
   dates_convert example_guest_payload /\
   1000 <= now example_env <= 2000 /\
   guest_vehicle_ok example_guest_payload /\
   In example_host (residents example_database_with_host) /\
   isObjectId (res_id example_host) = false /\
   run_qr_scan (scan_of "guest Bob") example_env example_database_with_host =
     (Ok (error_json 500 "Failed to process QR code" "Internal server error"),
      example_database_with_host)).
Proof.
  split; [|split; [|split]].
  - repeat split; try reflexivity; vm_compute; discriminate.
  - repeat split; try reflexivity; vm_compute; discriminate.
  - split; [repeat split|]. split; [exists 9000; split; reflexivity|].
    split; reflexivity.
  - split; [repeat split|]. split; [split; reflexivity|].
    split; [split; vm_compute; discriminate|].
    split.
    { split; [intros H; vm_compute in H; discriminate | intros _; left; reflexivity]. }
    split; [left; reflexivity|]. split; reflexivity.
Qed.

(** Bob's guest code scanned after its window has closed, and inside its
    window when the log already holds rows of his. *)
Lemma guest_scan_window_witness :
  run_qr_scan (scan_of "guest Bob") example_env_after_window example_gate_log =
    (Ok (error_json 400 "QR Code expired" "Guest QR code is not valid at this time"),
     example_gate_log) /\
  exists r x,
    run_qr_scan (scan_of "guest Bob") example_env example_gate_log =
      (Ok r, set_gateEntries (gateEntries example_gate_log ++ [x]) example_gate_log) /\
    status r = 201 /\ person x = "Bob" /\ apartment x = "A-101" /\ entryType x = "Guest".
Proof.
  assert (Hguest : guest_scan example_JSON_parse example_ToString
                     (scan_of "guest Bob") example_guest_payload).
  { repeat split. }
  assert (Hdates : dates_convert example_guest_payload).
  { split; reflexivity. }
  split.
  - apply (proj1 (guest_scan_window example_JSON_parse example_ToString example_Date_of
                    (scan_of "guest Bob") example_env_after_window example_gate_log
                    example_guest_payload Hguest Hdates)).
    right. exists 2000. split; reflexivity.
  - apply (proj2 (guest_scan_window example_JSON_parse example_ToString example_Date_of
                    (scan_of "guest Bob") example_env example_gate_log
                    example_guest_payload Hguest Hdates)).
    + intros (t & E & H). vm_compute in E. injection E as <-. vm_compute in H. discriminate.
    + intros (t & E & H). vm_compute in E. injection E as <-. vm_compute in H. discriminate.
    + reflexivity.
    + reflexivity.
    + split; [intros H; vm_compute in H; discriminate | intros _; left; reflexivity].
    + intros r [].
Defined.

(** An admin whose account has status false, with a valid token. *)
Lemma inactive_admin_is_served_witness :
  through
    (authenticateAndVerify example_jwt_verify example_ObjectId_new ++ [requireAdmin])
    (as_admin JNull) example_env (example_database false) =
  (Ok (inr (set_user (as_admin JNull)
              (JObj [("id", JStr example_admin_id); ("type", JStr "admin");
                     ("email", JStr "admin@example.com")]))),
   example_database false).
Proof.
  apply (inactive_admin_is_served example_jwt_verify example_ObjectId_new
           (as_admin JNull) example_env (example_database false)
           "admin-token" _ example_admin_id (example_admin false));
    try reflexivity.
  discriminate.
Defined.

Local Abbreviation run_register :=
  (register_resident example_ToString example_describe example_is_email
     example_Number_of example_bcrypt_hash).



Local Abbreviation run_reading_routes :=
  (reading_routes example_ToString example_Date_of example_describe example_is_email
     example_Number_of example_startOfDay example_nextDay example_contains
     example_order_rows example_jwt_verify example_jwt_sign example_ObjectId_new).

Local Abbreviation run_creating_routes :=
  (creating_routes example_JSON_parse example_ToString example_Date_of example_describe
     example_is_email example_Number_of example_jwt_verify example_bcrypt_hash
     example_ObjectId_new).

Local Abbreviation run_list_gate_entries :=
  (list_gate_entries example_ToString example_is_email example_Number_of
     example_contains example_order_rows).

(** C6 fails in three places: an error that carries its own status (here
    413) is answered with it, not with 500, by the global error handler;
    GET /gate-entries answers a query that fails the schema with 500, not
    400; and a token that does not verify is answered 403, not 401. *)
Lemma status_outside_the_table :
  (code_is example_payload_too_large "P2002" = false /\
   code_is example_payload_too_large "P2025" = false /\
   name_is example_payload_too_large "ZodError" = false /\
   name_is example_payload_too_large "JsonWebTokenError" = false /\
   name_is example_payload_too_large "TokenExpiredError" = false /\
   status (error_handler example_payload_too_large example_env) = 413) /\
  (exists issues,
     z_object example_is_email example_Number_of PaginationSchema
       (req_query example_page_zero) = Throw (ZodError issues)) /\
  run_list_gate_entries example_page_zero example_env (example_database true) =
    (Ok (error_json 500 "Failed to fetch gate entries" "Internal server error"),
     example_database true) /\
  authenticateToken example_jwt_verify (example_request (Some "Bearer forged") JNull)
    example_env (example_database true) =
    (Ok (inl (error_json 403 "Invalid token" "Token is not valid or has expired")),
     example_database true).
Proof.
  repeat split; try reflexivity. eexists. reflexivity.
Qed.

(** An admin logs out; the same token authenticates the next request. *)
Lemma logout_changes_nothing_witness :
  snd (route_logout example_jwt_verify (as_admin JNull) example_env (example_database true))
    = example_database true /\
  fst (route_logout example_jwt_verify (as_admin JNull) example_env (example_database true))
    = Ok {| status := 200; body := [("message", JStr "Logout successful")] |} /\
  exists user,
    authenticateToken example_jwt_verify (as_admin JNull) example_env_later
      (snd (route_logout example_jwt_verify (as_admin JNull) example_env
              (example_database true))) =
    (Ok (inr (set_user (as_admin JNull) user)), example_database true).
Proof.
  destruct (logout_changes_nothing example_jwt_verify (as_admin JNull) example_env
              (example_database true)) as [Hframe Hrest].
  split; [exact Hframe|].
  destruct (Hrest "admin-token"
              (JObj [("id", JStr example_admin_id); ("type", JStr "admin");
                     ("email", JStr "admin@example.com")]))
    as [Hanswer Hlater]; [reflexivity | discriminate | reflexivity |].
  split; [exact Hanswer|].
  eexists. apply (Hlater example_env_later). reflexivity.
Defined.

(** On a day with one entry and two exits the occupancy reported is 0. *)
Example more_exits_than_entries :
  exists r,
    stats_today example_startOfDay example_nextDay (as_admin JNull) example_env
      example_busy_database = (Ok r, example_busy_database) /\
    assoc "statistics" (body r) =
      Some (JObj [("totalEntries", JNum 1); ("totalExits", JNum 2);
                  ("currentOccupancy", JNum 0); ("guestEntries", JNum 3);
                  ("vehicleEntries", JNum 0)]).
Proof. eexists. split; reflexivity. Qed.

(** Of four bills, two are PENDING, one is PAID, and only the PENDING one
    that is past its due date counts as overdue: the bill whose status is
    OVERDUE does not. *)
Example overdue_status_is_not_counted :
  exists r statistics,
    admin_stats example_startOfDay example_nextDay (as_admin JNull) example_env
      example_busy_database = (Ok r, example_busy_database) /\
    assoc "statistics" (body r) = Some statistics /\
    prop statistics "maintenanceBills" =
      JObj [("total", JNum 4); ("pending", JNum 2); ("paid", JNum 1); ("overdue", JNum 1)].
Proof. eexists. eexists. split; [reflexivity|]. split; reflexivity. Qed.

(** * Further examples on the concrete runtime *)

Local Abbreviation run_create_gate_entry :=
  (create_gate_entry example_describe example_is_email example_Number_of).

(** The second of three gate entries is deleted. *)
Lemma delete_removes_the_row_witness :
  exists r before after,
    delete_gate_entry (with_id (example_entry_id "2") JNull) example_env example_gate_log =
      (Ok r, set_gateEntries (before ++ after) example_gate_log) /\
    status r = 200 /\
    gateEntries example_gate_log =
      before ++ example_entry (example_entry_id "2") EXIT 200 :: after /\
    id (example_entry (example_entry_id "2") EXIT 200) = example_entry_id "2" /\
    forall y, In y before -> id y <> example_entry_id "2".
Proof.
  apply (delete_removes_the_row (with_id (example_entry_id "2") JNull) example_env
           example_gate_log (example_entry (example_entry_id "2") EXIT 200));
    reflexivity.
Defined.


(** An EXIT recorded by hand for Bob at the back gate, on an empty log. *)
Lemma manual_entry_is_stored_witness :
  exists r,
    run_create_gate_entry (example_request None (example_manual_entry [])) example_env
      empty_database =
      (Ok r,
       set_gateEntries
         (gateEntries empty_database ++
          [{| id := fresh_id example_env; type := EXIT; person := "Bob";
              apartment := "A-101"; entryType := "Guest"; vehicle := "None";
              gate := "Back Gate"; method := "Manual"; residentId := None;
              createdAt := db_now example_env |}]) empty_database) /\
    status r = 201.
Proof.
  apply (manual_entry_is_stored_with_defaults example_describe example_is_email
           example_Number_of (example_request None (example_manual_entry []))
           example_env empty_database EXIT "Bob" "A-101" "Guest" None (Some "Back Gate")
           None);
    try reflexivity; discriminate.
Defined.

(** The same body with the resident's id, as a string and as a number. *)
Lemma manual_entry_with_resident_witness :
  (exists r,
     run_create_gate_entry
       (example_request None (example_manual_entry [("residentId", JStr example_resident_id)]))
       example_env empty_database = (Ok r, empty_database) /\ status r = 400) /\
  (exists r,
     run_create_gate_entry
       (example_request None (example_manual_entry [("residentId", JNum 7)]))
       example_env empty_database = (Ok r, empty_database) /\ status r = 400).
Proof.
  split.
  - apply (manual_entry_with_resident_is_refused example_describe example_is_email
             example_Number_of). discriminate.
  - apply (manual_entry_with_resident_is_refused example_describe example_is_email
             example_Number_of). discriminate.
Defined.

(** Bob's EXIT is recorded by hand and deleted again. *)
Lemma create_then_delete_witness :
  delete_gate_entry (with_id (fresh_id example_env) JNull) example_env_later
    (snd (run_create_gate_entry (example_request None (example_manual_entry []))
            example_env example_gate_log)) =
  (Ok {| status := 200; body := [("message", JStr "Gate entry deleted successfully")] |},
   example_gate_log).
Proof.
  eapply (create_then_delete_restores_the_store example_describe example_is_email
            example_Number_of (example_request None (example_manual_entry []))
            example_env example_gate_log).
  - reflexivity.
  - reflexivity.
  - reflexivity.
  - intros x [<-|[<-|[<-|[]]]]; discriminate.
  - reflexivity.
Defined.

(** Bob's guest code is scanned: the store changes, and the payload is of a
    known type. *)
Lemma scan_writes_only_for_known_types_witness :
  exists parsed,
    truthy (prop (req_body (scan_of "guest Bob")) "qrData") = true /\
    example_JSON_parse (js_string example_ToString (prop (req_body (scan_of "guest Bob")) "qrData"))
      = Some parsed /\
    existsb (is_str (prop parsed "type")) qr_types = true.
Proof.
  eapply (scan_writes_only_for_known_types example_JSON_parse example_ToString
            example_Date_of (scan_of "guest Bob") example_env empty_database).
  - apply surjective_pairing.
  - vm_compute. discriminate.
Defined.

(** The same scan by an admin, through the middlewares. *)
Lemma scan_only_appends_witness :
  let d := example_database true in
  let d' := snd (run_route_qr_scan (as_admin (JObj [("qrData", JStr "guest Bob")]))
                   example_env d) in
  d' = d \/
  exists x, d' = set_gateEntries (gateEntries d ++ [x]) d /\
            gate x = "Main Gate" /\ method x = "QR Code" /\
            createdAt x = db_now example_env /\ id x = fresh_id example_env.
Proof.
  eapply (scan_only_appends_a_qr_row example_JSON_parse example_ToString example_Date_of
            example_jwt_verify example_ObjectId_new
            (as_admin (JObj [("qrData", JStr "guest Bob")])) example_env
            (example_database true)).
  apply surjective_pairing.
Defined.

(** The second page of two of the three gate entries. *)
Lemma list_gate_entries_witness :
  exists r,
    run_list_gate_entries example_page_two example_env example_gate_log =
      (Ok r, example_gate_log) /\
    exists entries page limit total,
      body r = [("entries", JArr entries);
                ("pagination",
                 JObj [("page", JNum page); ("limit", JNum limit); ("total", JNum total);
                       ("pages", JNum (ceil_div total limit))])] /\
      1 <= page /\ 1 <= limit <= 100 /\
      (prop (req_query example_page_two) "page" = JUndefined -> page = 1) /\
      (prop (req_query example_page_two) "limit" = JUndefined -> limit = 20) /\
      Z.of_nat (List.length entries) <= limit /\
      0 <= total /\
      (ceil_div total limit - 1) * limit < total <= ceil_div total limit * limit.
Proof.
  eexists. split; [reflexivity|].
  eapply proj2.
  eapply (list_gate_entries_returns_one_page example_ToString example_is_email
            example_Number_of example_contains example_order_rows
            example_page_two example_env example_gate_log);
    reflexivity.
Defined.

(** The admin's token after the word Basic, and on its own. *)
Lemma scheme_of_the_header_witness :
  authenticateToken example_jwt_verify (example_request (Some "Basic admin-token") JNull)
    example_env empty_database =
    (Ok (inr (set_user (example_request (Some "Basic admin-token") JNull)
                example_admin_payload)), empty_database) /\
  authenticateToken example_jwt_verify (example_request (Some "admin-token") JNull)
    example_env empty_database =
    (Ok (inl (error_json 401 "Access denied" "No token provided")), empty_database).
Proof.
  split.
  - apply (proj1 (scheme_of_the_header_is_not_checked example_jwt_verify
                    (example_request (Some "Basic admin-token") JNull) example_env
                    empty_database) "Basic" "admin-token"); reflexivity.
  - apply (proj2 (scheme_of_the_header_is_not_checked example_jwt_verify
                    (example_request (Some "admin-token") JNull) example_env
                    empty_database) "admin-token"); reflexivity.
Defined.

(** Carol, active and approved, on a store whose ids are ObjectIds. *)
Lemma verifyUserExists_passes_iff_witness :
  let req := set_user (example_request None JNull) example_resident_payload_of_token in
  let d := example_community "Active" APPROVED in
  verifyUserExists example_ObjectId_new req example_env d = (Ok (inr req), d) <->
  exists user, req_user req = Some user /\ truthy user = true /\
               account_accepted example_ObjectId_new user d.
Proof.
  apply (verifyUserExists_passes_iff example_ObjectId_new).
  repeat split; intros x Hx; simpl in Hx;
    repeat (destruct Hx as [<-|Hx]; [reflexivity|]); destruct Hx.
Defined.

(** An admin records an EXIT by hand: the store changes. *)
Lemma only_an_admin_changes_the_store_witness :
  exists token user oid a,
    bearer_token (req_authorization (as_admin example_manual_exit)) = Some token /\
    example_jwt_verify token (JWT_SECRET example_env) (now example_env) = Some user /\
    prop user "type" = JStr "admin" /\
    example_ObjectId_new (prop user "id") = Some oid /\
    find (fun x => String.eqb (admin_id x) oid) (admins (example_database true)) = Some a.
Proof.
  eapply (only_an_admin_changes_the_store example_jwt_verify example_ObjectId_new
            run_create_gate_entry (as_admin example_manual_exit) example_env
            (example_database true)).
  - apply surjective_pairing.
  - vm_compute. discriminate.
Defined.

(** Carol's token on a route for admins. *)
Lemma other_roles_never_reach_the_handler_witness :
  exists r,
    In (status r) [401; 403; 404; 500] /\
    forall h : handler,
      chain (authenticateAndVerify example_jwt_verify example_ObjectId_new
               ++ [authorizeRoles ["admin"]]) h
        (example_request (Some "Bearer resident-token") JNull) example_env
        (example_community "Active" APPROVED) =
      (Ok r, example_community "Active" APPROVED).
Proof.
  apply (other_roles_never_reach_the_handler example_jwt_verify example_ObjectId_new
           ["admin"] (example_request (Some "Bearer resident-token") JNull) example_env
           (example_community "Active" APPROVED) "resident-token"
           example_resident_payload_of_token); reflexivity.
Defined.

(** The admin's token is refreshed on a store without any account. *)
Lemma refresh_never_consults_the_store_witness :
  route_refresh example_jwt_verify example_jwt_sign (as_admin JNull) example_env
    empty_database =
  (Ok {| status := 200;
         body := [("message", JStr "Token refreshed successfully");
                  ("token", JStr "admin-token")] |}, empty_database).
Proof.
  apply (refresh_never_consults_the_store example_jwt_verify example_jwt_sign
           (as_admin JNull) example_env "admin-token" example_admin_payload "admin-token");
    try reflexivity.
  discriminate.
Defined.

Local Abbreviation run_resident_login :=
  (resident_login example_ToString example_describe example_is_email example_Number_of
     example_jwt_sign example_bcrypt_compare).

(** Carol, active and approved, logs in with her password. *)
Lemma login_succeeds_only_witness :
  let req := example_request None (example_login "secret1") in
  let d := example_community "Active" APPROVED in
  exists r,
    run_resident_login req example_env d = (Ok r, d) /\
    exists x m p h t,
      prop (req_body req) "email" = JStr m /\
      prop (req_body req) "password" = JStr p /\
      find (fun y => String.eqb (res_email y) m) (residents d) = Some x /\
      res_password x = Some h /\ h <> "" /\ example_bcrypt_compare p h = true /\
      res_status x = "Active" /\ res_approvalStatus x = APPROVED /\
      generateToken example_jwt_sign (resident_payload x) example_env = Ok t /\
      assoc "token" (body r) = Some (JStr t).
Proof.
  eexists. split; [reflexivity|].
  eapply (login_succeeds_only_with_the_credentials example_ToString example_describe
            example_is_email example_Number_of example_jwt_sign example_bcrypt_compare
            (example_request None (example_login "secret1")) example_env
            (example_community "Active" APPROVED)); reflexivity.
Defined.

Lemma login_accepts_the_credentials_witness :
  run_resident_login (example_request None (example_login "secret1")) example_env
    (example_community "Active" APPROVED) =
  (Ok {| status := 200;
         body := [("message", JStr "Login successful");
                  ("token", JStr "resident-token");
                  ("user",
                   JObj [("id", JStr example_resident_id); ("name", JStr "Carol");
                         ("email", JStr "carol@example.com"); ("apartment", JStr "C-3");
                         ("type", JStr "resident"); ("status", JStr "Active");
                         ("approvalStatus", JStr "APPROVED")])] |},
   example_community "Active" APPROVED).
Proof.
  apply (login_accepts_the_credentials example_ToString example_describe example_is_email
           example_Number_of example_jwt_sign example_bcrypt_compare
           (example_request None (example_login "secret1")) example_env
           (example_community "Active" APPROVED) (example_resident "Active" APPROVED)
           "carol@example.com" "secret1" (example_bcrypt_hash "secret1" "salt")
           "resident-token"); try reflexivity.
  - vm_compute. lia.
  - discriminate.
Defined.

(** The payload Carol's login signs passes the account check. *)
Lemma login_token_passes_witness :
  let d := example_community "Active" APPROVED in
  exists r,
    run_resident_login (example_request None (example_login "secret1")) example_env d
      = (Ok r, d) /\
    exists x t,
      In x (residents d) /\
      generateToken example_jwt_sign (resident_payload x) example_env = Ok t /\
      assoc "token" (body r) = Some (JStr t) /\
      forall req' e',
        req_user req' = Some (resident_payload x) ->
        verifyUserExists example_ObjectId_new req' e' d = (Ok (inr req'), d).
Proof.
  eexists. split; [reflexivity|].
  eapply (login_token_passes_the_account_check example_ToString example_describe
            example_is_email example_Number_of example_jwt_sign example_ObjectId_new
            example_bcrypt_compare
            (example_request None (example_login "secret1")) example_env
            (example_community "Active" APPROVED)).
  - reflexivity.
  - reflexivity.
  - repeat constructor. intros [].
  - intros r [<-|[]]. reflexivity.
Defined.

(** Carol's pending registration is approved by a request without a
    token. *)
Lemma approval_needs_no_token_witness :
  exists r before after,
    route_resident_approval
      (with_id example_resident_id (JObj [("approvalStatus", JStr "APPROVED")]))
      example_env (example_community "Pending" APPROVAL_PENDING) =
      (Ok r,
       set_residents
         (before ++
          set_approval (Some APPROVED) "Active"
            (example_resident "Pending" APPROVAL_PENDING) :: after)
         (example_community "Pending" APPROVAL_PENDING)) /\
    status r = 200 /\
    residents (example_community "Pending" APPROVAL_PENDING) =
      before ++ example_resident "Pending" APPROVAL_PENDING :: after /\
    forall y, In y before -> res_id y <> example_resident_id.
Proof.
  apply (approval_needs_no_token
           (with_id example_resident_id (JObj [("approvalStatus", JStr "APPROVED")]))
           example_env (example_community "Pending" APPROVAL_PENDING)
           (example_resident "Pending" APPROVAL_PENDING) APPROVED);
    try reflexivity.
  discriminate.
Defined.


(** Carol registers and tries to log in at once. *)
Lemma registered_resident_cannot_log_in_witness :
  let d1 := snd (run_register (example_request None (example_registration "Carol"))
                   example_env empty_database) in
  exists r2,
    run_resident_login (example_request None (example_login "secret1")) example_env_later d1
      = (Ok r2, d1) /\
    In (status r2) [400; 401; 403].
Proof.
  eapply (registered_resident_cannot_log_in_yet example_ToString example_describe
            example_is_email example_Number_of example_jwt_sign example_bcrypt_hash
            example_bcrypt_compare
            (example_request None (example_registration "Carol")) example_env
            empty_database).
  - reflexivity.
  - reflexivity.
  - reflexivity.
Defined.

(** Carol registers, is approved, and logs in. *)
Lemma register_approve_login_witness :
  let d1 := snd (run_register (example_request None (example_registration "Carol"))
                   example_env empty_database) in
  exists r2 d2 r3,
    route_resident_approval
      (with_id (fresh_id example_env) (JObj [("approvalStatus", JStr "APPROVED")]))
      example_env_later d1 = (Ok r2, d2) /\
    status r2 = 200 /\
    route_resident_login example_ToString example_describe example_is_email
      example_Number_of example_jwt_sign example_bcrypt_compare
      (example_request None (example_login "secret1")) example_env_later d2 = (Ok r3, d2) /\
    status r3 = 200 /\
    assoc "token" (body r3) = Some (JStr "resident-token") /\
    forall req' e',
      req_user req' =
        Some (JObj [("id", JStr (fresh_id example_env)); ("type", JStr "resident");
                    ("email",
                     prop (req_body (example_request None (example_registration "Carol")))
                       "email")]) ->
      verifyUserExists example_ObjectId_new req' e' d2 = (Ok (inr req'), d2).
Proof.
  eapply (register_approve_login example_ToString example_describe example_is_email
            example_Number_of example_jwt_sign example_bcrypt_hash example_ObjectId_new
            example_bcrypt_compare
            (example_request None (example_registration "Carol")) example_env
            empty_database _ _ "secret1");
    try reflexivity.
  - intros y [].
  - discriminate.
Defined.

Local Abbreviation run_update_bill_status :=
  (update_bill_status example_Date_of example_describe example_is_email example_Number_of).


(** The first bill of four is paid. *)
Lemma paying_a_bill_witness :
  exists r before after,
    run_update_bill_status
      (with_id "111111111111111111111111" (JObj [("status", JStr "PAID")]))
      example_env example_busy_database =
      (Ok r,
       set_maintenanceBills
         (before ++
          apply_update (Some PAID) (Some (now example_env))
            (example_bill "111111111111111111111111" 1000 PENDING) :: after)
         example_busy_database) /\
    status r = 200 /\
    maintenanceBills example_busy_database =
      before ++ example_bill "111111111111111111111111" 1000 PENDING :: after /\
    forall y, In y before -> bill_id y <> "111111111111111111111111".
Proof.
  apply (paying_a_bill_stamps_it example_Date_of example_describe example_is_email
           example_Number_of
           (with_id "111111111111111111111111" (JObj [("status", JStr "PAID")]))
           example_env example_busy_database
           (example_bill "111111111111111111111111" 1000 PENDING)); reflexivity.
Defined.

(** A TypeError with a stack, handled in production and in development. *)
Lemma error_details_witness :
  (assoc "stack" (body (error_handler example_failure (example_env_in "production"))) = None /\
   exists msg, In msg fixed_messages /\
               assoc "message"
                 (body (error_handler example_failure (example_env_in "production")))
               = Some (JStr msg)) /\
  NODE_ENV (example_env_in "development") = Some "development".
Proof.
  split.
  - apply (proj1 (error_details_stay_in_development example_failure
                    (example_env_in "production"))). reflexivity.
  - apply (proj2 (error_details_stay_in_development example_failure
                    (example_env_in "development"))). vm_compute. discriminate.
Defined.

(** The second gate entry is deleted twice. *)
Lemma deleting_twice_witness :
  delete_gate_entry (with_id (example_entry_id "2") JNull) example_env_later
    (snd (delete_gate_entry (with_id (example_entry_id "2") JNull) example_env
            example_gate_log)) =
  (Ok (error_json 404 "Gate entry not found" "Gate entry does not exist"),
   snd (delete_gate_entry (with_id (example_entry_id "2") JNull) example_env
          example_gate_log)).
Proof.
  eapply (deleting_twice_changes_nothing_more (with_id (example_entry_id "2") JNull)
            example_env example_gate_log).
  - repeat constructor; simpl; intros H;
      repeat (destruct H as [H|H]; [discriminate H|]); exact H.
  - reflexivity.
  - reflexivity.
Defined.

(** Bob's guest code is scanned on the day of the statistics, when the log
    holds two entries and one exit of his: the scan is recorded as an EXIT,
    and the statistics then count two exits and, as before, two entries. *)
Lemma a_scan_shows_witness :
  let scan := as_admin (JObj [("qrData", JStr "guest Bob")]) in
  let d := example_gate_log in
  let d' := snd (run_route_qr_scan scan example_env d) in
  exists x r1 r2 s1 s2,
    gateEntries d' = gateEntries d ++ [x] /\
    stats_today example_startOfDay example_nextDay (as_admin JNull) example_env_later d
      = (Ok r1, d) /\
    stats_today example_startOfDay example_nextDay (as_admin JNull) example_env_later d'
      = (Ok r2, d') /\
    assoc "statistics" (body r1) = Some s1 /\
    assoc "statistics" (body r2) = Some s2 /\
    (prop s1 "totalEntries" = JNum 2 /\ prop s1 "totalExits" = JNum 1 /\
     prop s2 "totalEntries" = JNum 2 /\ prop s2 "totalExits" = JNum 2) /\
    type x = EXIT.
Proof.
  intros scan d d'.
  destruct (a_scan_shows_in_todays_statistics example_JSON_parse example_ToString
              example_Date_of example_startOfDay example_nextDay example_jwt_verify
              example_ObjectId_new scan example_env d
              _ d' (as_admin JNull) example_env_later eq_refl eq_refl)
    as (x & r1 & r2 & s1 & s2 & Hx & H1 & H2 & A1 & A2 & E1 & X1 & E2 & X2).
  { vm_compute. split; [discriminate | reflexivity]. }
  exists x, r1, r2, s1, s2.
  repeat (split; [assumption|]).
  assert (Ex : x = example_entry (fresh_id example_env) EXIT (db_now example_env)).
  { cbn in Hx. injection Hx as Hx. symmetry. exact Hx. }
  subst x. split; [|reflexivity].
  rewrite E1, X1, E2, X2. repeat split.
Defined.

(** * The handlers' catches and the server's state, on the concrete runtime *)

Local Abbreviation run_app := (app (list (string * Z)) example_limiter).

Local Abbreviation run_route_stats_today :=
  (route_stats_today example_startOfDay example_nextDay example_jwt_verify
     example_ObjectId_new).

Local Abbreviation run_modelled_routes :=
  (modelled_routes example_JSON_parse example_ToString example_Date_of example_describe
     example_is_email example_Number_of example_startOfDay example_nextDay
     example_contains example_order_rows example_jwt_verify example_jwt_sign
     example_bcrypt_hash example_ObjectId_new example_bcrypt_compare).

(** The catch of GET /gate-entries answers 500 whatever is thrown, here a
    ZodError; the handler answers 500 for the query of [example_page_zero],
    which fails the schema; a forged token is answered 403; and the QR-scan
    route answers every request. *)
Lemma errors_are_answered_witness :
  (exists c,
     catch_at "routes/gateEntries.ts" 64 = Some c /\
     forall d,
       try_catch (throw (ZodError [("page", "Page must be positive")]))
         (catch_answer example_describe c) d =
       (Ok (error_json 500 "Failed to fetch gate entries" "Internal server error"), d)) /\
  run_list_gate_entries example_page_zero example_env (example_database true) =
    (Ok (error_json 500 "Failed to fetch gate entries" "Internal server error"),
     example_database true) /\
  authenticateToken example_jwt_verify (example_request (Some "Bearer forged") JNull)
    example_env (example_database true) =
    (Ok (inl (error_json 403 "Invalid token" "Token is not valid or has expired")),
     example_database true) /\
  answers run_route_qr_scan.
Proof.
  destruct (errors_are_answered example_JSON_parse example_ToString example_Date_of
              example_describe example_is_email example_Number_of example_startOfDay
              example_nextDay example_contains example_order_rows example_jwt_verify
              example_jwt_sign example_bcrypt_hash example_ObjectId_new
              example_bcrypt_compare)
    as (Hcatch & _ & Hanswers & Hschema & Htoken & _).
  split; [|split; [|split]].
  - eexists. split; [vm_compute; reflexivity|]. intros d.
    match goal with
    | |- try_catch ?body (catch_answer _ ?c) _ = _ =>
        assert (Hin : In c handler_catches)
          by (vm_compute; repeat (first [left; reflexivity | right]));
        destruct (Hcatch c Hin) as (_ & Hbody);
        destruct (Hbody body d) as (r & d' & Hrun & Hthrow)
    end.
    destruct (Hthrow _ _ eq_refl) as (-> & _ & ->). exact Hrun.
  - destruct (Hschema example_page_zero example_env (example_database true)
                (ZodError [("page", "Page must be positive")])) as (Hlist & _).
    apply Hlist. reflexivity.
  - apply (Htoken (example_request (Some "Bearer forged") JNull) example_env
             (example_database true) "forged"); [reflexivity | discriminate | reflexivity].
  - apply Hanswers. apply in_or_app. right. left. reflexivity.
Defined.


Local Abbreviation run_serve := (serve (list (string * Z)) example_limiter).


(** The schemas count the characters of a string, not its bytes: a name of
    one character, three bytes long, is refused by the registration, and a
    password of two such characters by the login. *)
Example short_strings_are_refused :
  String.length example_one_character = 3%nat /\
  utf16_length example_one_character = 1%nat /\
  run_register (example_request None (example_registration example_one_character))
    example_env empty_database =
    (Ok (error_json 400 "Registration failed" "Invalid request"), empty_database) /\
  run_resident_login
    (example_request None (example_login (example_one_character +++ example_one_character)))
    example_env (example_community "Active" APPROVED) =
    (Ok (error_json 400 "Login failed" "Invalid request"),
     example_community "Active" APPROVED).
Proof. repeat split. Qed.
